(** * Job-posting extraction pipeline: a shallow embedding and its properties

    The development follows the Python sources of the package:

    - [extractor/content_cleaner.py]  ([_final_cleanup], [is_meaningful_content],
                                       [BOILERPLATE_REGEX], [_remove_legal_sections]),
    - [extractor/source_detector.py]  ([detect_source] and its three detectors),
    - [extractor/url_resolver.py]     ([resolve_url], the per-platform resolvers,
                                       [get_api_endpoint]),
    - [extractor/html_parser.py]      ([extract_schema_job_posting], the
                                       normalisation of a JobPosting item,
                                       [parse_html]),
    - [extractor/fetcher.py]          ([is_valid_job_url]),
    - [extractor/fallback_extractor.py] ([get_best_extraction]),
    - [utils/keyword_ranker.py]       ([tokenize_text], [rank_keywords],
                                       [format_keywords_for_display]),
    - [llm/prompts.py]                ([get_user_prompt]),
    - [llm/analyzer.py]               ([_parse_llm_response]).

    Python values are modelled as follows.  A [str] is a [string]; every
    [ascii] stands for one code point below 256, so [String.length] is Python's
    [len].  Code points from 256 on are outside the model.  An [int] is a [Z].
    A function that may raise returns in the error monad [exc].

    The libraries that the sources call are modelled beside them: [re] by a
    matcher on pattern syntax trees, [urllib.parse] by [urlsplit], [urlparse]
    and [parse_qs] written out, the operations on [str] one by one.  What the
    model takes as given is gathered in classes, [UrllibImpl], [HtmlImpl],
    [SoupImpl] and [ExtractImpl]; the theorems hold for every instance. *)

From Stdlib Require Import Bool Arith ZArith Lia List Ascii String DecimalString.
From Stdlib Require Import Sorted Permutation.
Import ListNotations.

Local Open Scope string_scope.
Local Open Scope bool_scope.

(* ------------------------------------------------------------------ *)
(** ** Python strings *)

Module PyStr.

(** The code point of a character. *)
Definition ord (c : ascii) : nat := nat_of_ascii c.

Definition nl : ascii := ascii_of_nat 10.
Definition tab : ascii := ascii_of_nat 9.
Definition cr : ascii := ascii_of_nat 13.
Definition LF : string := String nl "".

(** [lo <= n <= hi] *)
Definition between (lo n hi : nat) : bool := Nat.leb lo n && Nat.leb n hi.

(** [str.isspace] on one character, for code points below 256:
    TAB LF VT FF CR, FS GS RS US, SPACE, NEL and NBSP.  The class [\s] of
    [re] on [str] patterns is the same set. *)
Definition isspace (c : ascii) : bool :=
  let n := ord c in
  between 9 n 13 || between 28 n 32 || Nat.eqb n 133 || Nat.eqb n 160.

(** [str.lower] on one character: A-Z, and the Latin-1 capitals
    U+00C0..U+00DE except the multiplication sign U+00D7. *)
Definition lower_char (c : ascii) : ascii :=
  let n := ord c in
  if between 65 n 90 || (between 192 n 222 && negb (Nat.eqb n 215))
  then ascii_of_nat (n + 32) else c.

Fixpoint lower (s : string) : string :=
  match s with
  | "" => ""
  | String c s' => String (lower_char c) (lower s')
  end.

(** [s.startswith(p)] *)
Fixpoint startswith (p s : string) : bool :=
  match p, s with
  | "", _ => true
  | String a p', String b s' => Ascii.eqb a b && startswith p' s'
  | String _ _, "" => false
  end.

(** [sub in s] *)
Fixpoint contains (sub s : string) : bool :=
  startswith sub s ||
  match s with
  | "" => false
  | String _ s' => contains sub s'
  end.

(** [c in s] for a single character *)
Fixpoint has_char (c : ascii) (s : string) : bool :=
  match s with
  | "" => false
  | String a s' => Ascii.eqb a c || has_char c s'
  end.

(** [s.partition(c)] for a one-character separator: the text before the
    first [c] and, when there is one, the text after it. *)
Fixpoint partition (c : ascii) (s : string) : string * option string :=
  match s with
  | "" => ("", None)
  | String a s' =>
      if Ascii.eqb a c then ("", Some s')
      else let '(h, t) := partition c s' in (String a h, t)
  end.

(** [s.split(c)] for a one-character separator. *)
Fixpoint split (c : ascii) (s : string) : list string :=
  match s with
  | "" => [""]
  | String a s' =>
      if Ascii.eqb a c then "" :: split c s'
      else match split c s' with
           | [] => [String a ""]
           | w :: ws => String a w :: ws
           end
  end.

(** [sep.join(l)] *)
Fixpoint join (sep : string) (l : list string) : string :=
  match l with
  | [] => ""
  | [x] => x
  | x :: ((_ :: _) as r) => x ++ sep ++ join sep r
  end.

(** [s.lstrip()] with a set of characters given as a predicate *)
Fixpoint lstrip_by (p : ascii -> bool) (s : string) : string :=
  match s with
  | "" => ""
  | String a s' => if p a then lstrip_by p s' else s
  end.

(** [s.rstrip()] with a set of characters given as a predicate *)
Fixpoint rstrip_by (p : ascii -> bool) (s : string) : string :=
  match s with
  | "" => ""
  | String a s' =>
      match rstrip_by p s' with
      | "" => if p a then "" else String a ""
      | r => String a r
      end
  end.

(** [s.strip()] *)
Definition strip (s : string) : string :=
  rstrip_by isspace (lstrip_by isspace s).

(** [s.replace(c, "")] for a set of characters *)
Fixpoint remove_chars (p : ascii -> bool) (s : string) : string :=
  match s with
  | "" => ""
  | String a s' => if p a then remove_chars p s' else String a (remove_chars p s')
  end.

Fixpoint forallb (p : ascii -> bool) (s : string) : bool :=
  match s with
  | "" => true
  | String a s' => p a && forallb p s'
  end.

(** The longest prefix of [s] made of characters of the class. *)
Fixpoint take_while (p : ascii -> bool) (s : string) : string :=
  match s with
  | "" => ""
  | String c s' => if p c then String c (take_while p s') else ""
  end.

(** [s[n:]] *)
Fixpoint drop (n : nat) (s : string) : string :=
  match n, s with
  | O, _ => s
  | S n', String _ s' => drop n' s'
  | S _, "" => ""
  end.

Fixpoint repeat_char (c : ascii) (n : nat) : string :=
  match n with
  | O => ""
  | S n' => String c (repeat_char c n')
  end.

End PyStr.


(* ------------------------------------------------------------------ *)
(** ** extractor/content_cleaner.py *)

Module ContentCleaner.
Import PyStr.

(** [re.sub(r'\n{3,}', '\n\n', text)]: [run] counts the newlines read just
    before [s] and not written yet; a run of three or more is written as two. *)
Definition flush_newlines (run : nat) : string :=
  if Nat.leb 3 run then String nl LF else repeat_char nl run.

Fixpoint sub_newline_runs_aux (run : nat) (s : string) : string :=
  match s with
  | "" => flush_newlines run
  | String c s' =>
      if Ascii.eqb c nl then sub_newline_runs_aux (S run) s'
      else flush_newlines run ++ String c (sub_newline_runs_aux 0 s')
  end.

Definition sub_newline_runs (text : string) : string :=
  sub_newline_runs_aux 0 text.

(** The character class [[\s\-•·*|/\\]] of [_final_cleanup]: white space,
    hyphen, middle dot U+00B7, star, bar, slash and backslash (the bullet
    U+2022 lies outside the code points of the model). *)
Definition symbol_char (c : ascii) : bool :=
  isspace c || Ascii.eqb c "-" || Nat.eqb (ord c) 183 || Ascii.eqb c "*"
  || Ascii.eqb c "|" || Ascii.eqb c "/" || Ascii.eqb c "\".

(** [re.match(r'^[\s\-•·*|/\\]+$', line)]: one or more characters of the class
    up to the end.  The newline that [$] tolerates before the end is itself in
    the class, so the match holds exactly on the non-empty strings of the class. *)
Definition symbols_only (line : string) : bool :=
  negb (String.eqb line "") && PyStr.forallb symbol_char line.

(** The test of the loop of [_final_cleanup]:
      [if line and not re.match(...): if len(line.strip()) > 2 or line.strip() == '':] *)
Definition keep_line (line : string) : bool :=
  if negb (String.eqb line "") && negb (symbols_only line) then
    Nat.ltb 2 (length (strip line)) || String.eqb (strip line) ""
  else false.

(** The list [cleaned] that the loop builds from [text]. *)
Definition cleaned_lines (text : string) : list string :=
  filter keep_line (split nl (sub_newline_runs text)).

(** [re.sub(r'[ \t]+', ' ', text)]: [in_run] says that the character before [s]
    was a blank already replaced. *)
Definition is_blank (c : ascii) : bool := Ascii.eqb c " " || Ascii.eqb c tab.

Fixpoint sub_blank_runs_aux (in_run : bool) (s : string) : string :=
  match s with
  | "" => ""
  | String c s' =>
      if is_blank c then
        if in_run then sub_blank_runs_aux true s'
        else String " " (sub_blank_runs_aux true s')
      else String c (sub_blank_runs_aux false s')
  end.

Definition sub_blank_runs (text : string) : string :=
  sub_blank_runs_aux false text.

(** [re.sub(r'\n ', '\n', text)] *)
Fixpoint sub_newline_space (s : string) : string :=
  match s with
  | "" => ""
  | String c s' =>
      if Ascii.eqb c nl then
        match s' with
        | String c' s'' =>
            if Ascii.eqb c' " " then String nl (sub_newline_space s'')
            else String nl (sub_newline_space s')
        | "" => String nl (sub_newline_space s')
        end
      else String c (sub_newline_space s')
  end.

Definition _final_cleanup (text : string) : string :=
  let cleaned := cleaned_lines text in
  let text := join LF cleaned in
  let text := sub_blank_runs text in
  let text := sub_newline_space text in
  strip text.

(** The vocabulary of [is_meaningful_content]. *)
Definition job_keywords : list string :=
  [ "responsibilities"; "qualifications"; "requirements";
    "experience"; "skills"; "benefits"; "salary"; "location";
    "apply"; "position"; "role"; "team"; "opportunity";
    "job description"; "about the role"; "what you'll do";
    "what we're looking for"; "who you are"; "about you" ].

(** The default of the parameter [min_length]. *)
Definition default_min_length : Z := 200.

Definition is_meaningful_content (text : string) (min_length : Z) : bool :=
  if (Z.of_nat (length text) <? min_length)%Z then false
  else
    let text_lower := lower text in
    let matches := List.length (filter (fun kw => contains kw text_lower) job_keywords) in
    if Nat.ltb matches 2 then false else true.

(** [kw] occurs in [text] when letter case is ignored. *)
Definition occurs_ci (kw text : string) : Prop :=
  exists pre post, lower text = pre ++ kw ++ post.

End ContentCleaner.


(* ------------------------------------------------------------------ *)
(** ** Exceptions *)

(** The exceptions that the modelled code can meet.  [JSONDecodeError] is
    the one of [json.loads] on text that is not JSON; [ValueError] stands for
    a [ValueError] of any other class.  [ParserRejectedMarkup] is the one of
    BeautifulSoup on markup that [html.parser] rejects. *)
Inductive exn : Type :=
| ValueError | TypeError | KeyError | IndexError | AttributeError
| JSONDecodeError | RecursionError | ParserRejectedMarkup.

(** A computation that returns a value or raises. *)
Inductive exc (A : Type) : Type :=
| Ok (a : A)
| Raise (e : exn).

Arguments Ok {A} a.
Arguments Raise {A} e.

Definition bind {A B : Type} (m : exc A) (k : A -> exc B) : exc B :=
  match m with
  | Ok a => k a
  | Raise e => Raise e
  end.

Notation "'do' x <- m ; k" := (bind m (fun x => k))
  (at level 10, x name, m at level 100, k at level 200).
Notation "'do' ' p <- m ; k" := (bind m (fun p => k))
  (at level 10, p strict pattern, m at level 100, k at level 200).

Definition returns {A : Type} (m : exc A) : Prop := exists a, m = Ok a.

Definition raises {A : Type} (m : exc A) : Prop := exists e, m = Raise e.


(* ------------------------------------------------------------------ *)
(** ** Regular expressions ([re]) *)

Module Regex.
Import PyStr.

(** The patterns of the sources use literals, character classes, sequence,
    choice and repetition.  A greedy and a lazy repetition accept the same
    strings, so [Star] stands for both when only a yes or no is asked. *)
Inductive regex : Type :=
| Void
| Eps
| Class (p : ascii -> bool)
| Cat (r1 r2 : regex)
| Alt (r1 r2 : regex)
| Star (r : regex).

Fixpoint Lit (s : string) : regex :=
  match s with
  | "" => Eps
  | String c s' => Cat (Class (Ascii.eqb c)) (Lit s')
  end.

Definition Plus (r : regex) : regex := Cat r (Star r).
Definition Opt (r : regex) : regex := Alt r Eps.

(** [\d] on code points below 256 *)
Definition digit (c : ascii) : bool := between 48 (ord c) 57.
(** [.] without DOTALL *)
Definition dot (c : ascii) : bool := negb (Ascii.eqb c nl).

Fixpoint nullable (r : regex) : bool :=
  match r with
  | Void => false
  | Eps => true
  | Class _ => false
  | Cat r1 r2 => nullable r1 && nullable r2
  | Alt r1 r2 => nullable r1 || nullable r2
  | Star _ => true
  end.

(** Smart constructors keep derivatives small; they do not change the
    language. *)
Definition cat (r1 r2 : regex) : regex :=
  match r1, r2 with
  | Void, _ => Void
  | _, Void => Void
  | Eps, _ => r2
  | _, _ => Cat r1 r2
  end.

Definition alt (r1 r2 : regex) : regex :=
  match r1, r2 with
  | Void, _ => r2
  | _, Void => r1
  | _, _ => Alt r1 r2
  end.

(** The derivative of [r] by the character [c]. *)
Fixpoint deriv (c : ascii) (r : regex) : regex :=
  match r with
  | Void => Void
  | Eps => Void
  | Class p => if p c then Eps else Void
  | Cat r1 r2 =>
      if nullable r1 then alt (cat (deriv c r1) r2) (deriv c r2)
      else cat (deriv c r1) r2
  | Alt r1 r2 => alt (deriv c r1) (deriv c r2)
  | Star r1 => cat (deriv c r1) (Star r1)
  end.

(** [re.match(r, s)] as a yes or no: some prefix of [s] matches [r]. *)
Fixpoint match_prefix (r : regex) (s : string) : bool :=
  nullable r ||
  match s with
  | "" => false
  | String c s' => match_prefix (deriv c r) s'
  end.

(** [re.search(r, s)] as a yes or no: a match starts somewhere in [s]. *)
Fixpoint search (r : regex) (s : string) : bool :=
  match_prefix r s ||
  match s with
  | "" => false
  | String _ s' => search r s'
  end.

(** A match of [pre([cls]+)] at the start of [s]: the text of the group. *)
Definition group_here (pre : string) (cls : ascii -> bool) (s : string)
  : option string :=
  if startswith pre s then
    match take_while cls (drop (length pre) s) with
    | "" => None
    | g => Some g
    end
  else None.

Fixpoint first_group (pres : list string) (cls : ascii -> bool) (s : string)
  : option string :=
  match pres with
  | [] => None
  | pre :: rest =>
      match group_here pre cls s with
      | Some g => Some g
      | None => first_group rest cls s
      end
  end.

(** [re.search(p, s).group(1)] for a pattern [(pre1|pre2|...)([cls]+)] whose
    literal prefixes are tried in the order given: the leftmost match, the
    group taken greedily.  [None] when there is no match. *)
Fixpoint search_group (pres : list string) (cls : ascii -> bool) (s : string)
  : option string :=
  match first_group pres cls s with
  | Some g => Some g
  | None =>
      match s with
      | "" => None
      | String _ s' => search_group pres cls s'
      end
  end.

End Regex.


(* ------------------------------------------------------------------ *)
(** ** urllib.parse *)

(** Two parts of [urllib.parse] are taken as given rather than modelled:
    [unquote], the percent-decoding of a query name or value (its UTF-8
    decoding leaves the code points of the model), and the check that CPython
    runs on a network location holding both brackets
    ([_check_bracketed_netloc], absent before 3.11.4, where every such location
    passes).  Every statement below holds for all choices of the two. *)
Class UrllibImpl : Type := {
  unquote : string -> string;
  bracketed_netloc_ok : string -> bool
}.

Module Urllib.
Import PyStr.

Record SplitResult : Type := mkSplit {
  s_scheme : string;
  s_netloc : string;
  s_path : string;
  s_query : string;
  s_fragment : string
}.

Record ParseResult : Type := mkParse {
  scheme : string;
  netloc : string;
  path : string;
  params : string;
  query : string;
  fragment : string
}.

(** [_WHATWG_C0_CONTROL_OR_SPACE] *)
Definition c0_control_or_space (c : ascii) : bool := Nat.leb (ord c) 32.

(** [_UNSAFE_URL_BYTES_TO_REMOVE] *)
Definition unsafe_url_byte (c : ascii) : bool :=
  Ascii.eqb c tab || Ascii.eqb c cr || Ascii.eqb c nl.

Definition ascii_alpha (c : ascii) : bool :=
  between 65 (ord c) 90 || between 97 (ord c) 122.

(** [scheme_chars]: letters, digits and [+-.] *)
Definition scheme_char (c : ascii) : bool :=
  ascii_alpha c || between 48 (ord c) 57
  || Ascii.eqb c "+" || Ascii.eqb c "-" || Ascii.eqb c ".".

(** The scheme step of [urlsplit]:
      [i = url.find(':')]
      [if i > 0 and url[0].isascii() and url[0].isalpha():]
      [    for c in url[:i]: if c not in scheme_chars: break]
      [    else: scheme, url = url[:i].lower(), url[i+1:]] *)
Definition split_scheme (url : string) : string * string :=
  match partition ":" url with
  | (String c0 pre, Some rest) =>
      if ascii_alpha c0 && PyStr.forallb scheme_char (String c0 pre)
      then (lower (String c0 pre), rest)
      else ("", url)
  | _ => ("", url)
  end.

Definition netloc_delim (c : ascii) : bool :=
  Ascii.eqb c "/" || Ascii.eqb c "?" || Ascii.eqb c "#".

(** [_splitnetloc(url, 2)] on the text after the two slashes: the text before
    the first of [/?#], and the text from there on. *)
Fixpoint _splitnetloc (s : string) : string * string :=
  match s with
  | "" => ("", "")
  | String c s' =>
      if netloc_delim c then ("", s)
      else let '(n, r) := _splitnetloc s' in (String c n, r)
  end.

Section WithImpl.
Context {impl : UrllibImpl}.

(** The checks of [urlsplit] on the network location. *)
Definition check_netloc_brackets (netloc : string) : exc unit :=
  let lb := has_char "[" netloc in
  let rb := has_char "]" netloc in
  if (lb && negb rb) || (rb && negb lb) then Raise ValueError
  else if lb && rb then
    if bracketed_netloc_ok netloc then Ok tt else Raise ValueError
  else Ok tt.

(** [urlsplit(url)] with the default arguments, as CPython 3.12 has it.
    [_checknetloc], which looks at the NFKC form of a non-ASCII network
    location, rejects nothing below code point 256 and is left out. *)
Definition urlsplit (url : string) : exc SplitResult :=
  let url := lstrip_by c0_control_or_space url in
  let url := remove_chars unsafe_url_byte url in
  let '(scheme, url) := split_scheme url in
  do ' (netloc, url) <-
    (if startswith "//" url then
       let '(netloc, url) := _splitnetloc (drop 2 url) in
       do _ <- check_netloc_brackets netloc; Ok (netloc, url)
     else Ok ("", url));
  let '(url, fragment) :=
    match partition "#" url with
    | (u, Some f) => (u, f)
    | (u, None) => (u, "")
    end in
  let '(url, query) :=
    match partition "?" url with
    | (u, Some q) => (u, q)
    | (u, None) => (u, "")
    end in
  Ok (mkSplit scheme netloc url query fragment).

Definition uses_params : list string :=
  [ ""; "ftp"; "hdl"; "prospero"; "http"; "imap"; "https"; "shttp"; "rtsp";
    "rtsps"; "rtspu"; "sip"; "sips"; "mms"; "sftp"; "tel" ].

(** [s.rpartition(c)]: the text before the last [c] and the text after it. *)
Fixpoint rpartition (c : ascii) (s : string) : option (string * string) :=
  match s with
  | "" => None
  | String a s' =>
      match rpartition c s' with
      | Some (h, t) => Some (String a h, t)
      | None => if Ascii.eqb a c then Some ("", s') else None
      end
  end.

(** [_splitparams(url)], called when [';' in url]: the first [;] of the last
    path segment splits the path from the parameters. *)
Definition _splitparams (url : string) : string * string :=
  match rpartition "/" url with
  | Some (h, seg) =>
      match partition ";" seg with
      | (b, Some a) => (h ++ "/" ++ b, a)
      | (_, None) => (url, "")
      end
  | None =>
      match partition ";" url with
      | (b, Some a) => (b, a)
      | (_, None) => (url, "")
      end
  end.

Definition urlparse (url : string) : exc ParseResult :=
  do r <- urlsplit url;
  let '(url, params) :=
    if existsb (String.eqb (s_scheme r)) uses_params && has_char ";" (s_path r)
    then _splitparams (s_path r)
    else (s_path r, "") in
  Ok (mkParse (s_scheme r) (s_netloc r) url params (s_query r) (s_fragment r)).

(** [name.replace('+', ' ')] followed by [unquote] *)
Fixpoint plus_to_space (s : string) : string :=
  match s with
  | "" => ""
  | String c s' => String (if Ascii.eqb c "+" then " "%char else c) (plus_to_space s')
  end.

Definition _unquote (s : string) : string := unquote (plus_to_space s).

(** [parse_qsl(qs)] with the default arguments: fields are separated by [&],
    a field without [=] or with an empty value is dropped. *)
Definition parse_qsl (qs : string) : list (string * string) :=
  flat_map
    (fun name_value =>
       if String.eqb name_value "" then []
       else
         match partition "=" name_value with
         | (name, Some value) =>
             if String.eqb value "" then []
             else [(_unquote name, _unquote value)]
         | (_, None) => []
         end)
    (split "&" qs).

End WithImpl.

(** A [dict] from [str] to a list of [str], in insertion order. *)
Definition qdict : Type := list (string * list string).

(** [if name in d: d[name].append(value) else: d[name] = [value]] *)
Fixpoint dict_append (name value : string) (d : qdict) : qdict :=
  match d with
  | [] => [(name, [value])]
  | (k, vs) :: d' =>
      if String.eqb k name then (k, (vs ++ [value])%list) :: d'
      else (k, vs) :: dict_append name value d'
  end.

(** [key in d] *)
Definition dict_has (key : string) (d : qdict) : bool :=
  existsb (fun kv => String.eqb (fst kv) key) d.

(** [d[key]] *)
Fixpoint dict_item (key : string) (d : qdict) : exc (list string) :=
  match d with
  | [] => Raise KeyError
  | (k, vs) :: d' => if String.eqb k key then Ok vs else dict_item key d'
  end.

(** [l[0]] *)
Definition item0 (l : list string) : exc string :=
  match l with
  | [] => Raise IndexError
  | x :: _ => Ok x
  end.

Definition parse_qs {impl : UrllibImpl} (qs : string) : qdict :=
  fold_left (fun d nv => dict_append (fst nv) (snd nv) d) (parse_qsl qs) [].

End Urllib.


(* ------------------------------------------------------------------ *)
(** ** extractor/source_detector.py *)

(** [JobSource = Literal["greenhouse", "lever", "workday", "generic"]] *)
Inductive JobSource : Type := greenhouse | lever | workday | generic.

Module SourceDetector.
Import PyStr Regex Urllib.

Definition qmark_or_amp (c : ascii) : bool := Ascii.eqb c "?" || Ascii.eqb c "&".
Definition not_slash (c : ascii) : bool := negb (Ascii.eqb c "/").
(** [[a-f0-9-]] *)
Definition hex_or_dash (c : ascii) : bool :=
  between 97 (ord c) 102 || digit c || Ascii.eqb c "-".

Definition GREENHOUSE_PATTERNS : list regex :=
  [ Lit "boards.greenhouse.io";
    Lit "greenhouse.io/embed";
    Cat (Class qmark_or_amp) (Cat (Lit "gh_jid=") (Plus (Class digit)));
    Lit "job_app.greenhouse.io" ].

Definition LEVER_PATTERNS : list regex :=
  [ Lit "jobs.lever.co";
    Cat (Lit "lever.co/")
        (Cat (Plus (Class not_slash)) (Cat (Lit "/") (Plus (Class hex_or_dash)))) ].

Definition WORKDAY_PATTERNS : list regex :=
  [ Lit "myworkdayjobs.com";
    Cat (Lit ".workday.com/") (Cat (Star (Class dot)) (Lit "/job/"));
    Cat (Lit "wd") (Cat (Plus (Class digit)) (Lit ".myworkdaysite.com")) ].

(** [for pattern in PATTERNS: if re.search(pattern, url_lower): return True] *)
Definition any_pattern (patterns : list regex) (url_lower : string) : bool :=
  existsb (fun pattern => search pattern url_lower) patterns.

Section WithImpl.
Context {impl : UrllibImpl}.

Definition detect_greenhouse (url : string) : exc bool :=
  let url_lower := lower url in
  if any_pattern GREENHOUSE_PATTERNS url_lower then Ok true
  else
    do parsed <- urlparse url;
    let query_params := parse_qs (query parsed) in
    if dict_has "gh_jid" query_params then Ok true
    else Ok false.

Definition detect_lever (url : string) : bool :=
  let url_lower := lower url in
  any_pattern LEVER_PATTERNS url_lower.

Definition detect_workday (url : string) : bool :=
  let url_lower := lower url in
  any_pattern WORKDAY_PATTERNS url_lower.

Definition detect_source (url : string) : exc JobSource :=
  do is_greenhouse <- detect_greenhouse url;
  if is_greenhouse then Ok greenhouse
  else if detect_lever url then Ok lever
  else if detect_workday url then Ok workday
  else Ok generic.

End WithImpl.
End SourceDetector.


(* ------------------------------------------------------------------ *)
(** ** extractor/url_resolver.py *)

Module UrlResolver.
Import PyStr Regex Urllib.

(** [re.sub(r'/apply/?$', '', path)].  The pattern can match only at the end
    of [path], or just before a newline that ends it. *)
Fixpoint sub_apply (s : string) : string :=
  if String.eqb s "/apply" || String.eqb s "/apply/" then ""
  else if String.eqb s ("/apply" ++ LF) || String.eqb s ("/apply/" ++ LF) then LF
  else
    match s with
    | "" => ""
    | String c s' => String c (sub_apply s')
    end.

(** Truth value of an [Optional[str]] *)
Definition truthy_opt (o : option string) : bool :=
  match o with
  | Some s => negb (String.eqb s "")
  | None => false
  end.

Definition not_amp (c : ascii) : bool := negb (Ascii.eqb c "&").

Definition _extract_greenhouse_company (url : string) (query_params : qdict)
  : exc (option string) :=
  if dict_has "for" query_params then
    do vs <- dict_item "for" query_params;
    do v <- item0 vs;
    Ok (Some v)
  else
    match search_group ["boards.greenhouse.io/"] SourceDetector.not_slash url with
    | Some g => Ok (Some g)
    | None =>
        match search_group ["greenhouse.io/embed/job_board/js?for="] not_amp url with
        | Some g => Ok (Some g)
        | None => Ok None
        end
    end.

Section WithImpl.
Context {impl : UrllibImpl}.

Definition resolve_greenhouse_url (url : string) : exc (string * bool) :=
  do parsed <- urlparse url;
  let query_params := parse_qs (query parsed) in
  if contains "boards.greenhouse.io" (lower (netloc parsed)) then Ok (url, false)
  else if dict_has "gh_jid" query_params then
    do vs <- dict_item "gh_jid" query_params;
    do job_id <- item0 vs;
    do company_token <- _extract_greenhouse_company url query_params;
    if truthy_opt company_token then
      let canonical_url :=
        "https://boards.greenhouse.io/"
        ++ match company_token with Some t => t | None => "" end
        ++ "/jobs/" ++ job_id in
      Ok (canonical_url, true)
    else
      let canonical_url :=
        "https://boards.greenhouse.io/embed/job_app?token=" ++ job_id in
      Ok (canonical_url, true)
  else if dict_has "token" query_params && contains "greenhouse" (lower url) then
    do vs <- dict_item "token" query_params;
    do token <- item0 vs;
    let canonical_url :=
      "https://boards.greenhouse.io/embed/job_app?token=" ++ token in
    Ok (canonical_url, true)
  else
    match search_group ["/jobs/"; "/job/"] digit url with
    | Some job_id =>
        do company_token <- _extract_greenhouse_company url query_params;
        if truthy_opt company_token then
          let canonical_url :=
            "https://boards.greenhouse.io/"
            ++ match company_token with Some t => t | None => "" end
            ++ "/jobs/" ++ job_id in
          Ok (canonical_url, true)
        else Ok (url, false)
    | None => Ok (url, false)
    end.

Definition resolve_lever_url (url : string) : exc (string * bool) :=
  do parsed <- urlparse url;
  if negb (contains "lever.co" (lower (netloc parsed))) then Ok (url, false)
  else
    let clean_path := sub_apply (path parsed) in
    if negb (String.eqb clean_path (path parsed)) then
      let clean_url := scheme parsed ++ "://" ++ netloc parsed ++ clean_path in
      Ok (clean_url, true)
    else Ok (url, false).

Definition resolve_workday_url (url : string) : exc (string * bool) :=
  Ok (url, false).

Definition resolve_url (url : string) (source : JobSource) : exc (string * bool) :=
  match source with
  | greenhouse => resolve_greenhouse_url url
  | lever => resolve_lever_url url
  | workday => resolve_workday_url url
  | generic => Ok (url, false)
  end.

End WithImpl.
End UrlResolver.


(* ------------------------------------------------------------------ *)
(** ** A concrete [urllib] for running the model *)

Module AsciiUrllib.
Import PyStr.

Definition hex_value (c : ascii) : option nat :=
  let n := ord c in
  if between 48 n 57 then Some (n - 48)
  else if between 97 n 102 then Some (n - 87)
  else if between 65 n 70 then Some (n - 55)
  else None.

(** Percent-decoding of the escapes [%00] to [%7F]; other escapes and a [%]
    that starts no escape are kept as they are written.  On strings whose
    escapes are all below [%80] this is [urllib.parse.unquote]. *)
Fixpoint unquote_ascii (s : string) : string :=
  match s with
  | String "%" (String h (String l rest) as s') =>
      match hex_value h, hex_value l with
      | Some a, Some b =>
          if Nat.ltb (16 * a + b) 128
          then String (ascii_of_nat (16 * a + b)) (unquote_ascii rest)
          else String "%" (unquote_ascii s')
      | _, _ => String "%" (unquote_ascii s')
      end
  | String c s' => String c (unquote_ascii s')
  | "" => ""
  end.

(** CPython before 3.11.4: a location with both brackets passes. *)
#[export] Instance cpython : UrllibImpl := {|
  unquote := unquote_ascii;
  bracketed_netloc_ok := fun _ => true
|}.

End AsciiUrllib.


(* ------------------------------------------------------------------ *)
(** ** Python values read from JSON *)

(** What [json.loads] returns.  A [float] is kept as its [repr], the shortest
    text that reads back as the same number; a [dict] is the list of its
    items in insertion order. *)
#[warnings="-register-all"]
Inductive json : Type :=
| JNull
| JBool (b : bool)
| JInt (n : Z)
| JFloat (repr : string)
| JStr (s : string)
| JList (l : list json)
| JDict (d : list (string * json)).

Module PyVal.
Import PyStr.

Definition pydict : Type := list (string * json).

(** Truth value of an object *)
Definition truthy (v : json) : bool :=
  match v with
  | JNull => false
  | JBool b => b
  | JInt n => negb (n =? 0)%Z
  | JFloat r => negb (String.eqb r "0.0" || String.eqb r "-0.0")
  | JStr s => negb (String.eqb s "")
  | JList l => match l with [] => false | _ => true end
  | JDict d => match d with [] => false | _ => true end
  end.

(** [key in d] *)
Definition dict_in (key : string) (d : pydict) : bool :=
  existsb (fun kv => String.eqb (fst kv) key) d.

(** [d.get(key, default)] *)
Fixpoint get_default (key : string) (default : json) (d : pydict) : json :=
  match d with
  | [] => default
  | (k, v) :: d' => if String.eqb k key then v else get_default key default d'
  end.

(** [d.get(key)] *)
Definition get (key : string) (d : pydict) : json := get_default key JNull d.

(** [a or b] *)
Definition py_or (a b : json) : json := if truthy a then a else b.

Definition dquote : ascii := ascii_of_nat 34.
Definition hex_digit (n : nat) : ascii :=
  if Nat.ltb n 10 then ascii_of_nat (48 + n) else ascii_of_nat (87 + n).

(** [str.isprintable] on one character, for code points below 256 *)
Definition printable (c : ascii) : bool :=
  let n := ord c in
  negb (Nat.ltb n 32 || between 127 n 160 || Nat.eqb n 173).

(** [repr] of a [str] *)
Fixpoint repr_chars (quote : ascii) (s : string) : string :=
  match s with
  | "" => ""
  | String c s' =>
      (if Ascii.eqb c quote || Ascii.eqb c "\" then String "\" (String c "")
       else if Ascii.eqb c tab then "\t"
       else if Ascii.eqb c nl then "\n"
       else if Ascii.eqb c cr then "\r"
       else if printable c then String c ""
       else String "\" (String "x" (String (hex_digit (ord c / 16))
                                       (String (hex_digit (ord c mod 16)) ""))))
      ++ repr_chars quote s'
  end.

Definition repr_str (s : string) : string :=
  let quote := if has_char "'" s && negb (has_char dquote s) then dquote else "'"%char in
  String quote (repr_chars quote s) ++ String quote "".

Definition str_of_int (n : Z) : string := NilZero.string_of_int (Z.to_int n).

(** [repr(v)] *)
Fixpoint py_repr (v : json) : string :=
  match v with
  | JNull => "None"
  | JBool true => "True"
  | JBool false => "False"
  | JInt n => str_of_int n
  | JFloat r => r
  | JStr s => repr_str s
  | JList l => "[" ++ join ", " (map py_repr l) ++ "]"
  | JDict d =>
      "{" ++ join ", " (map (fun kv => match kv with
                                       | (k, x) => repr_str k ++ ": " ++ py_repr x
                                       end) d) ++ "}"
  end.

(** [str(v)] *)
Definition py_str (v : json) : string :=
  match v with
  | JStr s => s
  | _ => py_repr v
  end.

(** Digits in groups of three, as the [,] of a format specification asks:
    the grouped text and the number of digits. *)
Fixpoint group3 (digits : string) : string * nat :=
  match digits with
  | "" => ("", 0)
  | String c s' =>
      let '(g, n) := group3 s' in
      (String c (if Nat.eqb (n mod 3) 0 && Nat.ltb 0 n then "," ++ g else g), S n)
  end.

(** The sign, then the leading digits grouped, then the rest as it is. *)
Definition group_number (s : string) : string :=
  let '(sign, body) :=
    match s with
    | String "-" r => ("-", r)
    | _ => ("", s)
    end in
  let int_part := take_while Regex.digit body in
  sign ++ fst (group3 int_part) ++ drop (length int_part) body.

(** [format(v, ',')]: numbers only; a [str] raises [ValueError], [None], a
    [list] and a [dict] raise [TypeError]. *)
Definition format_comma (v : json) : exc string :=
  match v with
  | JInt n => Ok (group_number (str_of_int n))
  | JBool b => Ok (if b then "1" else "0")
  | JFloat r => Ok (group_number r)
  | JStr _ => Raise ValueError
  | JNull | JList _ | JDict _ => Raise TypeError
  end.

(** [sep.join(l)] on objects: every one must be a [str]. *)
Fixpoint join_values (l : list json) : exc (list string) :=
  match l with
  | [] => Ok []
  | JStr s :: r => do rs <- join_values r; Ok (s :: rs)
  | _ :: _ => Raise TypeError
  end.

Definition py_join (sep : string) (l : list json) : exc string :=
  do ss <- join_values l; Ok (join sep ss).

(** [s in t] for a [str] s: a substring of a [str], an element of a [list],
    a key of a [dict]; the other objects are not containers. *)
Definition str_in (s : string) (t : json) : exc bool :=
  match t with
  | JStr x => Ok (contains s x)
  | JList l =>
      Ok (existsb (fun e => match e with JStr x => String.eqb x s | _ => false end) l)
  | JDict d => Ok (dict_in s d)
  | _ => Raise TypeError
  end.

(** [for item in v]: the items that the loop visits. *)
Fixpoint chars_of (s : string) : list json :=
  match s with
  | "" => []
  | String c s' => JStr (String c "") :: chars_of s'
  end.

Definition iterate (v : json) : exc (list json) :=
  match v with
  | JList l => Ok l
  | JStr s => Ok (chars_of s)
  | JDict d => Ok (map (fun kv => JStr (fst kv)) d)
  | _ => Raise TypeError
  end.

End PyVal.


(* ------------------------------------------------------------------ *)
(** ** extractor/html_parser.py *)

(** What the parser takes from its libraries.  [ld_json_strings html] is
    [BeautifulSoup(html, 'html.parser')] followed by
    [soup.find_all('script', type='application/ld+json')]: the [.string] of
    every such tag, in document order ([None] when the tag has no single
    text); BeautifulSoup raises [ParserRejectedMarkup] on markup that the
    parser rejects.  [json.loads] raises [JSONDecodeError] on text that is
    not JSON, and can raise other exceptions ([ValueError] on a number with
    too many digits, [RecursionError] on nesting too deep). *)
Class HtmlImpl : Type := {
  ld_json_strings : string -> exc (list (option string));
  json_loads : string -> exc json
}.

Module HtmlParser.
Import PyStr PyVal.

(** The record that [_normalize_job_posting] returns: a [dict] from field
    name to value. *)
Definition posting : Type := list (string * json).

(** [any(s in t for t in ts)]: the first [True] ends it, and so does the
    first [t] that is no container. *)
Fixpoint any_contains (s : string) (ts : list json) : exc bool :=
  match ts with
  | [] => Ok false
  | t :: rest =>
      do b <- str_in s t;
      if b then Ok true else any_contains s rest
  end.

Definition _is_job_posting (data : json) : exc bool :=
  match data with
  | JDict d =>
      let schema_type := get_default "@type" (JStr "") d in
      match schema_type with
      | JStr s => Ok (contains "JobPosting" s)
      | JList ts => any_contains "JobPosting" ts
      | _ => Ok false
      end
  | _ => Ok false
  end.

(** The loop over the sub-keys of [_extract_value]: [None] when the [dict]
    has none of them. *)
Fixpoint first_sub_key (sub_keys : list string) (value : pydict) : option string :=
  match sub_keys with
  | [] => None
  | sub_key :: rest =>
      if dict_in sub_key value then Some (strip (py_str (get sub_key value)))
      else first_sub_key rest value
  end.

Fixpoint _extract_value (data : pydict) (keys : list string) : json :=
  match keys with
  | [] => JNull
  | key :: rest =>
      let value := get key data in
      if truthy value then
        match value with
        | JStr s => JStr (strip s)
        | JDict d =>
            match first_sub_key ["@value"; "name"; "value"] d with
            | Some s => JStr s
            | None => _extract_value data rest
            end
        | JList l => JStr (join ", " (map py_str (filter truthy l)))
        | _ => _extract_value data rest
        end
      else _extract_value data rest
  end.

Definition _extract_company (data : pydict) : json :=
  let org := get "hiringOrganization" data in
  if negb (truthy org) then JNull
  else
    match org with
    | JStr _ => org
    | JDict d => py_or (get "name" d) (get "legalName" d)
    | _ => JNull
    end.

Definition address_keys : list string :=
  [ "streetAddress"; "addressLocality"; "addressRegion"; "postalCode";
    "addressCountry" ].

(** The loop of [_parse_location_object] over the parts of an address. *)
Definition address_part (address : pydict) (key : string) : list string :=
  let val := get key address in
  if truthy val then
    let val :=
      match val with
      | JDict d => get_default "name" (JStr (py_str val)) d
      | _ => val
      end in
    [py_str val]
  else [].

Definition _parse_location_object (loc : json) : json :=
  match loc with
  | JDict d =>
      let address := get "address" d in
      let by_name := get "name" d in
      if truthy address then
        match address with
        | JStr _ => address
        | JDict a =>
            match flat_map (address_part a) address_keys with
            | [] => JNull
            | parts => JStr (join ", " parts)
            end
        | _ => by_name
        end
      else by_name
  | _ => if truthy loc then JStr (py_str loc) else JNull
  end.

Definition _extract_location (data : pydict) : exc json :=
  let location := get "jobLocation" data in
  if negb (truthy location) then Ok JNull
  else
    match location with
    | JStr _ => Ok location
    | JList l =>
        match filter truthy (map _parse_location_object l) with
        | [] => Ok JNull
        | locations => do s <- py_join "; " locations; Ok (JStr s)
        end
    | JDict _ => Ok (_parse_location_object location)
    | _ => Ok JNull
    end.

Definition _extract_salary (data : pydict) : exc json :=
  let salary := py_or (get "baseSalary" data) (get "estimatedSalary" data) in
  if negb (truthy salary) then Ok JNull
  else
    match salary with
    | JStr _ => Ok salary
    | JDict d =>
        let value := get "value" d in
        let currency := get_default "currency" (JStr "USD") d in
        match value with
        | JDict v =>
            let min_val := get "minValue" v in
            let max_val := get "maxValue" v in
            let unit := get_default "unitText" (JStr "YEAR") v in
            if truthy min_val && truthy max_val then
              do lo <- format_comma min_val;
              do hi <- format_comma max_val;
              Ok (JStr (py_str currency ++ " " ++ lo ++ " - " ++ hi
                        ++ " per " ++ py_str unit))
            else if truthy min_val then
              do lo <- format_comma min_val;
              Ok (JStr (py_str currency ++ " " ++ lo ++ "+ per " ++ py_str unit))
            else Ok JNull
        | _ =>
            if truthy value then Ok (JStr (py_str currency ++ " " ++ py_str value))
            else Ok JNull
        end
    | _ => Ok JNull
    end.

Definition _extract_skills (data : pydict) : json :=
  let skills := py_or (get "skills" data) (get "qualifications" data) in
  if negb (truthy skills) then JList []
  else
    match skills with
    | JStr _ => JList [skills]
    | JList l => JList (map (fun s => JStr (py_str s)) (filter truthy l))
    | _ => JList []
    end.

Definition _normalize_job_posting (data : pydict) : exc posting :=
  let title := _extract_value data ["title"; "name"] in
  let description := _extract_value data ["description"] in
  let company := _extract_company data in
  do location <- _extract_location data;
  let employment_type := _extract_value data ["employmentType"] in
  let date_posted := _extract_value data ["datePosted"] in
  let valid_through := _extract_value data ["validThrough"] in
  do salary <- _extract_salary data;
  let experience := _extract_value data ["experienceRequirements"] in
  let education := _extract_value data ["educationRequirements"] in
  let skills := _extract_skills data in
  let industry := _extract_value data ["industry"] in
  let normalized :=
    [ ("title", title);
      ("description", description);
      ("company", company);
      ("location", location);
      ("employment_type", employment_type);
      ("date_posted", date_posted);
      ("valid_through", valid_through);
      ("salary", salary);
      ("experience", experience);
      ("education", education);
      ("skills", skills);
      ("industry", industry) ] in
  Ok (filter (fun kv => truthy (snd kv)) normalized).

(** [for item in items: if _is_job_posting(item): return _normalize_job_posting(item)]:
    [Ok (Some r)] when the loop returns [r], [Ok None] when it ends. *)
Fixpoint scan_items (items : list json) : exc (option posting) :=
  match items with
  | [] => Ok None
  | item :: rest =>
      do found <- _is_job_posting item;
      if found then
        match item with
        | JDict d => do r <- _normalize_job_posting d; Ok (Some r)
        | _ => Raise AttributeError (* [data.get] on what is no [dict] *)
        end
      else scan_items rest
  end.

(** What the body of the [try] does with the parsed [data]. *)
Definition scan_data (data : json) : exc (option posting) :=
  match data with
  | JList items => scan_items items
  | JDict d =>
      do found <- _is_job_posting data;
      if found then do r <- _normalize_job_posting d; Ok (Some r)
      else if dict_in "@graph" d then
        do items <- iterate (get "@graph" d);
        scan_items items
      else Ok None
  | _ => Ok None
  end.

Section WithImpl.
Context {impl : HtmlImpl}.

(** The body of the [try] for one script tag. *)
Definition scan_script (content : option string) : exc (option posting) :=
  match content with
  | None => Ok None
  | Some "" => Ok None
  | Some text => do data <- json_loads text; scan_data data
  end.

(** The loop over the script tags: [return] leaves it, [continue] and both
    [except] clauses go on with the next tag. *)
Fixpoint scan_scripts (script_tags : list (option string)) : exc (option posting) :=
  match script_tags with
  | [] => Ok None
  | script :: rest =>
      match scan_script script with
      | Ok (Some r) => Ok (Some r)
      | Ok None => scan_scripts rest
      | Raise _ => scan_scripts rest
      end
  end.

(** The parse of the page comes before the loop and outside its [try]. *)
Definition extract_schema_job_posting (html : string) : exc (option posting) :=
  do script_tags <- ld_json_strings html;
  scan_scripts script_tags.

End WithImpl.

(** *** The claims' words *)

(** The [@type] of [item] equals or contains "JobPosting", the type being a
    string or an array of strings. *)
Definition type_contains_job_posting (item : json) : bool :=
  match item with
  | JDict d =>
      match get "@type" d with
      | JStr s => contains "JobPosting" s
      | JList ts =>
          existsb (fun t => match t with
                            | JStr s => contains "JobPosting" s
                            | _ => false
                            end) ts
      | _ => false
      end
  | _ => false
  end.

(** The items of a block, in document order: the elements of an array; for an
    object, the object and then the elements of its [@graph] array. *)
Definition block_items (data : json) : list json :=
  match data with
  | JList items => items
  | JDict d =>
      data :: match get "@graph" d with
              | JList items => items
              | _ => []
              end
  | _ => []
  end.

(** The block of a script tag: its text parsed as JSON, or none when the tag
    has no text or the text does not parse. *)
Definition parsed_block {impl : HtmlImpl} (content : option string) : list json :=
  match content with
  | None => []
  | Some "" => []
  | Some text =>
      match json_loads text with
      | Ok data => [data]
      | Raise _ => []
      end
  end.

(** The blocks of a page that parse as JSON, in document order; a page that
    the HTML parser rejects has none. *)
Definition parsed_blocks {impl : HtmlImpl} (html : string) : list json :=
  match ld_json_strings html with
  | Ok script_tags => flat_map parsed_block script_tags
  | Raise _ => []
  end.

(** The first item, in document order, whose [@type] contains "JobPosting". *)
Definition first_job_posting (blocks : list json) : option json :=
  find type_contains_job_posting (flat_map block_items blocks).

(** The [@type] of [item] is absent, or a string, or an array of strings, or
    no array at all. *)
Definition type_is_plain (item : json) : bool :=
  match item with
  | JDict d =>
      match get "@type" d with
      | JList ts => List.forallb (fun t => match t with JStr _ => true | _ => false end) ts
      | _ => true
      end
  | _ => true
  end.

End HtmlParser.

(** *** Pages for running the model *)

(** The double quote, as a text. *)
Definition dq : string := String PyVal.dquote "".

(** [<script type="application/ld+json">text</script>] *)
Definition script_tag (text : string) : string :=
  "<script type=" ++ dq ++ "application/ld+json" ++ dq ++ ">" ++ text ++ "</script>".

(** The page made of the scripts with these texts. *)
Definition html_of (texts : list string) : string :=
  "<html>" ++ String.concat "" (map script_tag texts) ++ "</html>".

(** What the libraries do on that page: BeautifulSoup finds its scripts, in
    order, each with its text ([None] for an empty script), and [json.loads]
    returns the value listed for a text, or raises [JSONDecodeError] if none
    is listed. *)
Definition page (texts : list string) (values : list (string * json)) : HtmlImpl := {|
  ld_json_strings := fun html =>
    if String.eqb html (html_of texts)
    then Ok (map (fun text => if String.eqb text "" then None else Some text) texts)
    else Ok [];
  json_loads := fun text =>
    match find (fun kv => String.eqb (fst kv) text) values with
    | Some kv => Ok (snd kv)
    | None => Raise JSONDecodeError
    end
|}.


(* ------------------------------------------------------------------ *)
(** ** Notions that the properties are stated with *)

Module Notions.
Import PyStr ContentCleaner Regex Urllib UrlResolver PyVal HtmlParser.

(** *** Regular expressions *)

(** The strings that a pattern matches in full. *)
Inductive matches : regex -> string -> Prop :=
| m_eps : matches Eps ""
| m_class p c : p c = true -> matches (Class p) (String c "")
| m_cat r1 r2 s1 s2 :
    matches r1 s1 -> matches r2 s2 -> matches (Cat r1 r2) (s1 ++ s2)
| m_alt_l r1 r2 s : matches r1 s -> matches (Alt r1 r2) s
| m_alt_r r1 r2 s : matches r2 s -> matches (Alt r1 r2) s
| m_star_nil r : matches (Star r) ""
| m_star_app r s1 s2 :
    matches r s1 -> matches (Star r) s2 -> matches (Star r) (s1 ++ s2).

(** *** Cleaned text *)

(** A passage of 500 characters that names responsibilities and requirements. *)
Definition passage_500 : string :=
  "Responsibilities of the role and REQUIREMENTS for it. "
  ++ repeat_char "x" 446.

(** Every line of [s] holds a character that is no white space; [ink] says
    that the line read so far does. *)
Fixpoint lines_ink_aux (ink : bool) (s : string) : bool :=
  match s with
  | "" => ink
  | String c s' =>
      if Ascii.eqb c nl then ink && lines_ink_aux false s'
      else lines_ink_aux (ink || negb (isspace c)) s'
  end.

Definition lines_ink (s : string) : bool := lines_ink_aux false s.

(** The line holds a character that is no white space. *)
Definition has_ink (line : string) : bool := negb (PyStr.forallb isspace line).

(** *** URLs *)

(** The text that [urlsplit] takes apart: leading control characters and
    spaces stripped, tabs and line ends removed. *)
Definition cleaned (url : string) : string :=
  remove_chars unsafe_url_byte (lstrip_by c0_control_or_space url).

(** A character that does not end the network location. *)
Definition no_delim (c : ascii) : bool := negb (netloc_delim c).

(** Nothing, or a text that starts with one of [/?#]. *)
Definition starts_delim (tail : string) : Prop :=
  tail = "" \/ exists c t, tail = String c t /\ netloc_delim c = true.

(** The part after a separator, empty when the separator is absent. *)
Definition or_empty (o : option string) : string :=
  match o with
  | Some s => s
  | None => ""
  end.

(** The text that [urlsplit] takes for the network location: what follows
    the two slashes after the scheme, up to the first of [/?#]. *)
Definition netloc_text (url : string) : option string :=
  let '(_, rest) := split_scheme (cleaned url) in
  if startswith "//" rest then Some (fst (_splitnetloc (drop 2 rest))) else None.

(** Every key of the dictionary has at least one value. *)
Definition nonempty_values (d : qdict) : Prop :=
  forall k vs, In (k, vs) d -> vs <> [].

(** How every URL that the Greenhouse resolver builds starts. *)
Definition canonical_prefix : string := "https://boards.greenhouse.io/".

(** A character that [urlsplit] does not remove. *)
Definition safe_byte (c : ascii) : bool := negb (unsafe_url_byte c).

Definition is_prefix (a b : string) : Prop := exists rest, b = a ++ rest.

(** *** JSON-LD blocks *)

(** A block or a tag that yields nothing: it ends without a [return], or it
    raises and the [except] clause goes on. *)
Definition yields_nothing (m : exc (option posting)) : Prop :=
  m = Ok None \/ exists e, m = Raise e.

(** In every block, every item has a plain [@type]. *)
Definition all_types_plain (blocks : list json) : Prop :=
  Forall (fun data => Forall (fun i => type_is_plain i = true) (block_items data))
         blocks.

(** *** The pages of the examples *)

(** [{"@type": "JobPosting"}] *)
Definition bare_text : string :=
  "{" ++ dq ++ "@type" ++ dq ++ ": " ++ dq ++ "JobPosting" ++ dq ++ "}".

Definition bare_item : json := JDict [("@type", JStr "JobPosting")].

(** [{"@type": "JobPosting", "baseSalary": {"value": {"minValue": "50000"}}}] *)
Definition salary_text : string :=
  "{" ++ dq ++ "@type" ++ dq ++ ": " ++ dq ++ "JobPosting" ++ dq ++ ", "
  ++ dq ++ "baseSalary" ++ dq ++ ": {" ++ dq ++ "value" ++ dq ++ ": {"
  ++ dq ++ "minValue" ++ dq ++ ": " ++ dq ++ "50000" ++ dq ++ "}}}".

Definition salary_item : json :=
  JDict [("@type", JStr "JobPosting");
         ("baseSalary", JDict [("value", JDict [("minValue", JStr "50000")])])].

(** [{"@type": "JobPosting", "title": "Second"}] *)
Definition second_text : string :=
  "{" ++ dq ++ "@type" ++ dq ++ ": " ++ dq ++ "JobPosting" ++ dq ++ ", "
  ++ dq ++ "title" ++ dq ++ ": " ++ dq ++ "Second" ++ dq ++ "}".

Definition second_item : json :=
  JDict [("@type", JStr "JobPosting"); ("title", JStr "Second")].

(** The array of the test suite:
    [[{"@type": "Organization", "name": "Acme"},
      {"@type": "JobPosting", "title": "Test Job", "description": "Test"}]] *)
Definition array_text : string :=
  "[{" ++ dq ++ "@type" ++ dq ++ ": " ++ dq ++ "Organization" ++ dq ++ ", "
  ++ dq ++ "name" ++ dq ++ ": " ++ dq ++ "Acme" ++ dq ++ "}, {"
  ++ dq ++ "@type" ++ dq ++ ": " ++ dq ++ "JobPosting" ++ dq ++ ", "
  ++ dq ++ "title" ++ dq ++ ": " ++ dq ++ "Test Job" ++ dq ++ ", "
  ++ dq ++ "description" ++ dq ++ ": " ++ dq ++ "Test" ++ dq ++ "}]".

Definition array_data : json :=
  JList [ JDict [("@type", JStr "Organization"); ("name", JStr "Acme")];
          JDict [("@type", JStr "JobPosting"); ("title", JStr "Test Job");
                 ("description", JStr "Test")] ].

(** The malformed text of the test suite: [{ "invalid json": }] *)
Definition malformed_text : string :=
  "{ " ++ dq ++ "invalid json" ++ dq ++ ": }".

(** A page with one script; a page whose first JobPosting cannot be
    normalised, followed by a second one; the page of the array; a page whose
    only script is not JSON; and one where a script that is not JSON comes
    before the array. *)
Definition bare_page : HtmlImpl := page [bare_text] [(bare_text, bare_item)].
Definition bare_html : string := html_of [bare_text].

Definition salary_page : HtmlImpl :=
  page [salary_text; second_text]
       [(salary_text, salary_item); (second_text, second_item)].
Definition salary_html : string := html_of [salary_text; second_text].

Definition array_page : HtmlImpl := page [array_text] [(array_text, array_data)].
Definition array_html : string := html_of [array_text].

Definition malformed_page : HtmlImpl := page [malformed_text] [].
Definition malformed_html : string := html_of [malformed_text].

Definition mixed_page : HtmlImpl :=
  page [malformed_text; array_text] [(array_text, array_data)].
Definition mixed_html : string := html_of [malformed_text; array_text].

(** The page of the array followed by the marked section [<![x[y]]>]:
    [html.parser] rejects the section, and BeautifulSoup raises
    [ParserRejectedMarkup] on the page. *)
Definition rejected_html : string := array_html ++ "<![x[y]]>".

Definition rejected_page : HtmlImpl := {|
  ld_json_strings := fun html =>
    if String.eqb html rejected_html then Raise ParserRejectedMarkup
    else ld_json_strings (HtmlImpl := array_page) html;
  json_loads := json_loads (HtmlImpl := array_page)
|}.

End Notions.


(* ------------------------------------------------------------------ *)
(** ** More operations on [str] *)

Module PyStrMore.
Import PyStr.

(** [s[:n]] *)
Fixpoint take (n : nat) (s : string) : string :=
  match n, s with
  | O, _ => ""
  | S _, "" => ""
  | S n', String c s' => String c (take n' s')
  end.

(** [s[-1]] when [s] is not empty *)
Fixpoint last_char (s : string) : option ascii :=
  match s with
  | "" => None
  | String c "" => Some c
  | String _ s' => last_char s'
  end.

(** [s.endswith(c)] for one character *)
Definition endswith_char (c : ascii) (s : string) : bool :=
  match last_char s with
  | Some a => Ascii.eqb a c
  | None => false
  end.

End PyStrMore.


(* ------------------------------------------------------------------ *)
(** ** extractor/url_resolver.py: [get_api_endpoint] *)

Module LeverApi.
Import PyStr PyStrMore Regex Urllib.

(** Where [$] matches: at the end of the text, or before a line end that is
    its last character. *)
Definition at_end (s : string) : bool := String.eqb s "" || String.eqb s LF.

(** A match of [/([a-f0-9-]{36})/?$] at the start of [s]: the text of the
    group.  The optional slash is tried first, then its absence. *)
Definition job_id_here (s : string) : option string :=
  if startswith "/" s then
    let r := drop 1 s in
    let g := take 36 r in
    let rest := drop 36 r in
    if Nat.eqb (length g) 36 && PyStr.forallb SourceDetector.hex_or_dash g
       && ((startswith "/" rest && at_end (drop 1 rest)) || at_end rest)
    then Some g
    else None
  else None.

(** [re.search(r'/([a-f0-9-]{36})/?$', s)]: the group of the leftmost match. *)
Fixpoint search_job_id (s : string) : option string :=
  match job_id_here s with
  | Some g => Some g
  | None =>
      match s with
      | "" => None
      | String _ s' => search_job_id s'
      end
  end.

Definition api_prefix : string := "https://api.lever.co/v0/postings/".

Section WithImpl.
Context {impl : UrllibImpl}.

Definition get_api_endpoint (url : string) (source : JobSource) : exc (option string) :=
  match source with
  | lever =>
      do parsed <- urlparse url;
      match search_job_id (path parsed) with
      | Some job_id =>
          match search_group ["lever.co/"] SourceDetector.not_slash url with
          | Some company => Ok (Some (api_prefix ++ company ++ "/" ++ job_id))
          | None => Ok None
          end
      | None => Ok None
      end
  | _ => Ok None
  end.

End WithImpl.
End LeverApi.


(* ------------------------------------------------------------------ *)
(** ** extractor/fetcher.py: [is_valid_job_url] *)

Module Fetcher.
Import PyStr.

Definition known_job_sites : list string :=
  [ "linkedin.com"; "indeed.com"; "glassdoor.com"; "monster.com";
    "ziprecruiter.com"; "dice.com"; "careerbuilder.com"; "lever.co";
    "greenhouse.io"; "workday.com"; "smartrecruiters.com"; "jobs.lever.co";
    "boards.greenhouse.io"; "angel.co"; "wellfound.com"; "simplyhired.com";
    "hired.com"; "builtin.com"; "theladders.com"; "flexjobs.com" ].

(** [any(site in url_lower for site in known_job_sites)]: it chooses between
    two log lines and has no part in the result. *)
Definition is_known_site (url : string) : bool :=
  let url_lower := lower url in
  existsb (fun site => contains site url_lower) known_job_sites.

Definition is_valid_job_url (url : string) : bool * string :=
  if String.eqb url "" || String.eqb (strip url) "" then
    (false, "URL cannot be empty")
  else
    let url := strip url in
    if negb (has_char "." url) then (false, "Invalid URL format")
    else
      let _ := is_known_site url in
      (true, "").

End Fetcher.


(* ------------------------------------------------------------------ *)
(** ** Patterns compiled with [re.IGNORECASE] *)

Module IgnoreCase.
Import PyStr Regex.

(** A character of a pattern that is no capital letter, read with
    [re.IGNORECASE]: it matches the characters whose lower-case form it is. *)
Definition ci (a : ascii) (c : ascii) : bool := Ascii.eqb (lower_char c) a.

(** A literal text of such a pattern. *)
Fixpoint LitI (s : string) : regex :=
  match s with
  | "" => Eps
  | String a s' => Cat (Class (ci a)) (LitI s')
  end.

(** The parts of a pattern, one after the other. *)
Definition seq (rs : list regex) : regex := fold_right Cat Eps rs.

(** ['|'.join(patterns)] *)
Definition alternation (rs : list regex) : regex := fold_right Alt Void rs.

(** [(a|b|...)] *)
Definition one_of (words : list string) : regex := alternation (map LitI words).

(** [\s+] and [\s*] *)
Definition spaces1 : regex := Plus (Class isspace).
Definition spaces0 : regex := Star (Class isspace).

(** [[-_]] *)
Definition dash_or_underscore (c : ascii) : bool := Ascii.eqb c "-" || Ascii.eqb c "_".

End IgnoreCase.


(* ------------------------------------------------------------------ *)
(** ** extractor/content_cleaner.py: boilerplate and legal text *)

Module ContentCleanerRest.
Import PyStr PyStrMore Regex IgnoreCase.

Definition sep : regex := Opt (Class dash_or_underscore).

Definition BOILERPLATE_PATTERNS : list regex :=
  [ seq [LitI "nav"; Opt (LitI "igation"); sep];
    seq [LitI "header"; sep];
    seq [LitI "footer"; sep];
    seq [LitI "sidebar"; sep];
    seq [LitI "menu"; sep];
    seq [LitI "cookie"; sep];
    seq [LitI "banner"; sep];
    seq [LitI "popup"; sep];
    seq [LitI "modal"; sep];
    seq [LitI "overlay"; sep];
    seq [LitI "advertisement"; sep];
    seq [LitI "ad"; Opt (LitI "s"); sep];
    seq [LitI "promo"; Opt (LitI "tion"); sep];
    seq [LitI "social"; sep; Opt (one_of ["share"; "media"; "links"])];
    seq [LitI "share"; sep; Opt (one_of ["button"; "link"]); Opt (LitI "s")];
    seq [LitI "related"; sep; Opt (one_of ["jobs"; "posts"; "articles"])];
    seq [LitI "similar"; sep; Opt (one_of ["jobs"; "positions"])];
    seq [LitI "recommend"; Opt (one_of ["ed"; "ations"]); sep];
    seq [LitI "newsletter"; sep];
    seq [LitI "subscribe"; sep];
    seq [LitI "sign"; sep; LitI "up"];
    seq [LitI "login"; sep];
    seq [LitI "register"; sep];
    seq [LitI "legal"; sep];
    seq [LitI "privacy"; sep];
    seq [LitI "terms"; sep];
    seq [LitI "disclaimer"; sep];
    seq [LitI "copyright"; sep];
    seq [LitI "breadcrumb"; sep];
    seq [LitI "pagination"; sep];
    seq [LitI "search"; sep; Opt (one_of ["box"; "form"; "bar"])] ].

Definition BOILERPLATE_REGEX : regex := alternation BOILERPLATE_PATTERNS.

(** The test of [_remove_boilerplate_elements] on one element, given the
    classes joined by spaces, the [id] and the [role] of the element:
      [combined = f"{class_str} {elem_id} {role}"]
      [if BOILERPLATE_REGEX.search(combined):] *)
Definition combined (class_str elem_id role : string) : string :=
  class_str ++ " " ++ elem_id ++ " " ++ role.

Definition is_boilerplate (class_str elem_id role : string) : bool :=
  search BOILERPLATE_REGEX (combined class_str elem_id role).

(** The copyright sign U+00A9 *)
Definition copyright_sign (c : ascii) : bool := Nat.eqb (ord c) 169.

Definition LEGAL_TEXT_PATTERNS : list regex :=
  [ seq [LitI "equal"; spaces1; LitI "opportunity"; spaces1; LitI "employer"];
    seq [LitI "we"; spaces1; LitI "are"; spaces1; LitI "a"; Opt (LitI "n"); spaces1;
         LitI "e"; Opt (LitI "."); LitI "o"; Opt (LitI "."); LitI "e"; Opt (LitI ".")];
    seq [LitI "affirmative"; spaces1; LitI "action"];
    Alt (seq [LitI "terms"; spaces1; Opt (seq [LitI "of"; spaces1]);
              one_of ["use"; "service"]])
        (seq [LitI "privacy"; spaces1; LitI "policy"]);
    seq [Class copyright_sign; spaces0;
         Class digit; Class digit; Class digit; Class digit];
    seq [LitI "all"; spaces1; LitI "rights"; spaces1; LitI "reserved"];
    seq [LitI "cookie"; spaces1; one_of ["policy"; "settings"; "preferences"]];
    seq [LitI "by"; spaces1; one_of ["clicking"; "applying"; "submitting"]];
    seq [LitI "we"; spaces1; LitI "use"; spaces1; LitI "cookies"];
    seq [LitI "this"; spaces1; LitI "site"; spaces1; LitI "uses"; spaces1;
         LitI "cookies"] ].

Definition LEGAL_REGEX : regex := alternation LEGAL_TEXT_PATTERNS.

(** The body of the loop of [_remove_legal_sections]: the list
    [cleaned_lines] and the flag [skip_until_section] after one more line. *)
Definition legal_step (state : list string * bool) (line : string)
  : list string * bool :=
  let '(cleaned_lines, skip_until_section) := state in
  let line_stripped := strip line in
  if String.eqb line_stripped "" then
    (* [if cleaned_lines and cleaned_lines[-1] != '': cleaned_lines.append('')] *)
    match cleaned_lines with
    | [] => (cleaned_lines, skip_until_section)
    | _ :: _ =>
        if negb (String.eqb (last cleaned_lines "") "")
        then ((cleaned_lines ++ [""])%list, skip_until_section)
        else (cleaned_lines, skip_until_section)
    end
  else if search LEGAL_REGEX line_stripped then
    if Nat.ltb (length line_stripped) 100 then (cleaned_lines, true)
    else (cleaned_lines, skip_until_section)
  else
    let skip_until_section :=
      if skip_until_section && Nat.ltb (length line_stripped) 60
         && endswith_char ":" line_stripped
      then false else skip_until_section in
    if negb skip_until_section
    then ((cleaned_lines ++ [line_stripped])%list, skip_until_section)
    else (cleaned_lines, skip_until_section).

(** The list [cleaned_lines] at the end of the loop over [lines]. *)
Definition legal_lines (lines : list string) : list string :=
  fst (fold_left legal_step lines ([], false)).

Definition _remove_legal_sections (text : string) : string :=
  let lines := split nl text in
  join LF (legal_lines lines).

End ContentCleanerRest.


(* ------------------------------------------------------------------ *)
(** ** extractor/html_parser.py: [parse_html] *)

(** The ways in which [parse_html] and [_find_main_content] ask BeautifulSoup
    for an element: by tag name, by the [role] attribute, by a pattern on the
    class, on the [id] or on the [data-testid] attribute, and the [meta] tag
    named [description]. *)
Inductive selector : Type :=
| ByName (name : string)
| ByRole (role : string)
| ByClass (pattern : Regex.regex)
| ById (pattern : Regex.regex)
| ByTestId (pattern : Regex.regex)
| MetaDescription.

(** What the parser takes from BeautifulSoup: the tags of a page, the first
    tag that a selector finds ([soup.find]), and for a tag its text
    ([get_text()]), its text with the pieces stripped and joined by line ends
    ([get_text(separator='\n', strip=True)]) and its [content] attribute
    ([get('content', '')]). *)
Class SoupImpl : Type := {
  Tag : Type;
  soup_find : string -> selector -> option Tag;
  get_text : Tag -> string;
  get_text_lines : Tag -> string;
  get_content : Tag -> string
}.

Module HtmlText.
Import PyStr ContentCleaner Regex IgnoreCase.

Record Parsed : Type := mkParsed {
  page_title : option string;
  meta_description : option string;
  content : string;
  html_length : nat
}.

(** [job[-_]?description] and the like, compiled with [re.I] *)
Definition two_words (a b : string) : regex :=
  seq [LitI a; Opt (Class dash_or_underscore); LitI b].

(** The selectors of [_find_main_content], in the order in which they are
    tried. *)
Definition selectors : list selector :=
  [ ByName "main";
    ByName "article";
    ByRole "main";
    ByClass (two_words "job" "description");
    ByClass (two_words "job" "details");
    ByClass (two_words "job" "content");
    ByClass (two_words "posting" "content");
    ByClass (two_words "description" "content");
    ById (two_words "job" "description");
    ById (two_words "job" "details");
    ById (two_words "job" "content");
    ByTestId (LitI "job") ].

Section WithImpl.
Context {impl : SoupImpl}.

(** [for selector in selectors:] the first element that [soup.find] returns
    for a selector is the result. *)
Fixpoint first_found (html : string) (sels : list selector) : option Tag :=
  match sels with
  | [] => None
  | sel :: rest =>
      match soup_find html sel with
      | Some element => Some element
      | None => first_found html rest
      end
  end.

Definition _find_main_content (html : string) : option Tag :=
  first_found html selectors.

(** A tag is never false, so [if not element] asks for [None]. *)
Definition _extract_text_from_element (element : option Tag) : string :=
  match element with
  | None => ""
  | Some e =>
      let text := get_text_lines e in
      let text := sub_newline_runs text in
      let text := sub_blank_runs text in
      strip text
  end.

Definition parse_html (html : string) : Parsed :=
  let title_tag := soup_find html (ByName "title") in
  let page_title :=
    match title_tag with
    | Some t => Some (strip (get_text t))
    | None => None
    end in
  let meta_desc := soup_find html MetaDescription in
  let meta_description :=
    match meta_desc with
    | Some m => Some (strip (get_content m))
    | None => None
    end in
  let main_content := _find_main_content html in
  let content_text :=
    match main_content with
    | Some _ => _extract_text_from_element main_content
    | None =>
        let body := soup_find html (ByName "body") in
        match body with
        | Some _ => _extract_text_from_element body
        | None => ""
        end
    end in
  mkParsed page_title meta_description content_text (length html).

End WithImpl.
End HtmlText.


(* ------------------------------------------------------------------ *)
(** ** Patterns with word boundaries, and [re.findall] *)

Module Findall.
Import PyStr PyStrMore.

(** The class [\w] of [re] on [str] patterns, for code points below 256:
    the letters and digits of ASCII, the underscore, and the letters and
    numbers of Latin-1. *)
Definition is_word (c : ascii) : bool :=
  let n := ord c in
  between 48 n 57 || between 65 n 90 || Nat.eqb n 95 || between 97 n 122
  || Nat.eqb n 170 || Nat.eqb n 178 || Nat.eqb n 179 || Nat.eqb n 181
  || Nat.eqb n 185 || Nat.eqb n 186 || between 188 n 190
  || between 192 n 214 || between 216 n 246 || between 248 n 255.

(** The parts of the patterns of [tokenize_text]: one character of a class,
    [[cls]+], and [\b]. *)
Inductive atom : Type :=
| One (p : ascii -> bool)
| Many1 (p : ascii -> bool)
| Boundary.

(** [\b] between the character [prev] (none at the start of the text) and
    the text [s] that follows: exactly one side is a word character. *)
Definition boundary (prev : option ascii) (s : string) : bool :=
  xorb (match prev with
        | Some c => is_word c
        | None => false
        end)
       (match s with
        | String c _ => is_word c
        | "" => false
        end).

(** [[cls]+] followed by the rest [k] of the pattern: as many characters as
    possible are taken first, and one is given back at a time until the rest
    matches.  The result is the text left after the whole match. *)
Fixpoint many1 (p : ascii -> bool) (k : option ascii -> string -> option string)
    (s : string) : option string :=
  match s with
  | String c s' =>
      if p c then
        match many1 p k s' with
        | Some rest => Some rest
        | None => k (Some c) s'
        end
      else None
  | "" => None
  end.

(** A match of the pattern at the start of [s], the text before [s] ending
    with [prev]: the text left after the match. *)
Fixpoint run (pattern : list atom) (prev : option ascii) (s : string)
  : option string :=
  match pattern with
  | [] => Some s
  | One p :: rest =>
      match s with
      | String c s' => if p c then run rest (Some c) s' else None
      | "" => None
      end
  | Many1 p :: rest => many1 p (run rest) s
  | Boundary :: rest => if boundary prev s then run rest prev s else None
  end.

(** [re.findall(pattern, text)] for a pattern without groups that matches no
    empty text: the matches from left to right, each search starting where
    the match before ended.  [fuel] bounds the number of steps. *)
Fixpoint findall_from (fuel : nat) (pattern : list atom) (prev : option ascii)
    (s : string) : list string :=
  match fuel with
  | O => []
  | S fuel' =>
      match run pattern prev s with
      | Some rest =>
          let m := take (length s - length rest) s in
          match last_char m with
          | Some c => m :: findall_from fuel' pattern (Some c) rest
          | None =>
              match s with
              | "" => []
              | String c s' => findall_from fuel' pattern (Some c) s'
              end
          end
      | None =>
          match s with
          | "" => []
          | String c s' => findall_from fuel' pattern (Some c) s'
          end
      end
  end.

Definition findall (pattern : list atom) (text : string) : list string :=
  findall_from (S (length text)) pattern None text.

End Findall.


(* ------------------------------------------------------------------ *)
(** ** utils/keyword_ranker.py *)

Module KeywordRanker.
Import PyStr PyStrMore Findall PyVal.

Definition STOP_WORDS : list string :=
  [ "the"; "a"; "an"; "and"; "or"; "but"; "in"; "on"; "at"; "to"; "for";
    "of"; "with"; "by"; "from"; "as"; "is"; "are"; "was"; "were"; "be";
    "been"; "being"; "have"; "has"; "had"; "do"; "does"; "did"; "will";
    "would"; "could"; "should"; "may"; "might"; "must"; "shall"; "can";
    "need"; "dare"; "ought"; "used"; "this"; "that"; "these"; "those"; "i";
    "you"; "he"; "she"; "it"; "we"; "they"; "what"; "which"; "who"; "whom";
    "whose"; "where"; "when"; "why"; "how"; "all"; "each"; "every"; "both";
    "few"; "more"; "most"; "other"; "some"; "such"; "no"; "nor"; "not";
    "only"; "own"; "same"; "so"; "than"; "too"; "very"; "just"; "also";
    "now"; "here"; "there"; "then"; "if"; "else"; "about"; "into"; "through";
    "during"; "before"; "after"; "above"; "below"; "between"; "under";
    "over"; "again"; "further"; "once"; "any"; "our"; "your"; "their"; "its";
    "my"; "his"; "her"; "up"; "down"; "out"; "off"; "while"; "because";
    "until"; "unless"; "although"; "though"; "since"; "whether"; "either";
    "neither"; "yet"; "still"; "already"; "even"; "ever"; "never"; "always";
    "often"; "sometimes"; "usually"; "really"; "quite"; "rather"; "well";
    "back"; "way"; "work"; "working"; "including"; "etc"; "e.g"; "i.e"; "ie";
    "eg"; "within"; "across"; "along"; "around"; "among"; "beside";
    "besides"; "beyond"; "upon"; "without"; "according"; "able"; "ability";
    "experience"; "required"; "requirements"; "role"; "position"; "job";
    "candidate"; "candidates"; "team"; "company"; "looking"; "join";
    "seeking"; "strong"; "excellent"; "good"; "great"; "proven"; "solid";
    "preferred"; "plus"; "ideal"; "minimum"; "years"; "year";
    "responsibilities"; "qualifications"; "skills"; "knowledge";
    "understanding"; "familiar"; "familiarity"; "proficiency"; "proficient" ].

Definition PRESERVE_TERMS : list string :=
  [ "python"; "java"; "javascript"; "typescript"; "react"; "angular"; "vue";
    "node"; "sql"; "nosql"; "mongodb"; "postgresql"; "mysql"; "redis";
    "elasticsearch"; "aws"; "azure"; "gcp"; "docker"; "kubernetes"; "ci/cd";
    "git"; "github"; "gitlab"; "api"; "rest"; "graphql"; "microservices";
    "agile"; "scrum"; "devops"; "mlops"; "machine learning"; "deep learning";
    "ai"; "nlp"; "computer vision"; "tensorflow"; "pytorch"; "keras";
    "pandas"; "numpy"; "scikit-learn"; "spark"; "hadoop"; "kafka"; "linux";
    "unix"; "bash"; "shell"; "powershell"; "terraform"; "ansible"; "jenkins";
    "html"; "css"; "sass"; "less"; "webpack"; "babel"; "npm"; "yarn";
    "maven"; "gradle"; "spring"; "django"; "flask"; "fastapi"; "express";
    "rails"; "laravel"; "dotnet"; "c#"; "c++"; "go"; "golang"; "rust";
    "scala"; "kotlin"; "swift"; "objective-c"; "r"; "matlab"; "julia"; "sas";
    "spss"; "tableau"; "power bi"; "looker"; "dbt"; "snowflake";
    "databricks"; "airflow"; "luigi"; "dask"; "ray"; "mlflow"; "kubeflow";
    "jira"; "confluence"; "slack"; "teams"; "figma"; "sketch"; "adobe";
    "photoshop"; "b2b"; "b2c"; "saas"; "paas"; "iaas"; "erp"; "crm"; "cms";
    "sdk"; "cli"; "oop"; "tdd"; "bdd"; "solid"; "dry"; "kiss"; "yagni";
    "mvc"; "mvvm"; "mvp"; "spa"; "pwa"; "seo"; "a/b"; "kpi"; "okr"; "roi";
    "etl"; "elt"; "olap"; "oltp"; "data warehouse" ].

(** [t in words] *)
Definition mem (t : string) (words : list string) : bool :=
  existsb (String.eqb t) words.

Record RankedKeyword : Type := mkRanked {
  keyword : string;
  frequency : Z;
  score : Z;
  is_from_llm : bool;
  is_repeated : bool
}.

(** *** [tokenize_text] *)

(** [[a-z]], [[\s-]] and [[a-z0-9+#/.]] *)
Definition az (c : ascii) : bool := between 97 (ord c) 122.
Definition space_or_dash (c : ascii) : bool := isspace c || Ascii.eqb c "-".
Definition term_char (c : ascii) : bool :=
  az c || between 48 (ord c) 57 || Ascii.eqb c "+" || Ascii.eqb c "#"
  || Ascii.eqb c "/" || Ascii.eqb c ".".

(** [\b[a-z]+[\s-][a-z]+[\s-][a-z]+\b] and [\b[a-z]+[\s-][a-z]+\b] *)
Definition multi_word_patterns : list (list atom) :=
  [ [Boundary; Many1 az; One space_or_dash; Many1 az; One space_or_dash;
     Many1 az; Boundary];
    [Boundary; Many1 az; One space_or_dash; Many1 az; Boundary] ].

(** [\b[a-z][a-z0-9+#/.]+\b] *)
Definition word_pattern : list atom :=
  [Boundary; One az; Many1 term_char; Boundary].

(** [m.replace('-', ' ')] *)
Fixpoint dash_to_space (m : string) : string :=
  match m with
  | "" => ""
  | String c m' => String (if Ascii.eqb c "-" then " "%char else c) (dash_to_space m')
  end.

Definition tokenize_text (text : string) : list string :=
  let text := lower text in
  let multi_words :=
    flat_map (fun pattern =>
                map (fun m => strip (dash_to_space m)) (findall pattern text))
             multi_word_patterns in
  let words := findall word_pattern text in
  (words ++ multi_words)%list.

(** *** [calculate_term_frequency] *)

(** A [Counter]: the terms in the order in which they were first counted,
    each with its count. *)
Definition counter : Type := list (string * Z).

(** [counts[t] += 1] *)
Fixpoint count_one (t : string) (counts : counter) : counter :=
  match counts with
  | [] => [(t, 1%Z)]
  | (k, n) :: rest =>
      if String.eqb k t then (k, (n + 1)%Z) :: rest
      else (k, n) :: count_one t rest
  end.

(** [Counter(tokens)] *)
Definition Counter (tokens : list string) : counter :=
  fold_left (fun counts t => count_one t counts) tokens [].

(** The test of the list comprehension:
      [(t not in STOP_WORDS or t in PRESERVE_TERMS) and len(t) > 2] *)
Definition counted (t : string) : bool :=
  (negb (mem t STOP_WORDS) || mem t PRESERVE_TERMS) && Nat.ltb 2 (length t).

Definition calculate_term_frequency (tokens : list string) : counter :=
  let filtered_tokens := filter counted tokens in
  Counter filtered_tokens.

(** *** [sorted] *)

(** [a < b] on [str]: by code points, a proper prefix first. *)
Definition str_lt (a b : string) : bool := String.ltb a b.

(** [a < b] on the keys [(-n, text)] of the two sorts. *)
Definition key_lt (a b : Z * string) : bool :=
  (fst a <? fst b)%Z || ((fst a =? fst b)%Z && str_lt (snd a) (snd b)).

Section Sorting.
Context {A : Type} (key : A -> Z * string).

(** Where a stable sort puts [x] in a sorted list: before the first element
    with a greater key. *)
Fixpoint insert_sorted (x : A) (l : list A) : list A :=
  match l with
  | [] => [x]
  | y :: rest =>
      if key_lt (key x) (key y) then x :: y :: rest
      else y :: insert_sorted x rest
  end.

(** [sorted(l, key=key)] *)
Definition sorted (l : list A) : list A :=
  fold_left (fun acc x => insert_sorted x acc) l [].

End Sorting.

(** *** [extract_keywords_from_text] *)

Definition default_min_frequency : Z := 1.

Definition extract_keywords_from_text (text : string) (min_frequency : Z)
  : list (string * Z) :=
  let tokens := tokenize_text text in
  let frequencies := calculate_term_frequency tokens in
  let keywords := filter (fun tf => (min_frequency <=? snd tf)%Z) frequencies in
  sorted (fun x => ((- snd x)%Z, fst x)) keywords.

(** *** [rank_keywords] *)

(** [freq_dict.get(keyword, 0)] *)
Fixpoint dict_get (keyword : string) (d : list (string * Z)) (default : Z) : Z :=
  match d with
  | [] => default
  | (k, v) :: rest => if String.eqb k keyword then v else dict_get keyword rest default
  end.

(** The elements of [set(l)], each once. *)
Fixpoint distinct (l : list string) : list string :=
  match l with
  | [] => []
  | x :: rest => if mem x rest then distinct rest else x :: distinct rest
  end.

(** The body of the loop over [all_keywords]: what is appended to [ranked]
    for one keyword. *)
Definition rank_one (freq_dict : list (string * Z)) (llm_set : list string)
    (keyword : string) : list RankedKeyword :=
  let frequency := dict_get keyword freq_dict 0%Z in
  let score := frequency in
  let is_from_llm := mem keyword llm_set in
  let score := if is_from_llm then (score + 2)%Z else score in
  let score := if mem keyword PRESERVE_TERMS then (score + 1)%Z else score in
  let score := if is_from_llm && (score <? 1)%Z then 1%Z else score in
  if (0 <? score)%Z
  then [mkRanked keyword frequency score is_from_llm (1 <? frequency)%Z]
  else [].

(** [l[:n]] for an [int] n *)
Definition slice_to (A : Type) (n : Z) (l : list A) : list A :=
  if (0 <=? n)%Z then firstn (Z.to_nat n) l
  else firstn (List.length l - Z.to_nat (- n)) l.
Arguments slice_to {A} n l.

Definition default_top_n : Z := 30.

(** [freq_dict], [llm_set] and the elements of [all_keywords] *)
Definition freq_dict_of (text : string) : list (string * Z) :=
  extract_keywords_from_text text default_min_frequency.

Definition llm_set_of (llm_keywords : list string) : list string :=
  let llm_keywords_lower := map (fun k => strip (lower k)) llm_keywords in
  distinct llm_keywords_lower.

(** [rank_keywords] when the loop [for keyword in all_keywords] visits the
    elements of the set in the order [order]. *)
Definition rank_keywords_in (order : list string) (text : string)
    (llm_keywords : list string) (top_n : Z) : list RankedKeyword :=
  let freq_dict := freq_dict_of text in
  let llm_set := llm_set_of llm_keywords in
  let ranked := flat_map (rank_one freq_dict llm_set) order in
  let ranked := sorted (fun x => ((- score x)%Z, keyword x)) ranked in
  slice_to top_n ranked.

(** One order of the elements of [set(freq_dict.keys()) | llm_set]: the keys
    of the dictionary, then the keywords of the LLM that are no key. *)
Definition all_keywords (text : string) (llm_keywords : list string) : list string :=
  let keys := map fst (freq_dict_of text) in
  (keys ++ filter (fun k => negb (mem k keys)) (llm_set_of llm_keywords))%list.

Definition rank_keywords (text : string) (llm_keywords : list string) (top_n : Z)
  : list RankedKeyword :=
  rank_keywords_in (all_keywords text llm_keywords) text llm_keywords top_n.

(** *** [format_keywords_for_display] *)

Record Display : Type := mkDisplay {
  high_priority : list string;
  medium_priority : list string;
  other : list string
}.

(** The multiplication sign U+00D7 *)
Definition times_sign : string := String (ascii_of_nat 215) "".

Definition display_text (kw : RankedKeyword) : string :=
  if is_repeated kw
  then keyword kw ++ " (" ++ times_sign ++ str_of_int (frequency kw) ++ ")"
  else keyword kw.

(** The body of the loop: the three lists after one more keyword. *)
Definition display_step (d : Display) (kw : RankedKeyword) : Display :=
  let display_text := display_text kw in
  if (3 <=? score kw)%Z || is_repeated kw then
    mkDisplay (high_priority d ++ [display_text]) (medium_priority d) (other d)
  else if (2 <=? score kw)%Z then
    mkDisplay (high_priority d) (medium_priority d ++ [display_text]) (other d)
  else
    mkDisplay (high_priority d) (medium_priority d) (other d ++ [display_text]).

Definition format_keywords_for_display (keywords : list RankedKeyword) : Display :=
  fold_left display_step keywords (mkDisplay [] [] []).

End KeywordRanker.



(* ------------------------------------------------------------------ *)
(** ** llm/prompts.py *)

Module Prompts.
Import PyStr PyStrMore.

(** The template of the user prompt; [{{] and [}}] stand for braces, and
    [{job_text}] is its one field. *)
Definition USER_PROMPT_TEMPLATE : string :=
  join LF
    [
      "Analyze this job posting and extract all CV-relevant information.";
      "";
      "Return ONLY valid JSON in this exact format:";
      "{{";
      "    " ++ dq ++ "job_title" ++ dq ++ ": " ++ dq ++ "string or null"
        ++ dq ++ ",";
      "    " ++ dq ++ "company" ++ dq ++ ": " ++ dq ++ "string or null" ++ dq
        ++ ",";
      "    " ++ dq ++ "job_summary" ++ dq ++ ": " ++ dq ++ "string" ++ dq
        ++ ",";
      "    " ++ dq ++ "responsibilities" ++ dq ++ ": [" ++ dq
        ++ "responsibility1" ++ dq ++ ", " ++ dq ++ "responsibility2" ++ dq
        ++ ", ...],";
      "    " ++ dq ++ "required_skills" ++ dq ++ ": {{";
      "        " ++ dq ++ "hard_skills" ++ dq ++ ": [" ++ dq ++ "skill1" ++ dq
        ++ ", " ++ dq ++ "skill2" ++ dq ++ ", ...],";
      "        " ++ dq ++ "soft_skills" ++ dq ++ ": [" ++ dq ++ "skill1" ++ dq
        ++ ", " ++ dq ++ "skill2" ++ dq ++ ", ...]";
      "    }},";
      "    " ++ dq ++ "ats_keywords" ++ dq ++ ": [" ++ dq ++ "keyword1" ++ dq
        ++ ", " ++ dq ++ "keyword2" ++ dq ++ ", ...],";
      "    " ++ dq ++ "inferred_skills" ++ dq ++ ": [" ++ dq ++ "skill1" ++ dq
        ++ ", " ++ dq ++ "skill2" ++ dq ++ ", ...],";
      "    " ++ dq ++ "seniority_level" ++ dq ++ ": " ++ dq ++ "string" ++ dq
        ++ ",";
      "    " ++ dq ++ "years_of_experience" ++ dq ++ ": " ++ dq
        ++ "string or null" ++ dq;
      "}}";
      "";
      "JOB POSTING:";
      "---";
      "{job_text}";
      "---";
      "";
      "Remember: Return ONLY the JSON object, no other text." ].


(** *** [str.format] with keyword arguments

    The model covers templates whose fields are plain names, as
    [{job_text}]: literal text, [{{] and [}}], and [{name}].  A field
    without a name or with a number asks for a positional argument, and
    there is none.  Conversions ([!r]), format specifications ([:>5]),
    attributes and indices are not in the model, which raises on them. *)

(** [kwargs[name]] *)
Fixpoint lookup (name : string) (kwargs : list (string * string)) : option string :=
  match kwargs with
  | [] => None
  | (k, v) :: rest => if String.eqb k name then Some v else lookup name rest
  end.

Definition is_digit (c : ascii) : bool := between 48 (ord c) 57.

(** The value of the field [name]. *)
Definition field_value (name : string) (kwargs : list (string * string)) : exc string :=
  if PyStr.forallb is_digit name then Raise IndexError
  else match lookup name kwargs with
       | Some v => Ok v
       | None => Raise KeyError
       end.

(** The characters that end the plain name of a field. *)
Definition field_special (c : ascii) : bool :=
  Ascii.eqb c "{" || Ascii.eqb c "!" || Ascii.eqb c ":" || Ascii.eqb c "."
  || Ascii.eqb c "[".

(** The text of [template] from left to right; [field] is the part of a
    field name read so far, when the text is inside a field. *)
Fixpoint format_from (template : string) (field : option string)
    (kwargs : list (string * string)) : exc string :=
  match template with
  | "" =>
      match field with
      | None => Ok ""
      | Some _ => Raise ValueError
      end
  | String c rest =>
      match field with
      | Some name =>
          if Ascii.eqb c "}" then
            do value <- field_value name kwargs;
            do text <- format_from rest None kwargs;
            Ok (value ++ text)
          else if field_special c then Raise ValueError
          else format_from rest (Some (name ++ String c "")) kwargs
      | None =>
          if Ascii.eqb c "{" then
            match rest with
            | String c' rest' =>
                if Ascii.eqb c' "{" then
                  do text <- format_from rest' None kwargs;
                  Ok (String "{" text)
                else format_from rest (Some "") kwargs
            | "" => Raise ValueError
            end
          else if Ascii.eqb c "}" then
            match rest with
            | String c' rest' =>
                if Ascii.eqb c' "}" then
                  do text <- format_from rest' None kwargs;
                  Ok (String "}" text)
                else Raise ValueError
            | "" => Raise ValueError
            end
          else
            do text <- format_from rest None kwargs;
            Ok (String c text)
      end
  end.

(** [template.format] with the keyword arguments [kwargs] *)
Definition format (template : string) (kwargs : list (string * string)) : exc string :=
  format_from template None kwargs.

(** *** [get_user_prompt] *)

Definition max_chars : Z := 15000.

Definition truncation_note : string :=
  LF ++ LF ++ "[Content truncated for length...]".

Definition get_user_prompt (job_text : string) : exc string :=
  let job_text :=
    if (max_chars <? Z.of_nat (length job_text))%Z
    then take (Z.to_nat max_chars) job_text ++ truncation_note
    else job_text in
  format USER_PROMPT_TEMPLATE [("job_text", job_text)].

End Prompts.


(* ------------------------------------------------------------------ *)
(** ** llm/analyzer.py *)

Module Analyzer.
Import PyStr PyVal.

(** [JobAnalysisResult]: the fields hold what the response has under their
    names, of whatever type. *)
Record JobAnalysisResult : Type := mkResult {
  job_title : json;
  company : json;
  job_summary : json;
  responsibilities : json;
  hard_skills : json;
  soft_skills : json;
  ats_keywords : json;
  inferred_skills : json;
  seniority_level : json;
  years_of_experience : json;
  success : bool;
  error_message : option string;
  tokens_used : option Z;
  model_used : option string
}.

(** [JobAnalysisResult.from_dict(data)]; [required_skills.get] raises
    [AttributeError] on a value that is no [dict]. *)
Definition from_dict (data : pydict) : exc JobAnalysisResult :=
  let required_skills := get_default "required_skills" (JDict []) data in
  match required_skills with
  | JDict required_skills =>
      Ok (mkResult
            (get "job_title" data)
            (get "company" data)
            (get "job_summary" data)
            (get_default "responsibilities" (JList []) data)
            (get_default "hard_skills" (JList []) required_skills)
            (get_default "soft_skills" (JList []) required_skills)
            (get_default "ats_keywords" (JList []) data)
            (get_default "inferred_skills" (JList []) data)
            (get "seniority_level" data)
            (get "years_of_experience" data)
            true None None None)
  | _ => Raise AttributeError
  end.

(** [JobAnalysisResult.error(message)] *)
Definition error (message : string) : JobAnalysisResult :=
  mkResult JNull JNull JNull (JList []) (JList []) (JList []) (JList [])
           (JList []) JNull JNull false (Some message) None None.

(** [re.search(r'\{[\s\S]*\}', text).group()]: the text from the first [{]
    to the last [}] after it. *)
Definition search_braces (text : string) : option string :=
  match partition "{" text with
  | (_, Some after) =>
      match Urllib.rpartition "}" after with
      | Some (inner, _) => Some ("{" ++ inner ++ "}")
      | None => None
      end
  | (_, None) => None
  end.

Section WithImpl.
Context {impl : HtmlImpl}.

(** [except json.JSONDecodeError: pass]: any other exception of
    [json.loads] leaves the function. *)
Definition _extract_json_from_text (text : string) : exc (option json) :=
  match search_braces text with
  | Some group =>
      match json_loads group with
      | Ok data => Ok (Some data)
      | Raise JSONDecodeError => Ok None
      | Raise e => Raise e
      end
  | None => Ok None
  end.

(** The part of [_parse_llm_response] after [data] is there. *)
Definition result_of (data : json) : exc JobAnalysisResult :=
  match data with
  | JDict d => from_dict d
  | _ => Ok (error "Response is not a JSON object")
  end.

(** The [try] around [json.loads(content)] catches [json.JSONDecodeError]
    and nothing else. *)
Definition _parse_llm_response (content : string) : exc JobAnalysisResult :=
  match json_loads content with
  | Ok data => result_of data
  | Raise JSONDecodeError =>
      do data <- _extract_json_from_text content;
      match data with
      | None => Ok (error "Could not parse response as JSON")
      | Some data => result_of data
      end
  | Raise e => Raise e
  end.

End WithImpl.

End Analyzer.


(* ------------------------------------------------------------------ *)
(** ** extractor/fallback_extractor.py *)

(** What the extractor takes from its libraries: whether [trafilatura] is
    there, [trafilatura.extract] with the options of the source, which
    returns a text or [None] or raises, and the [text] of a newspaper3k
    [Article] of the page after [download] and [parse], which raise when
    the package is not there or the page cannot be read. *)
Class ExtractImpl : Type := {
  TRAFILATURA_AVAILABLE : bool;
  trafilatura_extract : string -> option string -> exc (option string);
  article_text : string -> string -> exc string
}.

Module FallbackExtractor.
Import PyStr.

Section WithImpl.
Context {impl : ExtractImpl}.

Definition extract_with_fallback (html : string) (url : option string) : string :=
  if negb TRAFILATURA_AVAILABLE then ""
  else
    match trafilatura_extract html url with
    | Ok (Some extracted) => if negb (String.eqb extracted "") then extracted else ""
    | Ok None => ""
    | Raise _ => ""
    end.

Definition extract_with_newspaper (html : string) (url : string) : string :=
  match article_text html url with
  | Ok text => if negb (String.eqb text "") then text else ""
  | Raise _ => ""
  end.

Definition get_best_extraction (html : string) (url : option string) : string :=
  let content := extract_with_fallback html url in
  if negb (String.eqb content "") && Nat.ltb 200 (length content) then content
  else
    match url with
    | Some u =>
        if negb (String.eqb u "") then
          let newspaper_content := extract_with_newspaper html u in
          if negb (String.eqb newspaper_content "")
             && Nat.ltb (length content) (length newspaper_content)
          then newspaper_content
          else content
        else content
    | None => content
    end.

End WithImpl.

End FallbackExtractor.

(* ------------------------------------------------------------------ *)
(** ** More notions that the properties are stated with *)

Module MoreNotions.
Import PyStr PyStrMore Regex Urllib Notions IgnoreCase ContentCleanerRest PyVal HtmlParser.
Import Findall KeywordRanker Prompts Analyzer.

(** Every text that the pattern matches holds [w]. *)
Definition always_contains (w : string) (r : regex) : Prop :=
  forall m, matches r m -> contains w m = true.

(** A character of a path segment: none of [/?#], no tab and no line end. *)
Definition segment_char (c : ascii) : bool := no_delim c && safe_byte c.

(** *** Patterns that ignore case *)

(** The class does not tell a character from its lower-case form. *)
Definition class_ignores_case (p : ascii -> bool) : Prop :=
  forall c, p (lower_char c) = p c.

(** Every class of the pattern is such a class. *)
Fixpoint ignores_case (r : regex) : Prop :=
  match r with
  | Void | Eps => True
  | Class p => class_ignores_case p
  | Cat r1 r2 | Alt r1 r2 => ignores_case r1 /\ ignores_case r2
  | Star r1 => ignores_case r1
  end.

(** The words that make an element boilerplate: the fixed starts of
    [BOILERPLATE_PATTERNS], in the order of the patterns. *)
Definition boilerplate_stems : list string :=
  [ "nav"; "header"; "footer"; "sidebar"; "menu"; "cookie"; "banner"; "popup";
    "modal"; "overlay"; "advertisement"; "ad"; "promo"; "social"; "share";
    "related"; "similar"; "recommend"; "newsletter"; "subscribe";
    "signup"; "sign-up"; "sign_up";
    "login"; "register"; "legal"; "privacy"; "terms"; "disclaimer"; "copyright";
    "breadcrumb"; "pagination"; "search" ].

(** Phrases of legal text, in lower case and with single spaces. *)
Definition legal_phrases : list string :=
  [ "equal opportunity employer"; "we are an eoe"; "we are an e.o.e.";
    "affirmative action"; "terms of use"; "terms of service"; "privacy policy";
    "all rights reserved"; "cookie policy"; "cookie settings";
    "cookie preferences"; "by clicking"; "by applying"; "by submitting";
    "we use cookies"; "this site uses cookies" ].

(** *** Lines *)

Definition nonblank (line : string) : bool := negb (String.eqb line "").

(** No line is blank after a blank line; [prev_blank] says whether the line
    before the first one counts as blank. *)
Fixpoint spaced (prev_blank : bool) (lines : list string) : bool :=
  match lines with
  | [] => true
  | line :: rest =>
      if String.eqb line "" then negb prev_blank && spaced true rest
      else spaced false rest
  end.

(** Whether the last line of [lines] is blank, [prev_blank] standing for the
    line before the first one. *)
Definition ends_blank (prev_blank : bool) (lines : list string) : bool :=
  match lines with
  | [] => prev_blank
  | _ :: _ => String.eqb (last lines "") ""
  end.

(** A line that [_remove_legal_sections] takes for the start of a section:
    shorter than 60 characters and ending with a colon. *)
Definition header_like (line : string) : bool :=
  Nat.ltb (length (strip line)) 60 && endswith_char ":" (strip line).

(** A line that starts a stretch of dropped lines: it holds legal text and is
    shorter than 100 characters. *)
Definition short_legal (line : string) : bool :=
  search LEGAL_REGEX (strip line) && Nat.ltb (length (strip line)) 100.

(** The lines of a text, and those that are not empty. *)
Definition lines_of (text : string) : list string := split nl text.
Definition inked_lines (text : string) : list string := filter nonblank (lines_of text).

(** A line of text: it holds no line end. *)
Definition one_line (line : string) : Prop := has_char nl line = false.

(** Three line ends in a row, that is two blank lines. *)
Definition three_newlines : string := String nl (String nl LF).

(** A text in which white space is tidy: no tab, no two spaces in a row, no
    two blank lines in a row, nothing to strip at either end. *)
Definition tidy (text : string) : Prop :=
  has_char tab text = false
  /\ contains "  " text = false
  /\ contains three_newlines text = false
  /\ strip text = text.

(** A line that [_remove_legal_sections] can keep: it has no line end,
    nothing to strip, and no legal text. *)
Definition kept (line : string) : Prop :=
  one_line line /\ strip line = line /\ search LEGAL_REGEX line = false.

(** *** The record of a posting *)

(** The fields of the record, in the order in which
    [_normalize_job_posting] lists them. *)
Definition field_names : list string :=
  [ "title"; "description"; "company"; "location"; "employment_type";
    "date_posted"; "valid_through"; "salary"; "experience"; "education";
    "skills"; "industry" ].

(** The fields that are a [str] whenever they are present. *)
Definition text_fields : list string :=
  [ "title"; "description"; "employment_type"; "date_posted"; "valid_through";
    "salary"; "experience"; "education"; "industry" ].

Definition is_text (v : json) : bool :=
  match v with
  | JStr _ => true
  | _ => false
  end.

Definition is_text_list (v : json) : bool :=
  match v with
  | JList l => List.forallb is_text l
  | _ => false
  end.

(** *** Keywords *)

(** How often [t] occurs in [tokens]. *)
Definition occurrences (t : string) (tokens : list string) : Z :=
  Z.of_nat (List.length (filter (String.eqb t) tokens)).

(** The terms of [PRESERVE_TERMS] that have one or two characters. *)
Definition short_preserve_terms : list string := ["ai"; "c#"; "go"; "r"].

(** The three lists of [format_keywords_for_display]: where a keyword goes. *)
Definition is_high (kw : RankedKeyword) : bool :=
  (3 <=? score kw)%Z || is_repeated kw.
Definition is_medium (kw : RankedKeyword) : bool :=
  negb (is_high kw) && (2 <=? score kw)%Z.
Definition is_other (kw : RankedKeyword) : bool :=
  negb (is_high kw) && negb (2 <=? score kw)%Z.

(** The order of a list of keywords with their counts: the greater count
    first, and for equal counts the term that is first in the order of
    [str]. *)
Definition by_count (x y : string * Z) : Prop :=
  (snd y < snd x)%Z \/ (snd x = snd y /\ str_lt (fst x) (fst y) = true).

(** The order of a ranking: the greater score first, then the keyword. *)
Definition by_score (x y : RankedKeyword) : Prop :=
  (score y < score x)%Z
  \/ (score x = score y /\ str_lt (keyword x) (keyword y) = true).

(** What holds of every record of a ranking of [text] with the keywords
    [llm_keywords] of the LLM. *)
Definition ranked_record (text : string) (llm_keywords : list string)
    (kw : RankedKeyword) : Prop :=
  frequency kw = dict_get (keyword kw) (freq_dict_of text) 0
  /\ ((1 <= frequency kw)%Z \/ is_from_llm kw = true)
  /\ (0 <= frequency kw)%Z
  /\ is_from_llm kw = mem (keyword kw) (llm_set_of llm_keywords)
  /\ score kw = (frequency kw + (if is_from_llm kw then 2 else 0)
                 + (if mem (keyword kw) PRESERVE_TERMS then 1 else 0))%Z
  /\ (1 <= score kw)%Z
  /\ is_repeated kw = (1 <? frequency kw)%Z.

(** *** Tokens *)

(** The text [m] is a match of [pattern] between the character [prev] and
    the text [rest]. *)
Fixpoint fits (pattern : list atom) (prev : option ascii) (m rest : string) : Prop :=
  match pattern with
  | [] => m = ""
  | One p :: r =>
      exists c m', m = String c m' /\ p c = true /\ fits r (Some c) m' rest
  | Many1 p :: r =>
      exists m1 m2 c, m = m1 ++ m2 /\ PyStr.forallb p m1 = true
                      /\ last_char m1 = Some c /\ fits r (Some c) m2 rest
  | Boundary :: r => boundary prev (m ++ rest) = true /\ fits r prev m rest
  end.

Definition digit (c : ascii) : bool := between 48 (ord c) 57.

(** One or more of the letters a-z. *)
Definition letters (w : string) : Prop := w <> "" /\ PyStr.forallb az w = true.

(** A letter a-z, then one or more of the characters [a-z0-9+#/.]. *)
Definition word_token (t : string) : Prop :=
  exists c r, t = String c r /\ az c = true /\ r <> ""
              /\ PyStr.forallb term_char r = true.

(** Two or three runs of the letters a-z, with one character between two
    runs that is white space or, when [dash] allows it, a hyphen. *)
Definition phrase (dash : bool) (t : string) : Prop :=
  exists w1 s1 w2 more,
    t = w1 ++ String s1 (w2 ++ more)
    /\ letters w1 /\ letters w2
    /\ (isspace s1 || (dash && Ascii.eqb s1 "-")) = true
    /\ (more = ""
        \/ exists s2 w3, more = String s2 w3 /\ letters w3
                         /\ (isspace s2 || (dash && Ascii.eqb s2 "-")) = true).

(** What a token of [tokenize_text text] is: a piece of the text in lower
    case that is a word, or a phrase of such a piece with its hyphens made
    spaces. *)
Definition token_of (text t : string) : Prop :=
  (word_token t /\ contains t (lower text) = true)
  \/ (phrase false t
      /\ exists m, phrase true m /\ contains m (lower text) = true
                   /\ t = dash_to_space m).

(** What holds of every token of [tokenize_text text]. *)
Definition token_facts (text t : string) : Prop :=
  token_of text t
  /\ 2 <= length t
  /\ (exists c r, t = String c r /\ az c = true)
  /\ PyStr.forallb (fun c => term_char c || isspace c) t = true
  /\ has_char "-" t = false.

(** The text ends with a letter a-z or a digit. *)
Definition ends_plain (t : string) : Prop :=
  exists c, last_char t = Some c /\ (az c || digit c) = true.

(** Every word character of the text is a letter a-z or a digit. *)
Definition plain_words (s : string) : bool :=
  PyStr.forallb (fun c => negb (is_word c) || az c || digit c) s.

(** *** The response of the LLM *)

(** The value that [_parse_llm_response] works on: the content read as JSON
    or, when [json.loads] rejects it with [JSONDecodeError], the text from
    its first [{] to its last [}] read as JSON, none when that is rejected
    with [JSONDecodeError] too.  Another exception of [json.loads] is raised
    as it is. *)
Definition response_data {impl : HtmlImpl} (content : string) : exc (option json) :=
  match json_loads content with
  | Ok data => Ok (Some data)
  | Raise JSONDecodeError =>
      match search_braces content with
      | Some group =>
          match json_loads group with
          | Ok data => Ok (Some data)
          | Raise JSONDecodeError => Ok None
          | Raise e => Raise e
          end
      | None => Ok None
      end
  | Raise e => Raise e
  end.

Definition is_dict (v : json) : bool :=
  match v with
  | JDict _ => true
  | _ => false
  end.

(** *** The apply segment of a Lever path *)

(** [path] is [base] followed by the segment [/apply], with or without a
    final slash. *)
Definition apply_segment_after (base path : string) : Prop :=
  path = base ++ "/apply" \/ path = base ++ "/apply/".

(** The path has at most one apply segment at its end, and what comes before
    that segment has no [;]. *)
Definition single_apply (path : string) : Prop :=
  forall base, apply_segment_after base path ->
    has_char ";" base = false
    /\ forall base', ~ apply_segment_after base' base.

(** *** Sorted lists *)

(** By the key of a sort, [x] does not come after [y]; [x] comes before
    [y]. *)
Definition not_after {A : Type} (key : A -> Z * string) (x y : A) : Prop :=
  key_lt (key y) (key x) = false.

Definition before {A : Type} (key : A -> Z * string) (x y : A) : Prop :=
  key_lt (key x) (key y) = true.

End MoreNotions.


(* ================================================================== *)
(** * Properties *)

(* ------------------------------------------------------------------ *)
(** ** Facts about strings *)

Module PyStrFacts.
Import Notions PyStr.

Lemma startswith_iff p s :
  startswith p s = true <-> exists t, s = p ++ t.
Proof.
  revert s; induction p as [|a p IH]; intros s; simpl.
  - split; [intros _; now exists s | reflexivity].
  - destruct s as [|b s].
    + split; [discriminate | intros [t Ht]; discriminate].
    + rewrite andb_true_iff, Ascii.eqb_eq, IH. split.
      * intros [-> [t ->]]. now exists t.
      * intros [t Ht]. injection Ht as -> ->. split; [reflexivity | now exists t].
Qed.

Lemma contains_iff sub s :
  contains sub s = true <-> exists pre post, s = pre ++ sub ++ post.
Proof.
  induction s as [|a s IH].
  - simpl. rewrite orb_false_r, startswith_iff. split.
    + intros [t Ht]. now exists "", t.
    + intros [pre [post H]]. destruct pre; simpl in H.
      * now exists post.
      * discriminate.
  - simpl. rewrite orb_true_iff, startswith_iff, IH. split.
    + intros [[t Ht] | [pre [post H]]].
      * now exists "", t.
      * exists (String a pre), post. simpl. now rewrite H.
    + intros [pre [post H]]. destruct pre as [|b pre]; simpl in H.
      * left. now exists post.
      * right. injection H as _ H. now exists pre, post.
Qed.

Lemma has_char_append c s t :
  has_char c (s ++ t) = has_char c s || has_char c t.
Proof.
  induction s as [|a s IH]; simpl; [reflexivity|].
  now rewrite IH, orb_assoc.
Qed.

Lemma forallb_weaken (p q : ascii -> bool) s :
  (forall c, p c = true -> q c = true) ->
  PyStr.forallb p s = true -> PyStr.forallb q s = true.
Proof.
  intros Hpq. induction s as [|a s IH]; simpl; [reflexivity|].
  rewrite !andb_true_iff. intros [Ha Hs]. auto.
Qed.

Lemma length_append s t : length (s ++ t) = length s + length t.
Proof. induction s; simpl; congruence. Qed.

Lemma append_assoc (s t u : string) : (s ++ t) ++ u = s ++ (t ++ u).
Proof. induction s; simpl; congruence. Qed.

Lemma append_empty_r (s : string) : s ++ "" = s.
Proof. induction s; simpl; congruence. Qed.

End PyStrFacts.


(* ------------------------------------------------------------------ *)
(** ** The regular expression matcher is the matching relation *)

Module RegexFacts.
Import Notions PyStr PyStrFacts Regex.

#[local] Hint Constructors matches : core.

Lemma matches_void s : ~ matches Void s.
Proof. intros H. inversion H. Qed.

Lemma matches_eps s : matches Eps s -> s = "".
Proof. intros H. now inversion H. Qed.

Lemma matches_cat_inv r1 r2 s :
  matches (Cat r1 r2) s ->
  exists s1 s2, s = s1 ++ s2 /\ matches r1 s1 /\ matches r2 s2.
Proof. intros H. inversion H; subst. eauto. Qed.

Lemma matches_alt_inv r1 r2 s :
  matches (Alt r1 r2) s -> matches r1 s \/ matches r2 s.
Proof. intros H. inversion H; subst; auto. Qed.

Lemma append_nil_inv (s1 s2 : string) : s1 ++ s2 = "" -> s1 = "" /\ s2 = "".
Proof. destruct s1; [auto | discriminate]. Qed.

Lemma nullable_iff r : nullable r = true <-> matches r "".
Proof.
  induction r as [| |p|r1 IH1 r2 IH2|r1 IH1 r2 IH2|r IH]; cbn.
  - split; [discriminate | intros H; inversion H].
  - split; auto.
  - split; [discriminate | intros H; inversion H].
  - rewrite andb_true_iff, IH1, IH2. split.
    + intros [H1 H2]. change "" with ("" ++ ""). auto.
    + intros H. apply matches_cat_inv in H as (s1 & s2 & E & H1 & H2).
      symmetry in E. apply append_nil_inv in E as [-> ->]. auto.
  - rewrite orb_true_iff, IH1, IH2. split.
    + intros [H|H]; auto.
    + apply matches_alt_inv.
  - split; auto.
Qed.

Lemma matches_cat_smart r1 r2 s : matches (cat r1 r2) s <-> matches (Cat r1 r2) s.
Proof.
  split.
  - destruct r1, r2; cbn; intros H; try exact H; try (now apply matches_void in H);
      change s with ("" ++ s); auto.
  - intros H. apply matches_cat_inv in H as (s1 & s2 & -> & H1 & H2).
    destruct r1, r2; cbn; auto;
      try (now apply matches_void in H1); try (now apply matches_void in H2);
      apply matches_eps in H1; subst; exact H2.
Qed.

Lemma matches_alt_smart r1 r2 s : matches (alt r1 r2) s <-> matches (Alt r1 r2) s.
Proof.
  split.
  - destruct r1, r2; cbn; intros H; auto.
  - intros H. apply matches_alt_inv in H as [H|H];
      destruct r1, r2; cbn; auto;
      try (now apply matches_void in H).
Qed.

(** A non-empty match of a repetition starts with a non-empty match of its
    body. *)
Lemma matches_star_cons r c s :
  matches (Star r) (String c s) ->
  exists s1 s2, s = s1 ++ s2 /\ matches r (String c s1) /\ matches (Star r) s2.
Proof.
  intros H. remember (Star r) as r' eqn:Er. remember (String c s) as t eqn:Et.
  revert c s Et.
  induction H as [|p a Ha|r1 r2 u1 u2 _ _ _ _|r1 r2 u _ _|r1 r2 u _ _|r0
                  |r0 u1 u2 H1 _ H2 IH2];
    intros c s Et; try discriminate.
  injection Er as ->. destruct u1 as [|c1 u1].
  - cbn in Et. exact (IH2 eq_refl c s Et).
  - cbn in Et. injection Et as -> <-. eauto.
Qed.

Lemma deriv_iff r : forall c s, matches (deriv c r) s <-> matches r (String c s).
Proof.
  induction r as [| |p|r1 IH1 r2 IH2|r1 IH1 r2 IH2|r IH]; intros c s; cbn [deriv].
  - split; intros H; inversion H.
  - split; intros H; inversion H.
  - destruct (p c) eqn:E; split; intros H.
    + apply matches_eps in H. subst. auto.
    + inversion H; subst. auto.
    + now apply matches_void in H.
    + inversion H; subst. congruence.
  - assert (L : matches (Cat (deriv c r1) r2) s -> matches (Cat r1 r2) (String c s)).
    { intros H. apply matches_cat_inv in H as (s1 & s2 & -> & H1 & H2).
      apply IH1 in H1. change (String c (s1 ++ s2)) with (String c s1 ++ s2). auto. }
    assert (R : matches (Cat r1 r2) (String c s) ->
                matches (Cat (deriv c r1) r2) s
                \/ (matches r1 "" /\ matches (deriv c r2) s)).
    { intros H. apply matches_cat_inv in H as (s1 & s2 & E & H1 & H2).
      destruct s1 as [|c1 s1]; cbn in E.
      - subst s2. right. split; [exact H1 | now apply IH2].
      - injection E as <- ->. left. apply IH1 in H1. auto. }
    destruct (nullable r1) eqn:N.
    + rewrite matches_alt_smart. split.
      * intros H. apply matches_alt_inv in H as [H|H].
        -- apply L. now apply matches_cat_smart.
        -- apply nullable_iff in N. apply IH2 in H.
           change (String c s) with ("" ++ String c s). auto.
      * intros H. destruct (R H) as [H'|[_ H']]; [|auto].
        apply m_alt_l. now apply matches_cat_smart.
    + rewrite matches_cat_smart. split; [exact L|].
      intros H. destruct (R H) as [H'|[H' _]]; [exact H'|].
      apply nullable_iff in H'. congruence.
  - rewrite matches_alt_smart. split.
    + intros H. apply matches_alt_inv in H as [H|H]; [apply IH1 in H | apply IH2 in H]; auto.
    + intros H. apply matches_alt_inv in H as [H|H]; [apply IH1 in H | apply IH2 in H]; auto.
  - rewrite matches_cat_smart. split.
    + intros H. apply matches_cat_inv in H as (s1 & s2 & -> & H1 & H2).
      apply IH in H1. change (String c (s1 ++ s2)) with (String c s1 ++ s2). auto.
    + intros H. apply matches_star_cons in H as (s1 & s2 & -> & H1 & H2).
      apply IH in H1. auto.
Qed.

(** [match_prefix] finds a match that starts the text. *)
Lemma match_prefix_iff r s :
  match_prefix r s = true <-> exists s1 s2, s = s1 ++ s2 /\ matches r s1.
Proof.
  revert r. induction s as [|c s IH]; intros r; cbn [match_prefix].
  - rewrite orb_false_r, nullable_iff. split.
    + intros H. now exists "", "".
    + intros (s1 & s2 & E & H). symmetry in E.
      apply append_nil_inv in E as [-> _]. exact H.
  - rewrite orb_true_iff, nullable_iff, IH. split.
    + intros [H | (s1 & s2 & -> & H)].
      * now exists "", (String c s).
      * exists (String c s1), s2. split; [reflexivity | now apply deriv_iff].
    + intros (s1 & s2 & E & H). destruct s1 as [|c1 s1]; [now left|].
      cbn in E. injection E as <- ->. right. exists s1, s2.
      split; [reflexivity | now apply deriv_iff].
Qed.

(** [search] finds a match anywhere in the text. *)
Lemma search_iff r s :
  search r s = true <-> exists s0 s1 s2, s = s0 ++ s1 ++ s2 /\ matches r s1.
Proof.
  induction s as [|c s IH]; cbn [search].
  - rewrite orb_false_r, match_prefix_iff. split.
    + intros (s1 & s2 & E & H). now exists "", s1, s2.
    + intros (s0 & s1 & s2 & E & H). destruct s0; [|discriminate].
      exists s1, s2. auto.
  - rewrite orb_true_iff, match_prefix_iff, IH. split.
    + intros [(s1 & s2 & E & H) | (s0 & s1 & s2 & -> & H)].
      * now exists "", s1, s2.
      * now exists (String c s0), s1, s2.
    + intros (s0 & s1 & s2 & E & H). destruct s0 as [|c0 s0]; cbn in E.
      * left. exists s1, s2. auto.
      * injection E as <- ->. right. exists s0, s1, s2. auto.
Qed.

Lemma matches_lit s : matches (Lit s) s.
Proof.
  induction s as [|c s IH]; cbn; [auto|].
  change (String c s) with (String c "" ++ s).
  apply m_cat; [|exact IH]. apply m_class. apply Ascii.eqb_refl.
Qed.

Lemma matches_plus_class p c s :
  p c = true -> PyStr.forallb p s = true -> matches (Plus (Class p)) (String c s).
Proof.
  intros Hc Hs. unfold Plus. change (String c s) with (String c "" ++ s).
  apply m_cat; [auto|]. induction s as [|a s IH]; [auto|].
  cbn in Hs. apply andb_true_iff in Hs as [Ha Hs].
  change (String a s) with (String a "" ++ s). auto.
Qed.

End RegexFacts.


(* ------------------------------------------------------------------ *)
(** ** The content validator *)

Module ContentValidatorFacts.
Import Notions PyStr PyStrFacts ContentCleaner.

(** Two or more elements of a duplicate-free list pass a test exactly when
    two different elements pass it. *)
Lemma filter_two_distinct (A : Type) (f : A -> bool) (l : list A) :
  NoDup l ->
  (2 <= List.length (filter f l) <->
   exists x y, In x l /\ In y l /\ x <> y /\ f x = true /\ f y = true).
Proof.
  intros Hnd. pose proof (NoDup_filter f Hnd) as Hndf. split.
  - destruct (filter f l) as [|a [|b r]] eqn:E; simpl; try lia. intros _.
    assert (Ha : In a (filter f l)) by (rewrite E; simpl; auto).
    assert (Hb : In b (filter f l)) by (rewrite E; simpl; auto).
    apply filter_In in Ha, Hb. exists a, b. repeat split; try tauto.
    intros ->. inversion Hndf as [|? ? Hnotin _]. apply Hnotin. simpl; auto.
  - intros (x & y & Hx & Hy & Hxy & Hfx & Hfy).
    assert (Hx' : In x (filter f l)) by (apply filter_In; auto).
    assert (Hy' : In y (filter f l)) by (apply filter_In; auto).
    destruct (filter f l) as [|a [|b r]]; simpl in *; try tauto; try lia.
    destruct Hx' as [<-|[]], Hy' as [<-|[]]. congruence.
Qed.

Lemma job_keywords_nodup : NoDup job_keywords.
Proof.
  unfold job_keywords.
  repeat (constructor; [simpl; intuition discriminate|]). constructor.
Qed.

(** C8.  [is_meaningful_content] fails every text shorter than [min_length];
    on a text of at least that length it passes exactly when two different
    terms of the vocabulary occur in the text, letter case ignored. *)
Theorem is_meaningful_content_spec :
  forall (text : string) (min_length : Z),
    ((Z.of_nat (length text) < min_length)%Z ->
     is_meaningful_content text min_length = false)
    /\
    ((min_length <= Z.of_nat (length text))%Z ->
     (is_meaningful_content text min_length = true <->
      exists k1 k2,
        In k1 job_keywords /\ In k2 job_keywords /\ k1 <> k2 /\
        occurs_ci k1 text /\ occurs_ci k2 text)).
Proof.
  intros text min_length. unfold is_meaningful_content. split.
  - intros Hlt. apply Z.ltb_lt in Hlt. now rewrite Hlt.
  - intros Hge. apply Z.ltb_ge in Hge. rewrite Hge.
    set (f := fun kw => contains kw (lower text)).
    destruct (Nat.ltb_spec (List.length (filter f job_keywords)) 2) as [Hlt|Hle].
    + split; [discriminate|].
      intros (k1 & k2 & H1 & H2 & Hne & [p1 [q1 E1]] & [p2 [q2 E2]]).
      exfalso.
      assert (2 <= List.length (filter f job_keywords)); [|lia].
      apply (filter_two_distinct _ f _ job_keywords_nodup).
      exists k1, k2. repeat split; auto; unfold f; apply contains_iff; eauto.
    + split; [|reflexivity]. intros _.
      apply (filter_two_distinct _ f _ job_keywords_nodup) in Hle.
      destruct Hle as (k1 & k2 & H1 & H2 & Hne & F1 & F2).
      exists k1, k2. unfold f in F1, F2.
      apply contains_iff in F1, F2. repeat split; auto.
Qed.

(** The examples of the claim, with the default [min_length]. *)
Lemma is_meaningful_content_examples :
  length passage_500 = 500
  /\ is_meaningful_content "" default_min_length = false
  /\ is_meaningful_content "   " default_min_length = false
  /\ is_meaningful_content passage_500 default_min_length = true.
Proof.
  split; [reflexivity|]. split; [|split].
  - apply (proj1 (is_meaningful_content_spec "" default_min_length)).
    reflexivity.
  - apply (proj1 (is_meaningful_content_spec "   " default_min_length)).
    reflexivity.
  - apply (proj2 (is_meaningful_content_spec passage_500 default_min_length)).
    + vm_compute. discriminate.
    + exists "responsibilities", "requirements".
      split; [simpl; tauto|]. split; [simpl; tauto|]. split; [discriminate|].
      split.
      * exists "", (" of the role and requirements for it. " ++ repeat_char "x" 446).
        reflexivity.
      * exists "responsibilities of the role and ", (" for it. " ++ repeat_char "x" 446).
        reflexivity.
Defined.

End ContentValidatorFacts.


(* ------------------------------------------------------------------ *)
(** ** The final clean-up of the boilerplate stripper *)

Module FinalCleanupFacts.
Import Notions PyStr PyStrFacts ContentCleaner.

Lemma rstrip_by_empty p s : rstrip_by p s = "" -> PyStr.forallb p s = true.
Proof.
  induction s as [|a s IH]; simpl; [reflexivity|].
  destruct (rstrip_by p s) eqn:E.
  - destruct (p a); [intros _; now apply IH | discriminate].
  - discriminate.
Qed.

Lemma lstrip_by_forallb p s :
  PyStr.forallb p (lstrip_by p s) = true -> PyStr.forallb p s = true.
Proof.
  induction s as [|a s IH]; simpl; [reflexivity|].
  destruct (p a) eqn:E; simpl; [exact IH | now rewrite E].
Qed.

Lemma strip_empty_all_space s :
  strip s = "" -> PyStr.forallb isspace s = true.
Proof.
  unfold strip. intros H. now apply lstrip_by_forallb, rstrip_by_empty.
Qed.

(** A line that the loop keeps is never blank: an empty line fails [if line],
    a line of white space matches the pattern of symbols. *)
Lemma keep_line_not_blank line :
  keep_line line = true -> strip line <> "".
Proof.
  unfold keep_line, symbols_only. intros H Hblank.
  destruct (String.eqb line "") eqn:El; simpl in H; [discriminate|].
  apply strip_empty_all_space in Hblank.
  assert (Hs : PyStr.forallb symbol_char line = true).
  { apply (forallb_weaken isspace); [|exact Hblank].
    intros c Hc. unfold symbol_char. now rewrite Hc. }
  rewrite Hs in H. discriminate.
Qed.

(** C7 (the code departs from the claim).  On two lines separated by one
    blank line the final clean-up returns the two lines with the blank line
    gone; and whatever the text, no line that the loop keeps is blank. *)
Theorem final_cleanup_drops_blank_lines :
  _final_cleanup ("Line one" ++ LF ++ LF ++ "Line two")
  = "Line one" ++ LF ++ "Line two"
  /\ forall text, Forall (fun line => strip line <> "") (cleaned_lines text).
Proof.
  split; [reflexivity|].
  intros text. apply Forall_forall. intros line Hin.
  apply filter_In in Hin. now apply keep_line_not_blank.
Qed.

(** *** No two line ends in a row *)

Lemma lines_ink_aux_line ink line rest :
  has_char nl line = false ->
  lines_ink_aux ink (line ++ rest) = lines_ink_aux (ink || has_ink line) rest.
Proof.
  unfold has_ink. revert ink. induction line as [|c line IH]; intros ink; cbn.
  - intros _. now rewrite orb_false_r.
  - intros [Hc Hl]%orb_false_iff. rewrite Hc, (IH _ Hl).
    f_equal. destruct ink, (isspace c); reflexivity.
Qed.

Lemma lines_ink_join lines :
  lines <> [] ->
  Forall (fun line => has_char nl line = false /\ has_ink line = true) lines ->
  lines_ink (join LF lines) = true.
Proof.
  unfold lines_ink. intros Hne H. induction H as [|l ls [Hn Hi] H IH]; [congruence|].
  destruct ls as [|l2 ls].
  - cbn [join]. rewrite <- (append_empty_r l), (lines_ink_aux_line _ _ _ Hn), Hi.
    reflexivity.
  - change (join LF (l :: l2 :: ls)) with (l ++ LF ++ join LF (l2 :: ls)).
    rewrite (lines_ink_aux_line _ _ _ Hn), Hi. cbn.
    apply IH. discriminate.
Qed.

Lemma is_blank_space c : is_blank c = true -> isspace c = true /\ Ascii.eqb c nl = false.
Proof.
  unfold is_blank. intros [H|H]%orb_true_iff; apply Ascii.eqb_eq in H; subst;
    split; reflexivity.
Qed.

Lemma lines_ink_sub_blank_runs ink in_run s :
  lines_ink_aux ink (sub_blank_runs_aux in_run s) = lines_ink_aux ink s.
Proof.
  revert ink in_run. induction s as [|c s IH]; intros ink in_run; [reflexivity|].
  cbn [sub_blank_runs_aux]. destruct (is_blank c) eqn:B.
  - destruct (is_blank_space _ B) as [Hs Hn]. cbn [lines_ink_aux].
    rewrite Hn, Hs. cbn [negb]. rewrite orb_false_r.
    destruct in_run; [apply IH|]. cbn. rewrite orb_false_r. apply IH.
  - cbn [lines_ink_aux]. destruct (Ascii.eqb c nl); now rewrite IH.
Qed.

Lemma lines_ink_sub_newline_space s :
  forall ink, lines_ink_aux ink (sub_newline_space s) = lines_ink_aux ink s.
Proof.
  assert (G : forall n s, length s <= n ->
              forall ink, lines_ink_aux ink (sub_newline_space s) = lines_ink_aux ink s).
  { induction n as [|n IH]; intros t Hlen ink.
    - destruct t; [reflexivity | cbn in Hlen; lia].
    - destruct t as [|c t]; [reflexivity|]. cbn in Hlen.
      cbn [sub_newline_space]. destruct (Ascii.eqb_spec c nl) as [->|Hc].
      + destruct t as [|c' t]; [reflexivity|].
        destruct (Ascii.eqb_spec c' " ") as [->|Hsp].
        * cbn [lines_ink_aux]. rewrite Ascii.eqb_refl. cbn.
          rewrite IH by (cbn in Hlen; lia). reflexivity.
        * cbn [lines_ink_aux]. rewrite Ascii.eqb_refl. rewrite IH by lia. reflexivity.
      + apply Ascii.eqb_neq in Hc. cbn [lines_ink_aux]. rewrite Hc. apply IH. lia. }
  exact (G (length s) s (le_n _)).
Qed.

Lemma lines_ink_no_double ink pre post :
  lines_ink_aux ink (pre ++ String nl (String nl post)) = false.
Proof.
  revert ink. induction pre as [|c pre IH]; intros ink; cbn [append lines_ink_aux].
  - rewrite Ascii.eqb_refl. cbn [andb]. now rewrite andb_false_r.
  - destruct (Ascii.eqb c nl); [now rewrite IH, andb_false_r | apply IH].
Qed.

Lemma lines_ink_no_blank_line s :
  lines_ink s = true -> contains (LF ++ LF) s = false.
Proof.
  intros H. destruct (contains (LF ++ LF) s) eqn:C; [|reflexivity].
  apply contains_iff in C as (pre & post & ->). unfold lines_ink in H.
  change (pre ++ (LF ++ LF) ++ post) with (pre ++ String nl (String nl post)) in H.
  now rewrite lines_ink_no_double in H.
Qed.

(** What [strip] returns is a part of the text. *)
Lemma lstrip_by_suffix p s : exists a, s = a ++ lstrip_by p s.
Proof.
  induction s as [|c s [a IH]]; cbn; [now exists ""|].
  destruct (p c); [|now exists ""]. exists (String c a). cbn. now rewrite <- IH.
Qed.

Lemma rstrip_by_prefix p s : exists b, s = rstrip_by p s ++ b.
Proof.
  induction s as [|c s [b IH]]; cbn; [now exists ""|].
  destruct (rstrip_by p s) eqn:E.
  - destruct (p c); [now exists (String c s)|]. exists s. reflexivity.
  - exists b. cbn in *. f_equal. exact IH.
Qed.

Lemma contains_strip sub s :
  contains sub (strip s) = true -> contains sub s = true.
Proof.
  unfold strip. intros H. apply contains_iff in H as (pre & post & E).
  destruct (lstrip_by_suffix isspace s) as [a Ha].
  destruct (rstrip_by_prefix isspace (lstrip_by isspace s)) as [b Hb].
  apply contains_iff. exists (a ++ pre), (post ++ b).
  rewrite Ha at 1. rewrite Hb, E. now rewrite !append_assoc.
Qed.

Lemma split_no_sep sep s :
  Forall (fun line => has_char sep line = false) (split sep s).
Proof.
  induction s as [|c s IH]; cbn [split]; [repeat constructor|].
  destruct (Ascii.eqb c sep) eqn:E; [constructor; [reflexivity | exact IH]|].
  destruct (split sep s) as [|w ws];
    [repeat constructor; cbn [has_char]; now rewrite E|].
  inversion IH; subst. constructor; [cbn [has_char]; rewrite E | assumption].
  assumption.
Qed.

Lemma all_space_strip_empty s : PyStr.forallb isspace s = true -> strip s = "".
Proof.
  unfold strip. intros H.
  assert (E : lstrip_by isspace s = "").
  { induction s as [|c s IH]; [reflexivity|]. cbn in *.
    apply andb_true_iff in H as [-> H]. auto. }
  now rewrite E.
Qed.

Lemma keep_line_props line :
  keep_line line = true ->
  symbols_only line = false /\ 2 < length (strip line) /\ has_ink line = true.
Proof.
  intros H. pose proof (keep_line_not_blank _ H) as Hnb.
  unfold keep_line in H.
  destruct (String.eqb line "") eqn:El; cbn [negb andb] in H; [discriminate|].
  destruct (symbols_only line) eqn:Es; cbn [negb andb] in H; [discriminate|].
  split; [reflexivity|]. split.
  - apply orb_true_iff in H as [H|H]; [now apply Nat.ltb_lt in H|].
    apply String.eqb_eq in H. contradiction.
  - unfold has_ink. destruct (PyStr.forallb isspace line) eqn:F; [|reflexivity].
    now apply all_space_strip_empty in F.
Qed.

(** X1.  The invariant of the cleaned text, the part of C7 that the code keeps.
    Every line that the final clean-up keeps is more than two characters long
    once stripped and is not made of symbols and white space alone; and the
    text that it returns has no two line ends in a row, so no blank line and
    no run of blank lines at all. *)
Theorem final_cleanup_no_blank_run :
  forall text : string,
    Forall (fun line => symbols_only line = false /\ 2 < length (strip line))
           (cleaned_lines text)
    /\ contains (LF ++ LF) (_final_cleanup text) = false.
Proof.
  intros text. split.
  - apply Forall_forall. intros line Hin. apply filter_In in Hin as [_ Hk].
    apply keep_line_props in Hk. tauto.
  - destruct (contains (LF ++ LF) (_final_cleanup text)) eqn:C; [|reflexivity].
    unfold _final_cleanup in C. apply contains_strip in C.
    destruct (cleaned_lines text) as [|l ls] eqn:E; [discriminate|].
    rewrite lines_ink_no_blank_line in C; [discriminate|].
    unfold lines_ink. rewrite lines_ink_sub_newline_space.
    unfold sub_blank_runs. rewrite lines_ink_sub_blank_runs.
    apply lines_ink_join; [discriminate|].
    rewrite <- E. apply Forall_forall. intros line Hin.
    unfold cleaned_lines in Hin. apply filter_In in Hin as [Hs Hk].
    split.
    + pose proof (split_no_sep nl (sub_newline_runs text)) as F.
      rewrite Forall_forall in F. now apply F.
    + apply keep_line_props in Hk. tauto.
Qed.

End FinalCleanupFacts.


(* ------------------------------------------------------------------ *)
(** ** Facts about strings and [urllib.parse] *)

Module UrllibFacts.
Import Notions PyStr PyStrFacts Urllib.

Lemma partition_some c s h t :
  partition c s = (h, Some t) -> s = h ++ String c t /\ has_char c h = false.
Proof.
  revert h t. induction s as [|a s IH]; simpl; intros h t H; [discriminate|].
  destruct (Ascii.eqb a c) eqn:E.
  - apply Ascii.eqb_eq in E. subst a. injection H as <- <-. now split.
  - destruct (partition c s) as [h' t'] eqn:P. injection H as <- ->.
    destruct (IH h' t eq_refl) as [-> Hh]. simpl. now rewrite E.
Qed.

Lemma partition_none c s h :
  partition c s = (h, None) -> h = s /\ has_char c s = false.
Proof.
  revert h. induction s as [|a s IH]; simpl; intros h H.
  - injection H as <-. now split.
  - destruct (Ascii.eqb a c) eqn:E; [discriminate|].
    destruct (partition c s) as [h' t'] eqn:P. injection H as <- ->.
    destruct (IH h' eq_refl) as [-> Hs]. now split.
Qed.

Lemma partition_absent c s :
  has_char c s = false -> partition c s = (s, None).
Proof.
  induction s as [|a s IH]; simpl; [reflexivity|].
  destruct (Ascii.eqb a c); simpl; [discriminate|].
  intros H. now rewrite (IH H).
Qed.

(** The text before the separator is a prefix of the whole. *)
Lemma partition_prefix c s : exists rest, s = fst (partition c s) ++ rest.
Proof.
  destruct (partition c s) as [h [t|]] eqn:P; simpl.
  - apply partition_some in P as [-> _]. eauto.
  - apply partition_none in P as [-> _]. exists "". now rewrite append_empty_r.
Qed.

Lemma has_char_prefix c s t : has_char c (s ++ t) = false -> has_char c s = false.
Proof. rewrite has_char_append. now intros [H _]%orb_false_iff. Qed.

Lemma has_char_suffix c s t : has_char c (s ++ t) = false -> has_char c t = false.
Proof. rewrite has_char_append. now intros [_ H]%orb_false_iff. Qed.

Lemma has_char_forallb c (p : ascii -> bool) s :
  p c = false -> PyStr.forallb p s = true -> has_char c s = false.
Proof.
  intros Hc. induction s as [|a s IH]; simpl; [reflexivity|].
  intros [Ha Hs]%andb_true_iff. rewrite (IH Hs), orb_false_r.
  destruct (Ascii.eqb_spec a c); [congruence | reflexivity].
Qed.

Lemma length_lower s : length (lower s) = length s.
Proof. induction s; simpl; congruence. Qed.

Lemma length_lstrip_by p s : length (lstrip_by p s) <= length s.
Proof. induction s as [|a s IH]; simpl; [lia|]. destruct (p a); simpl; lia. Qed.

Lemma length_remove_chars p s : length (remove_chars p s) <= length s.
Proof. induction s as [|a s IH]; simpl; [lia|]. destruct (p a); simpl; lia. Qed.

Lemma has_char_lstrip_by c p s :
  has_char c s = false -> has_char c (lstrip_by p s) = false.
Proof.
  induction s as [|a s IH]; simpl; [reflexivity|].
  intros [Ha Hs]%orb_false_iff. destruct (p a); simpl; [auto | now rewrite Ha, Hs].
Qed.

Lemma has_char_remove_chars c p s :
  has_char c s = false -> has_char c (remove_chars p s) = false.
Proof.
  induction s as [|a s IH]; simpl; [reflexivity|].
  intros [Ha Hs]%orb_false_iff. destruct (p a); simpl; [auto | now rewrite Ha, IH].
Qed.

Lemma forallb_remove_chars p s :
  PyStr.forallb (fun c => negb (p c)) (remove_chars p s) = true.
Proof.
  induction s as [|a s IH]; simpl; [reflexivity|].
  destruct (p a) eqn:E; simpl; [exact IH | now rewrite E, IH].
Qed.

Lemma forallb_append p s t :
  PyStr.forallb p (s ++ t) = PyStr.forallb p s && PyStr.forallb p t.
Proof.
  induction s as [|a s IH]; simpl; [reflexivity|]. now rewrite IH, andb_assoc.
Qed.

Lemma remove_chars_id p s :
  PyStr.forallb (fun c => negb (p c)) s = true -> remove_chars p s = s.
Proof.
  induction s as [|a s IH]; simpl; [reflexivity|].
  intros [Ha Hs]%andb_true_iff. apply negb_true_iff in Ha. now rewrite Ha, IH.
Qed.

(** *** The scheme *)

Lemma lower_char_scheme_char c :
  scheme_char c = true -> scheme_char (lower_char c) = true.
Proof.
  destruct c as [[] [] [] [] [] [] [] []]; vm_compute; congruence.
Qed.

Lemma lower_char_ascii_alpha c :
  ascii_alpha c = true -> ascii_alpha (lower_char c) = true.
Proof.
  destruct c as [[] [] [] [] [] [] [] []]; vm_compute; congruence.
Qed.

Lemma lower_char_idem c : lower_char (lower_char c) = lower_char c.
Proof.
  destruct c as [[] [] [] [] [] [] [] []]; vm_compute; congruence.
Qed.

Lemma lower_idem s : lower (lower s) = lower s.
Proof. induction s; simpl; [reflexivity|]. now rewrite lower_char_idem, IHs. Qed.

Lemma forallb_scheme_char_lower s :
  PyStr.forallb scheme_char s = true -> PyStr.forallb scheme_char (lower s) = true.
Proof.
  induction s as [|a s IH]; simpl; [reflexivity|].
  intros [Ha Hs]%andb_true_iff. now rewrite lower_char_scheme_char, IH.
Qed.

(** What [split_scheme] returns: no scheme and the text as it is, or a
    lower-case scheme of scheme characters, which a colon followed. *)
Lemma split_scheme_inv url sch rest :
  split_scheme url = (sch, rest) ->
  (sch = "" /\ rest = url)
  \/ (exists c0 pre, url = String c0 pre ++ String ":" rest
                     /\ sch = lower (String c0 pre)
                     /\ ascii_alpha c0 = true
                     /\ PyStr.forallb scheme_char (String c0 pre) = true).
Proof.
  unfold split_scheme.
  destruct (partition ":" url) as [h [t|]] eqn:P.
  - destruct h as [|c0 pre]; [intros [= <- <-]; now left|].
    destruct (ascii_alpha c0 && PyStr.forallb scheme_char (String c0 pre)) eqn:E.
    + intros [= <- <-]. right. apply andb_true_iff in E as [E1 E2].
      apply partition_some in P as [-> _]. now exists c0, pre.
    + intros [= <- <-]. now left.
  - destruct h; intros [= <- <-]; now left.
Qed.

(** *** The network location *)

Lemma splitnetloc_inv s n r :
  _splitnetloc s = (n, r) ->
  s = n ++ r
  /\ PyStr.forallb (fun c => negb (netloc_delim c)) n = true
  /\ (r = "" \/ exists c r', r = String c r' /\ netloc_delim c = true).
Proof.
  revert n r. induction s as [|a s IH]; simpl; intros n r H.
  - injection H as <- <-. auto.
  - destruct (netloc_delim a) eqn:E.
    + injection H as <- <-. repeat split; eauto.
    + destruct (_splitnetloc s) as [n' r'] eqn:S. injection H as <- <-.
      destruct (IH n' r' eq_refl) as (-> & Hn & Hr). simpl. rewrite E. auto.
Qed.

(** A location free of delimiters, followed by nothing or by a delimiter, is
    split off as it is. *)
Lemma splitnetloc_app n r :
  PyStr.forallb (fun c => negb (netloc_delim c)) n = true ->
  (r = "" \/ exists c r', r = String c r' /\ netloc_delim c = true) ->
  _splitnetloc (n ++ r) = (n, r).
Proof.
  intros Hn Hr. induction n as [|a n IH]; simpl.
  - destruct Hr as [-> | (c & r' & -> & Hc)]; simpl; [reflexivity | now rewrite Hc].
  - simpl in Hn. apply andb_true_iff in Hn as [Ha Hn].
    apply negb_true_iff in Ha. now rewrite Ha, (IH Hn).
Qed.

End UrllibFacts.


(* ------------------------------------------------------------------ *)
(** ** What [urlsplit] and [urlparse] return *)

Module UrlparseFacts.
Import Notions PyStr PyStrFacts Urllib UrllibFacts.

Section WithImpl.
Context {impl : UrllibImpl}.

(** [urlsplit] read backwards: the parts of a result, and how the cleaned
    text is made of them. *)
Lemma urlsplit_inv url r :
  urlsplit url = Ok r ->
  exists rest tail,
    split_scheme (cleaned url) = (s_scheme r, rest)
    /\ ((rest = "//" ++ s_netloc r ++ tail
         /\ PyStr.forallb no_delim (s_netloc r) = true
         /\ starts_delim tail
         /\ check_netloc_brackets (s_netloc r) = Ok tt)
        \/ (s_netloc r = "" /\ tail = rest /\ startswith "//" rest = false))
    /\ s_path r = fst (partition "?" (fst (partition "#" tail)))
    /\ s_fragment r = or_empty (snd (partition "#" tail))
    /\ s_query r = or_empty (snd (partition "?" (fst (partition "#" tail)))).
Proof.
  unfold urlsplit. fold (cleaned url).
  destruct (split_scheme (cleaned url)) as [sch rest] eqn:Hs.
  destruct (startswith "//" rest) eqn:Hss.
  - apply startswith_iff in Hss as [t ->]. cbn [drop append].
    destruct (_splitnetloc t) as [n tail] eqn:Hn.
    apply splitnetloc_inv in Hn as (-> & Hnd & Htail).
    destruct (check_netloc_brackets n) as [[]|e] eqn:Hc; cbn [bind]; [|discriminate].
    destruct (partition "#" tail) as [u f] eqn:Hf.
    destruct (partition "?" u) as [u' q] eqn:Hq.
    intros H. exists ("//" ++ n ++ tail), tail. rewrite Hf. cbn [fst snd]. rewrite Hq.
    destruct f; cbn in H; rewrite Hq in H; destruct q; cbn in H;
      injection H as <-; cbn [s_scheme s_netloc s_path s_query s_fragment fst snd or_empty];
      (split; [reflexivity|]; split; [left; auto|auto]).
  - cbn [bind].
    destruct (partition "#" rest) as [u f] eqn:Hf.
    destruct (partition "?" u) as [u' q] eqn:Hq.
    intros H. exists rest, rest. rewrite Hf. cbn [fst snd]. rewrite Hq.
    destruct f; cbn in H; rewrite Hq in H; destruct q; cbn in H;
      injection H as <-; cbn [s_scheme s_netloc s_path s_query s_fragment fst snd or_empty];
      (split; [reflexivity|]; split; [right; auto|auto]).
Qed.

(** The path of [urlparse] is a prefix of the path of [urlsplit]. *)
Lemma rpartition_some c s h t :
  rpartition c s = Some (h, t) -> s = h ++ String c t.
Proof.
  revert h t. induction s as [|a s IH]; simpl; intros h t H; [discriminate|].
  destruct (rpartition c s) as [[h' t']|] eqn:R.
  - injection H as <- <-. now rewrite (IH h' t' eq_refl).
  - destruct (Ascii.eqb_spec a c); [|discriminate]. injection H as <- <-. now subst.
Qed.

Lemma splitparams_prefix url : exists rest, url = fst (_splitparams url) ++ rest.
Proof.
  unfold _splitparams.
  destruct (rpartition "/" url) as [[h seg]|] eqn:R.
  - apply rpartition_some in R. subst url.
    destruct (partition ";" seg) as [b [a|]] eqn:P; simpl.
    + apply partition_some in P as [-> _]. exists (String ";" a).
      now rewrite !append_assoc.
    + exists "". now rewrite append_empty_r.
  - destruct (partition ";" url) as [b [a|]] eqn:P; simpl.
    + apply partition_some in P as [-> _]. eauto.
    + exists "". now rewrite append_empty_r.
Qed.

Lemma urlparse_inv url p :
  urlparse url = Ok p ->
  exists r rest,
    urlsplit url = Ok r
    /\ scheme p = s_scheme r /\ netloc p = s_netloc r
    /\ query p = s_query r /\ fragment p = s_fragment r
    /\ s_path r = path p ++ rest.
Proof.
  unfold urlparse. destruct (urlsplit url) as [r|e]; cbn [bind]; [|discriminate].
  destruct (existsb (String.eqb (s_scheme r)) uses_params && has_char ";" (s_path r)).
  - destruct (splitparams_prefix (s_path r)) as [rest Hrest].
    destruct (_splitparams (s_path r)) as [u ps]. intros [= <-]. cbn in *.
    exists r, rest. auto 10.
  - intros [= <-]. cbn. exists r, "". rewrite append_empty_r. auto 10.
Qed.

(** [urlsplit] raises exactly when that text fails the check of its brackets. *)
Lemma urlsplit_returns_iff url :
  returns (urlsplit url)
  <-> match netloc_text url with
      | Some n => check_netloc_brackets n = Ok tt
      | None => True
      end.
Proof.
  unfold returns, urlsplit, netloc_text. fold (cleaned url).
  destruct (split_scheme (cleaned url)) as [sch rest].
  destruct (startswith "//" rest).
  - destruct (_splitnetloc (drop 2 rest)) as [n tail]. cbn [fst].
    destruct (check_netloc_brackets n) as [[]|e]; cbn [bind].
    + split; [reflexivity|]. intros _.
      destruct (partition "#" tail) as [u [f|]]; destruct (partition "?" u) as [u' [q|]];
        eauto.
    + split; [intros [a H] | intros H]; discriminate.
  - cbn [bind]. split; [reflexivity|]. intros _.
    destruct (partition "#" rest) as [u [f|]]; destruct (partition "?" u) as [u' [q|]];
      eauto.
Qed.

(** [urlparse] raises exactly when [urlsplit] does. *)
Lemma urlparse_returns_iff url :
  returns (urlparse url) <-> returns (urlsplit url).
Proof.
  unfold returns, urlparse. destruct (urlsplit url) as [r|e]; cbn [bind].
  - split; intros _; [eauto|].
    destruct (existsb _ _ && _); [destruct (_splitparams _)|]; eauto.
  - split; intros [a H]; discriminate.
Qed.

(** The scheme of a result is made of scheme characters. *)
Lemma urlsplit_scheme_chars url r :
  urlsplit url = Ok r -> PyStr.forallb scheme_char (s_scheme r) = true.
Proof.
  intros H. apply urlsplit_inv in H as (rest & tail & Hs & _).
  apply split_scheme_inv in Hs as [[-> _] | (c0 & pre & _ & -> & _ & Hf)];
    [reflexivity | now apply forallb_scheme_char_lower].
Qed.

(** No part before the query holds the mark that opens a query or the one
    that opens a fragment. *)
Lemma urlsplit_netloc_marks url r :
  urlsplit url = Ok r ->
  has_char "?" (s_netloc r) = false /\ has_char "#" (s_netloc r) = false.
Proof.
  intros H. apply urlsplit_inv in H as (rest & tail & _ & [(_ & Hn & _)|(-> & _)] & _);
    [|now split].
  split; apply (has_char_forallb _ no_delim); auto.
Qed.

Lemma urlsplit_path_marks url r :
  urlsplit url = Ok r ->
  has_char "?" (s_path r) = false /\ has_char "#" (s_path r) = false.
Proof.
  intros H. apply urlsplit_inv in H as (rest & tail & _ & _ & -> & _).
  destruct (partition "#" tail) as [u f] eqn:Hf. cbn [fst].
  assert (Hu : has_char "#" u = false).
  { destruct f; [apply partition_some in Hf | apply partition_none in Hf as [-> ?]];
      tauto. }
  destruct (partition "?" u) as [u' q] eqn:Hq. cbn [fst].
  destruct q.
  - apply partition_some in Hq as [-> Hu']. split; [exact Hu'|].
    now apply has_char_prefix in Hu.
  - apply partition_none in Hq as [-> Hu']. now split.
Qed.

(** The cleaned text is no longer than the text, and the parts of a result
    with a network location fit in it, the two slashes included. *)
Lemma urlsplit_length url r :
  urlsplit url = Ok r ->
  s_netloc r <> "" ->
  length (s_scheme r) + 2 + length (s_netloc r) + length (s_path r) <= length url.
Proof.
  intros H Hne.
  apply urlsplit_inv in H as (rest & tail & Hs & Hnet & Hp & _).
  destruct Hnet as [(-> & _ & _ & _) | (E & _)]; [|congruence].
  assert (Hc : length (cleaned url) <= length url).
  { unfold cleaned.
    pose proof (length_remove_chars unsafe_url_byte (lstrip_by c0_control_or_space url)).
    pose proof (length_lstrip_by c0_control_or_space url). lia. }
  assert (Hpath : length (s_path r) <= length tail).
  { rewrite Hp.
    destruct (partition_prefix "#" tail) as [x Hx].
    destruct (partition_prefix "?" (fst (partition "#" tail))) as [y Hy].
    rewrite Hx at 2. rewrite Hy at 2. rewrite !length_append. lia. }
  apply split_scheme_inv in Hs as [[-> Hr] | (c0 & pre & Hu & -> & _)].
  - rewrite <- Hr in Hc. cbn [append length] in Hc. rewrite length_append in Hc.
    cbn [length]. lia.
  - rewrite Hu in Hc. rewrite length_append in Hc. cbn [append length] in Hc.
    rewrite length_append in Hc. rewrite length_lower. cbn [length]. lia.
Qed.

End WithImpl.
End UrlparseFacts.


(* ------------------------------------------------------------------ *)
(** ** The source classifier *)

Module SourceDetectorFacts.
Import Notions PyStr PyStrFacts Urllib UrllibFacts UrlparseFacts SourceDetector.

Section WithImpl.
Context {impl : UrllibImpl}.

Lemma detect_greenhouse_returns_iff url :
  returns (detect_greenhouse url)
  <-> any_pattern GREENHOUSE_PATTERNS (lower url) = true \/ returns (urlparse url).
Proof.
  unfold detect_greenhouse, returns.
  destruct (any_pattern GREENHOUSE_PATTERNS (lower url)).
  - split; eauto.
  - destruct (urlparse url) as [p|e]; cbn [bind].
    + split; [eauto|]. intros _. destruct (dict_has _ _); eauto.
    + split; [intros [a H]; discriminate|].
      intros [H|[a H]]; discriminate.
Qed.

Lemma detect_source_returns_greenhouse url :
  returns (detect_source url) <-> returns (detect_greenhouse url).
Proof.
  unfold detect_source, returns.
  destruct (detect_greenhouse url) as [[]|e]; cbn [bind].
  - split; eauto.
  - split; [eauto|]. intros _.
    destruct (detect_lever url); [|destruct (detect_workday url)]; eauto.
  - split; intros [a H]; discriminate.
Qed.

End WithImpl.

(** C5, as the code has it.  [detect_source] returns a platform tag exactly on
    the strings that match a Greenhouse pattern or that [urlparse] accepts,
    and [urlparse] accepts a string unless the brackets of its network
    location fail the check of [urlsplit]; on every other string
    [detect_source] raises the [ValueError] of [urlparse].  A string that it
    accepts is Generic when no Greenhouse pattern, no [gh_jid] key, no Lever
    pattern and no Workday pattern is found. *)
Theorem detect_source_returns_iff :
  forall (impl : UrllibImpl) (url : string),
    (returns (detect_source url)
     <-> any_pattern GREENHOUSE_PATTERNS (lower url) = true
         \/ returns (urlparse url))
    /\ (returns (urlparse url)
        <-> match netloc_text url with
            | Some n => check_netloc_brackets n = Ok tt
            | None => True
            end)
    /\ (returns (detect_source url) \/ detect_source url = Raise ValueError)
    /\ (detect_source url = Ok generic
        <-> any_pattern GREENHOUSE_PATTERNS (lower url) = false
            /\ (exists p, urlparse url = Ok p
                          /\ dict_has "gh_jid" (parse_qs (query p)) = false)
            /\ detect_lever url = false
            /\ detect_workday url = false).
Proof.
  intros impl url. split; [|split; [|split]].
  - rewrite detect_source_returns_greenhouse. apply detect_greenhouse_returns_iff.
  - rewrite urlparse_returns_iff. apply urlsplit_returns_iff.
  - unfold detect_source, detect_greenhouse, returns.
    destruct (any_pattern GREENHOUSE_PATTERNS (lower url)); cbn [bind]; [eauto|].
    unfold urlparse, urlsplit.
    destruct (split_scheme _) as [sch rest].
    destruct (startswith "//" rest).
    + destruct (_splitnetloc (drop 2 rest)) as [n tail].
      unfold check_netloc_brackets.
      destruct (has_char "[" n), (has_char "]" n); cbn; auto;
        try destruct (bracketed_netloc_ok n); cbn; auto;
        repeat match goal with
               | |- context [match ?x with _ => _ end] => destruct x; cbn
               end; eauto.
    + cbn.
      repeat match goal with
             | |- context [match ?x with _ => _ end] => destruct x; cbn
             end; eauto.
  - unfold detect_source, detect_greenhouse.
    destruct (any_pattern GREENHOUSE_PATTERNS (lower url)); cbn [bind].
    + split; [discriminate | intros [H _]; discriminate].
    + destruct (urlparse url) as [p|e]; cbn [bind].
      * destruct (dict_has "gh_jid" (parse_qs (query p))) eqn:Hd; cbn [bind].
        -- split; [discriminate|].
           intros (_ & (p' & [= <-] & Hd') & _). congruence.
        -- destruct (detect_lever url), (detect_workday url);
             (split; [try discriminate; intros _; eauto 10
                     | try reflexivity; intros (_ & _ & H1 & H2); discriminate]).
      * split; [discriminate|]. intros (_ & (p & H & _) & _). discriminate.
Qed.

(** X2.  The part of C4 that the code keeps.  Whatever the host, a URL is
    Greenhouse when its lower-case form holds [?gh_jid=] or [&gh_jid=]
    followed by a digit, and when its query, parsed, has the key [gh_jid]
    as written. *)
Theorem detect_source_gh_jid_greenhouse :
  forall (impl : UrllibImpl) (url : string),
    (forall pre mark d post,
        qmark_or_amp mark = true -> Regex.digit d = true ->
        lower url = pre ++ String mark ("gh_jid=" ++ String d post) ->
        detect_source url = Ok greenhouse)
    /\ (forall p,
          urlparse url = Ok p ->
          dict_has "gh_jid" (parse_qs (query p)) = true ->
          detect_source url = Ok greenhouse).
Proof.
  intros impl url. split.
  - intros pre mark d post Hm Hd E.
    unfold detect_source, detect_greenhouse.
    assert (S : any_pattern GREENHOUSE_PATTERNS (lower url) = true).
    { unfold any_pattern, GREENHOUSE_PATTERNS. cbn [existsb].
      apply orb_true_iff. right. apply orb_true_iff. right.
      apply orb_true_iff. left.
      apply RegexFacts.search_iff.
      exists pre, (String mark ("gh_jid=" ++ String d "")), post.
      split; [rewrite E; cbn; reflexivity|].
      change (String mark ("gh_jid=" ++ String d ""))
        with (String mark "" ++ ("gh_jid=" ++ String d "")).
      apply m_cat; [now apply m_class|].
      apply m_cat; [apply RegexFacts.matches_lit|].
      now apply RegexFacts.matches_plus_class. }
    now rewrite S.
  - intros p Hp Hd. unfold detect_source, detect_greenhouse.
    destruct (any_pattern GREENHOUSE_PATTERNS (lower url)); [reflexivity|].
    rewrite Hp. cbn [bind]. now rewrite Hd.
Qed.

(** C5, the claim as written fails: a host with an opening bracket and no
    closing one matches no Greenhouse pattern and makes [urlparse] raise. *)
Lemma detect_source_raises_on_open_bracket :
  detect_source (impl := AsciiUrllib.cpython) "http://[" = Raise ValueError.
Proof. reflexivity. Qed.

(** Strings that are no URL at all are Generic. *)
Lemma detect_source_not_a_url :
  detect_source (impl := AsciiUrllib.cpython) "not a url" = Ok generic.
Proof. reflexivity. Qed.

(** C4 (the code departs from the claim).  The [gh_jid] key of the query is
    looked up in the URL as written: in upper case, followed by a value that
    is no number, it is not found, and the URL is Generic.  With a number the
    pattern on the lower-cased URL finds it. *)
Theorem detect_source_upper_case_gh_jid :
  detect_source (impl := AsciiUrllib.cpython)
    "https://careers.example.com/jobs?GH_JID=abc" = Ok generic
  /\ detect_source (impl := AsciiUrllib.cpython)
       "https://careers.example.com/jobs?gh_jid=abc" = Ok greenhouse
  /\ detect_source (impl := AsciiUrllib.cpython)
       "https://careers.example.com/jobs?GH_JID=123" = Ok greenhouse.
Proof. repeat split; reflexivity. Qed.

End SourceDetectorFacts.


(* ------------------------------------------------------------------ *)
(** ** The URL canonicalizer *)

Module UrlResolverFacts.
Import Notions PyStr PyStrFacts Urllib UrllibFacts UrlparseFacts UrlResolver.

(** *** Query dictionaries *)

Lemma dict_item_has key (d : qdict) :
  dict_has key d = true -> exists vs, dict_item key d = Ok vs /\ In (key, vs) d.
Proof.
  induction d as [|[k vs] d IH]; cbn; [discriminate|].
  destruct (String.eqb_spec k key) as [->|Hne]; cbn.
  - intros _. exists vs. auto.
  - intros H. destruct (IH H) as (vs' & -> & Hin). eauto.
Qed.

Lemma dict_append_nonempty name value d :
  nonempty_values d -> nonempty_values (dict_append name value d).
Proof.
  unfold nonempty_values. induction d as [|[k vs] d IH]; cbn; intros Hd k' vs' Hin.
  - destruct Hin as [[= <- <-]|[]]. discriminate.
  - destruct (String.eqb k name); cbn in Hin.
    + destruct Hin as [[= <- <-]|Hin]; [destruct vs; discriminate | eauto].
    + destruct Hin as [[= <- <-]|Hin]; [eauto|].
      apply (IH (fun a b H => Hd a b (or_intror H)) k' vs' Hin).
Qed.

Lemma parse_qs_nonempty {impl : UrllibImpl} qs : nonempty_values (parse_qs qs).
Proof.
  unfold parse_qs.
  assert (G : forall l d, nonempty_values d ->
            nonempty_values
              (fold_left (fun d nv => dict_append (fst nv) (snd nv) d) l d)).
  { induction l as [|nv l IH]; cbn; intros d Hd; [exact Hd|].
    apply IH. now apply dict_append_nonempty. }
  apply G. intros k vs [].
Qed.

(** After [key in d] on a parsed query, [d[key][0]] is there. *)
Lemma first_value {impl : UrllibImpl} key qs :
  dict_has key (parse_qs qs) = true ->
  exists vs v, dict_item key (parse_qs qs) = Ok vs /\ item0 vs = Ok v.
Proof.
  intros H. destruct (dict_item_has _ _ H) as (vs & Hvs & Hin).
  pose proof (parse_qs_nonempty qs _ _ Hin) as Hne.
  destruct vs as [|v vs]; [congruence|]. exists (v :: vs), v. auto.
Qed.

(** *** [re.sub(r'/apply/?$', '', path)] *)

Lemma sub_apply_eq s :
  sub_apply s =
  if String.eqb s "/apply" || String.eqb s "/apply/" then ""
  else if String.eqb s ("/apply" ++ LF) || String.eqb s ("/apply/" ++ LF) then LF
  else match s with
       | "" => ""
       | String c s' => String c (sub_apply s')
       end.
Proof. destruct s; reflexivity. Qed.

(** What a substitution removes is at least the six characters of [/apply]. *)
Lemma sub_apply_length s :
  sub_apply s <> s -> length (sub_apply s) + 6 <= length s.
Proof.
  induction s as [|c s IH]; [intros H; now elim H|].
  rewrite sub_apply_eq.
  destruct (String.eqb_spec (String c s) "/apply") as [->|N1]; [cbn; lia|].
  destruct (String.eqb_spec (String c s) "/apply/") as [->|N2]; [cbn; lia|].
  destruct (String.eqb_spec (String c s) ("/apply" ++ LF)) as [->|N3]; [cbn; lia|].
  destruct (String.eqb_spec (String c s) ("/apply/" ++ LF)) as [->|N4]; [cbn; lia|].
  cbn [orb]. intros H. cbn [length].
  assert (sub_apply s <> s) by congruence. specialize (IH H0). lia.
Qed.

Lemma sub_apply_has_char c s :
  has_char c s = false -> has_char c (sub_apply s) = false.
Proof.
  induction s as [|a s IH]; [reflexivity|].
  rewrite sub_apply_eq.
  destruct (String.eqb_spec (String a s) "/apply") as [->|N1]; [reflexivity|].
  destruct (String.eqb_spec (String a s) "/apply/") as [->|N2]; [reflexivity|].
  destruct (String.eqb_spec (String a s) ("/apply" ++ LF)) as [E|N3].
  { rewrite E. cbn [orb]. intros H. exact (has_char_suffix _ _ _ H). }
  destruct (String.eqb_spec (String a s) ("/apply/" ++ LF)) as [E|N4].
  { rewrite E. cbn [orb]. intros H. exact (has_char_suffix _ _ _ H). }
  cbn. intros [Ha Hs]%orb_false_iff. now rewrite Ha, IH.
Qed.

Section WithImpl.
Context {impl : UrllibImpl}.

(** *** Greenhouse *)

Lemma split_scheme_canonical t :
  split_scheme (cleaned (canonical_prefix ++ t))
  = ("https", "//boards.greenhouse.io/" ++ remove_chars unsafe_url_byte t).
Proof. vm_compute. reflexivity. Qed.

(** A URL that starts with the canonical prefix has the canonical host. *)
Lemma canonical_prefix_netloc t p :
  urlparse (canonical_prefix ++ t) = Ok p -> netloc p = "boards.greenhouse.io".
Proof.
  intros H. apply urlparse_inv in H as (r & rest & H & _ & -> & _).
  apply urlsplit_inv in H as (rest' & tail & Hs & Hn & _).
  rewrite split_scheme_canonical in Hs. injection Hs as _ <-.
  destruct Hn as [(E & Hnd & Htail & _) | (_ & _ & E)]; [|discriminate].
  cbn in E. injection E as E.
  assert (G : forall a n x y,
             PyStr.forallb no_delim a = true -> PyStr.forallb no_delim n = true ->
             a ++ String "/" x = n ++ y -> starts_delim y -> n = a).
  { clear. induction a as [|c a IH]; intros n x y Ha Hn E Hy.
    - destruct n as [|d n]; [reflexivity|]. cbn in E. injection E as <- _.
      cbn in Hn. discriminate.
    - destruct n as [|d n].
      + cbn in E. subst y. destruct Hy as [Hy|(c' & t' & [= <- <-] & Hc)];
          [discriminate|]. cbn in Ha. unfold no_delim in Ha at 1.
        rewrite Hc in Ha. discriminate.
      + cbn in E. injection E as <- E. cbn in Ha, Hn.
        apply andb_true_iff in Ha as [_ Ha]. apply andb_true_iff in Hn as [_ Hn].
        f_equal. eapply IH; eauto. }
  change ("boards.greenhouse.io" ++ String "/" (remove_chars unsafe_url_byte t)
          = s_netloc r ++ tail) in E.
  apply (G "boards.greenhouse.io" (s_netloc r)
           (remove_chars unsafe_url_byte t) tail); auto.
Qed.

Lemma resolve_greenhouse_url_cases url :
  match resolve_greenhouse_url url with
  | Ok (resolved, was_resolved) =>
      (was_resolved = false /\ resolved = url)
      \/ (was_resolved = true
          /\ (exists t, resolved = canonical_prefix ++ t)
          /\ exists p, urlparse url = Ok p
                       /\ contains "boards.greenhouse.io" (lower (netloc p)) = false)
  | Raise _ => raises (urlparse url)
  end.
Proof.
  unfold resolve_greenhouse_url.
  destruct (urlparse url) as [p|e] eqn:Hp; cbn [bind]; [|unfold raises; eauto].
  destruct (contains "boards.greenhouse.io" (lower (netloc p))) eqn:Hc; [left; auto|].
  assert (Hcompany : exists o, _extract_greenhouse_company url (parse_qs (query p)) = Ok o).
  { unfold _extract_greenhouse_company.
    destruct (dict_has "for" (parse_qs (query p))) eqn:Hfor.
    - destruct (first_value _ _ Hfor) as (vs & v & -> & Hv). cbn [bind].
      rewrite Hv. cbn [bind]. eauto.
    - repeat match goal with
             | |- context [match ?x with _ => _ end] => destruct x
             end; eauto. }
  destruct Hcompany as [o Ho].
  destruct (dict_has "gh_jid" (parse_qs (query p))) eqn:Hjid.
  { destruct (first_value _ _ Hjid) as (vs & v & -> & Hv). cbn [bind].
    rewrite Hv. cbn [bind]. rewrite Ho. cbn [bind].
    destruct (truthy_opt o); right; (split; [reflexivity|]);
      (split; [eexists; unfold canonical_prefix; cbn; reflexivity | eauto]). }
  destruct (dict_has "token" (parse_qs (query p)) && contains "greenhouse" (lower url)) eqn:Htok.
  { apply andb_true_iff in Htok as [Htok _].
    destruct (first_value _ _ Htok) as (vs & v & -> & Hv). cbn [bind].
    rewrite Hv. cbn [bind]. right. split; [reflexivity|].
    split; [eexists; unfold canonical_prefix; cbn; reflexivity | eauto]. }
  destruct (Regex.search_group _ _ url); [|left; auto].
  rewrite Ho. cbn [bind].
  destruct (truthy_opt o); [right | left; auto].
  split; [reflexivity|].
  split; [eexists; unfold canonical_prefix; cbn; reflexivity | eauto].
Qed.

(** *** Lever *)

Lemma resolve_lever_url_cases url :
  match resolve_lever_url url with
  | Ok (resolved, was_resolved) =>
      (was_resolved = false /\ resolved = url)
      \/ (was_resolved = true
          /\ exists p, urlparse url = Ok p
                       /\ contains "lever.co" (lower (netloc p)) = true
                       /\ sub_apply (path p) <> path p
                       /\ resolved = scheme p ++ "://" ++ netloc p ++ sub_apply (path p))
  | Raise _ => raises (urlparse url)
  end.
Proof.
  unfold resolve_lever_url.
  destruct (urlparse url) as [p|e] eqn:Hp; cbn [bind]; [|unfold raises; eauto].
  destruct (contains "lever.co" (lower (netloc p))) eqn:Hc; cbn [negb]; [|left; auto].
  destruct (String.eqb_spec (sub_apply (path p)) (path p)) as [E|N]; cbn [negb];
    [left; auto|].
  right. split; [reflexivity|]. exists p. auto.
Qed.

(** The URL that the Lever resolver builds is shorter than the one it read. *)
Lemma lever_clean_url_shorter url p :
  urlparse url = Ok p ->
  contains "lever.co" (lower (netloc p)) = true ->
  sub_apply (path p) <> path p ->
  length (scheme p ++ "://" ++ netloc p ++ sub_apply (path p)) < length url.
Proof.
  intros Hp Hc Hsub.
  apply urlparse_inv in Hp as (r & rest & Hr & Es & En & _ & _ & Epath).
  assert (Hne : s_netloc r <> "").
  { intros E. rewrite En, E in Hc. discriminate. }
  pose proof (urlsplit_length _ _ Hr Hne) as Hlen.
  pose proof (sub_apply_length _ Hsub) as Hsl.
  rewrite Epath, length_append in Hlen.
  rewrite !length_append, Es, En. cbn [length]. lia.
Qed.

End WithImpl.

(** X3.  A URL that starts with [https://boards.greenhouse.io/] is canonical
    already: whatever follows, the Greenhouse resolver returns it unchanged
    and reports no rewrite. *)
Theorem resolve_url_canonical_greenhouse_unchanged :
  forall (impl : UrllibImpl) (t : string),
    resolve_url (canonical_prefix ++ t) greenhouse
    = Ok (canonical_prefix ++ t, false).
Proof.
  intros impl t. cbn [resolve_url]. unfold resolve_greenhouse_url.
  assert (R : returns (urlparse (canonical_prefix ++ t))).
  { apply urlparse_returns_iff, urlsplit_returns_iff. unfold netloc_text.
    rewrite split_scheme_canonical.
    change (startswith "//" ("//boards.greenhouse.io/" ++ remove_chars unsafe_url_byte t))
      with true.
    cbn [drop append].
    change (String "b" _)
      with ("boards.greenhouse.io" ++ String "/" (remove_chars unsafe_url_byte t)).
    rewrite splitnetloc_app; [reflexivity | reflexivity |].
    right. exists "/"%char, (remove_chars unsafe_url_byte t). auto. }
  destruct R as [p Hp]. rewrite Hp. cbn [bind].
  now rewrite (canonical_prefix_netloc _ _ Hp).
Qed.

(** C9.  For every URL and every platform tag, [resolve_url] reports
    [was_resolved = True] exactly when the URL that it returns differs from
    the one it was given, and [False] exactly when it returns that URL as it
    is.  It raises only the error of [urlparse], and only for the Greenhouse
    and Lever tags, which parse the URL. *)
Theorem resolve_url_flag_iff_changed :
  forall (impl : UrllibImpl) (url : string) (source : JobSource),
    match resolve_url url source with
    | Ok (resolved, was_resolved) =>
        (was_resolved = true <-> resolved <> url)
        /\ (was_resolved = false <-> resolved = url)
    | Raise _ => raises (urlparse url) /\ (source = greenhouse \/ source = lever)
    end.
Proof.
  assert (Same : forall u : string,
             (false = true <-> u <> u) /\ (false = false <-> u = u)).
  { intros u. split; split; try reflexivity; [discriminate | intros H; now elim H]. }
  assert (Differ : forall u v : string,
             u <> v -> (true = true <-> u <> v) /\ (true = false <-> u = v)).
  { intros u v N. split; split; try reflexivity; try discriminate; auto.
    intros E. now elim N. }
  intros impl url [| | |]; cbn [resolve_url resolve_workday_url]; [| |apply Same..].
  - pose proof (resolve_greenhouse_url_cases url) as H.
    destruct (resolve_greenhouse_url url) as [[u b]|e]; [|auto].
    destruct H as [[-> ->] | (-> & [t ->] & p & Hp & Hc)]; [apply Same|].
    apply Differ. intros E. rewrite <- E in Hp.
    apply canonical_prefix_netloc in Hp. rewrite Hp in Hc. discriminate.
  - pose proof (resolve_lever_url_cases url) as H.
    destruct (resolve_lever_url url) as [[u b]|e]; [|auto].
    destruct H as [[-> ->] | (-> & p & Hp & Hc & Hsub & ->)]; [apply Same|].
    apply Differ. intros E.
    pose proof (lever_clean_url_shorter url p Hp Hc Hsub) as Hlt.
    rewrite E in Hlt. lia.
Qed.

End UrlResolverFacts.


(* ------------------------------------------------------------------ *)
(** ** Parsing a URL rebuilt from scheme, host and path *)

Module RebuildFacts.
Import Notions PyStr PyStrFacts Urllib UrllibFacts UrlparseFacts UrlResolver UrlResolverFacts.

Lemma is_prefix_refl a : is_prefix a a.
Proof. exists "". now rewrite append_empty_r. Qed.

Lemma is_prefix_trans a b c : is_prefix a b -> is_prefix b c -> is_prefix a c.
Proof. intros [x ->] [y ->]. exists (x ++ y). now rewrite append_assoc. Qed.

Lemma is_prefix_forallb p a b :
  is_prefix a b -> PyStr.forallb p b = true -> PyStr.forallb p a = true.
Proof. intros [x ->]. rewrite forallb_append. now intros [H _]%andb_true_iff. Qed.

Lemma is_prefix_has_char c a b :
  is_prefix a b -> has_char c b = false -> has_char c a = false.
Proof. intros [x ->]. apply has_char_prefix. Qed.

Lemma partition_is_prefix c s : is_prefix (fst (partition c s)) s.
Proof. exact (partition_prefix c s). Qed.

(** Without a line end in it, a path keeps a prefix of itself. *)
Lemma sub_apply_is_prefix s :
  has_char nl s = false -> is_prefix (sub_apply s) s.
Proof.
  induction s as [|a s IH]; [intros _; apply is_prefix_refl|].
  rewrite sub_apply_eq.
  destruct (String.eqb_spec (String a s) "/apply") as [->|N1];
    [intros _; now exists "/apply"|].
  destruct (String.eqb_spec (String a s) "/apply/") as [->|N2];
    [intros _; now exists "/apply/"|].
  destruct (String.eqb_spec (String a s) ("/apply" ++ LF)) as [E|N3].
  { rewrite E. intros H. apply has_char_suffix in H. discriminate. }
  destruct (String.eqb_spec (String a s) ("/apply/" ++ LF)) as [E|N4].
  { rewrite E. intros H. apply has_char_suffix in H. discriminate. }
  cbn [orb has_char]. intros [_ Hs]%orb_false_iff.
  destruct (IH Hs) as [rest Hrest]. exists rest. cbn. now rewrite <- Hrest.
Qed.

Lemma partition_app c h t :
  has_char c h = false -> partition c (h ++ String c t) = (h, Some t).
Proof.
  induction h as [|a h IH]; cbn.
  - intros _. now rewrite Ascii.eqb_refl.
  - intros [Ha Hh]%orb_false_iff. now rewrite Ha, (IH Hh).
Qed.

Lemma alpha_not_c0 c : ascii_alpha c = true -> c0_control_or_space c = false.
Proof. destruct c as [[] [] [] [] [] [] [] []]; vm_compute; congruence. Qed.

Lemma scheme_char_safe c : scheme_char c = true -> safe_byte c = true.
Proof. destruct c as [[] [] [] [] [] [] [] []]; vm_compute; congruence. Qed.

Lemma safe_byte_no_nl s : PyStr.forallb safe_byte s = true -> has_char nl s = false.
Proof. apply has_char_forallb. reflexivity. Qed.

(** A prefix of a text that is empty or starts with one of [/?#], if it holds
    neither [?] nor [#], is empty or starts with a slash. *)
Lemma prefix_starts_delim cp tail :
  is_prefix cp tail -> starts_delim tail ->
  has_char "?" cp = false -> has_char "#" cp = false ->
  starts_delim cp.
Proof.
  intros [rest ->] Ht Hq Hh. destruct cp as [|c cp]; [now left|]. right.
  destruct Ht as [Ht | (c' & t' & [= <- <-] & Hc)]; [discriminate|].
  exists c, cp. auto.
Qed.

Lemma split_scheme_app c0 pre rest :
  ascii_alpha c0 = true ->
  PyStr.forallb scheme_char (String c0 pre) = true ->
  split_scheme (String c0 pre ++ String ":" rest) = (lower (String c0 pre), rest).
Proof.
  intros Ha Hf. unfold split_scheme.
  rewrite partition_app by now apply (has_char_forallb _ scheme_char).
  now rewrite Ha, Hf.
Qed.

Section WithImpl.
Context {impl : UrllibImpl}.

(** The parts that [urlsplit] returned, put together again as
    [scheme://netloc/path], split into the same parts. *)
Lemma urlsplit_rebuilt c0 pre n cp :
  ascii_alpha c0 = true ->
  PyStr.forallb scheme_char (String c0 pre) = true ->
  PyStr.forallb no_delim n = true ->
  check_netloc_brackets n = Ok tt ->
  PyStr.forallb safe_byte n = true ->
  PyStr.forallb safe_byte cp = true ->
  starts_delim cp ->
  has_char "?" cp = false -> has_char "#" cp = false ->
  urlsplit (lower (String c0 pre) ++ "://" ++ n ++ cp)
  = Ok (mkSplit (lower (String c0 pre)) n cp "" "").
Proof.
  intros Ha Hsch Hn Hchk Hsn Hscp Hd Hq Hh.
  set (sch := lower (String c0 pre)).
  assert (Hsch' : PyStr.forallb scheme_char sch = true)
    by now apply forallb_scheme_char_lower.
  assert (Hcolon : has_char ":" sch = false)
    by now apply (has_char_forallb _ scheme_char).
  assert (Hclean : cleaned (sch ++ "://" ++ n ++ cp) = sch ++ "://" ++ n ++ cp).
  { unfold cleaned.
    replace (lstrip_by c0_control_or_space (sch ++ "://" ++ n ++ cp))
      with (sch ++ "://" ++ n ++ cp).
    - apply remove_chars_id. fold safe_byte.
      assert (Hs1 : PyStr.forallb safe_byte sch = true)
        by (apply (forallb_weaken scheme_char); auto using scheme_char_safe).
      rewrite !forallb_append, Hs1, Hsn, Hscp. reflexivity.
    - unfold sch. cbn [lower append lstrip_by].
      now rewrite (alpha_not_c0 _ (lower_char_ascii_alpha _ Ha)). }
  unfold urlsplit. fold (cleaned (sch ++ "://" ++ n ++ cp)). rewrite Hclean.
  assert (Hss : split_scheme (sch ++ "://" ++ n ++ cp) = (sch, "//" ++ n ++ cp)).
  { unfold sch. cbn [lower].
    change (String (lower_char c0) (lower pre) ++ "://" ++ n ++ cp)
      with (String (lower_char c0) (lower pre) ++ String ":" ("//" ++ n ++ cp)).
    rewrite split_scheme_app.
    - cbn [lower]. now rewrite lower_char_idem, lower_idem.
    - now apply lower_char_ascii_alpha.
    - exact Hsch'. }
  rewrite Hss.
  change (startswith "//" ("//" ++ n ++ cp)) with true. cbn [drop append].
  rewrite (splitnetloc_app _ _ Hn Hd), Hchk. cbn [bind].
  now rewrite (partition_absent _ _ Hh), (partition_absent _ _ Hq).
Qed.

End WithImpl.
End RebuildFacts.


(* ------------------------------------------------------------------ *)
(** ** The Lever canonicalizer *)

Module LeverFacts.
Import Notions PyStr PyStrFacts Urllib UrllibFacts UrlparseFacts UrlResolver UrlResolverFacts RebuildFacts.

Section WithImpl.
Context {impl : UrllibImpl}.

(** A text without [?] and [#] parses to an empty query and fragment. *)
Lemma urlsplit_no_marks u r :
  has_char "?" u = false -> has_char "#" u = false ->
  urlsplit u = Ok r -> s_query r = "" /\ s_fragment r = "".
Proof.
  intros Hq Hh H.
  apply urlsplit_inv in H as (rest & tail & Hs & Hnet & _ & -> & ->).
  assert (Hc : forall c, has_char c u = false -> has_char c tail = false).
  { intros c Hu.
    assert (Hcl : has_char c (cleaned u) = false)
      by (unfold cleaned; now apply has_char_remove_chars, has_char_lstrip_by).
    assert (Hrest : has_char c rest = false).
    { apply split_scheme_inv in Hs as [[_ ->] | (c0 & pre & E & _)]; [exact Hcl|].
      rewrite E in Hcl. apply has_char_suffix in Hcl. cbn in Hcl.
      now apply orb_false_iff in Hcl as [_ Hcl]. }
    destruct Hnet as [(E & _) | (_ & -> & _)]; [|exact Hrest].
    rewrite E in Hrest. now apply has_char_suffix, has_char_suffix in Hrest. }
  rewrite (partition_absent _ _ (Hc _ Hh)). cbn [fst snd].
  now rewrite (partition_absent _ _ (Hc _ Hq)).
Qed.

(** A text that starts with [://] has no scheme and no network location. *)
Lemma urlparse_colon_slashes x :
  exists p, urlparse ("://" ++ x) = Ok p /\ netloc p = "".
Proof.
  assert (Hs : exists r, urlsplit ("://" ++ x) = Ok r /\ s_netloc r = "").
  { unfold urlsplit.
    change (remove_chars unsafe_url_byte (lstrip_by c0_control_or_space ("://" ++ x)))
      with ("://" ++ remove_chars unsafe_url_byte x).
    change (split_scheme ("://" ++ remove_chars unsafe_url_byte x))
      with ("", "://" ++ remove_chars unsafe_url_byte x).
    cbn [startswith append Ascii.eqb Bool.eqb andb bind].
    destruct (partition "#" _) as [u [f|]]; destruct (partition "?" u) as [u' [q|]];
      eexists; split; reflexivity. }
  destruct Hs as (r & Hr & Hn). unfold urlparse. rewrite Hr. cbn [bind].
  destruct (existsb _ _ && _); [destruct (_splitparams _)|]; eexists; split;
    try reflexivity; exact Hn.
Qed.

Lemma resolve_lever_url_colon_slashes x :
  resolve_lever_url ("://" ++ x) = Ok ("://" ++ x, false).
Proof.
  unfold resolve_lever_url.
  destruct (urlparse_colon_slashes x) as (p & -> & Hn). cbn [bind].
  now rewrite Hn.
Qed.

End WithImpl.

(** C10.  When [resolve_lever_url] reports a rewrite, the URL that it returns
    is the scheme, ["://"], the network location and the trimmed path of the
    URL that it read, and nothing else: it holds neither [?] nor [#], and if
    parsed again its query and its fragment are empty. *)
Theorem resolve_lever_url_drops_query_and_fragment :
  forall (impl : UrllibImpl) (url resolved : string),
    resolve_lever_url url = Ok (resolved, true) ->
    exists p,
      urlparse url = Ok p
      /\ sub_apply (path p) <> path p
      /\ resolved = scheme p ++ "://" ++ netloc p ++ sub_apply (path p)
      /\ has_char "?" resolved = false
      /\ has_char "#" resolved = false
      /\ forall p', urlparse resolved = Ok p' -> query p' = "" /\ fragment p' = "".
Proof.
  intros impl url resolved H.
  pose proof (resolve_lever_url_cases url) as Hc. rewrite H in Hc.
  destruct Hc as [[Hf _] | (_ & p & Hp & Hl & Hsub & ->)]; [discriminate|].
  exists p. split; [exact Hp|]. split; [exact Hsub|]. split; [reflexivity|].
  assert (Hmarks : forall c, scheme_char c = false -> netloc_delim c = true ->
                    Ascii.eqb ":" c = false -> Ascii.eqb "/" c = false ->
                    (c = "?"%char \/ c = "#"%char) ->
                    has_char c (scheme p ++ "://" ++ netloc p ++ sub_apply (path p))
                    = false).
  { intros c Hsc Hd Hcolon Hslash Hc.
    apply urlparse_inv in Hp as (r & rest & Hr & -> & -> & _ & _ & Epath).
    rewrite !has_char_append.
    rewrite (has_char_forallb c scheme_char _ Hsc (urlsplit_scheme_chars _ _ Hr)).
    cbn [has_char]. rewrite Hcolon, Hslash. cbn [orb].
    destruct (urlsplit_netloc_marks _ _ Hr) as [Hn1 Hn2].
    destruct (urlsplit_path_marks _ _ Hr) as [Hp1 Hp2].
    rewrite Epath in Hp1, Hp2. apply has_char_prefix in Hp1, Hp2.
    destruct Hc as [-> | ->].
    - rewrite Hn1. now apply sub_apply_has_char.
    - rewrite Hn2. now apply sub_apply_has_char. }
  assert (Hq : has_char "?" (scheme p ++ "://" ++ netloc p ++ sub_apply (path p)) = false)
    by (apply Hmarks; auto).
  assert (Hh : has_char "#" (scheme p ++ "://" ++ netloc p ++ sub_apply (path p)) = false)
    by (apply Hmarks; auto).
  split; [exact Hq|]. split; [exact Hh|].
  intros p' Hp'. apply urlparse_inv in Hp' as (r' & _ & Hr' & _ & _ & -> & -> & _).
  exact (urlsplit_no_marks _ _ Hq Hh Hr').
Qed.

(** C10 at a URL with a query and a fragment. *)
Lemma resolve_lever_url_drops_query_example :
  exists p,
    urlparse (impl := AsciiUrllib.cpython)
      "https://jobs.lever.co/acme/uuid/apply/?utm=mail#top" = Ok p
    /\ sub_apply (path p) <> path p
    /\ "https://jobs.lever.co/acme/uuid"
       = scheme p ++ "://" ++ netloc p ++ sub_apply (path p)
    /\ has_char "?" "https://jobs.lever.co/acme/uuid" = false
    /\ has_char "#" "https://jobs.lever.co/acme/uuid" = false
    /\ forall p', urlparse (impl := AsciiUrllib.cpython)
                    "https://jobs.lever.co/acme/uuid" = Ok p' ->
                  query p' = "" /\ fragment p' = "".
Proof.
  apply (resolve_lever_url_drops_query_and_fragment AsciiUrllib.cpython
           "https://jobs.lever.co/acme/uuid/apply/?utm=mail#top").
  vm_compute. reflexivity.
Defined.

(** What [re.sub(r'/apply/?$', '', path)] removes from a path without line
    ends, when it removes something: one apply segment, at the end. *)
Lemma sub_apply_inv s :
  has_char nl s = false -> sub_apply s <> s ->
  MoreNotions.apply_segment_after (sub_apply s) s.
Proof.
  unfold MoreNotions.apply_segment_after.
  induction s as [|c s IH]; [intros _ H; now elim H|].
  rewrite sub_apply_eq.
  destruct (String.eqb_spec (String c s) "/apply") as [->|N1]; [intros _ _; now left|].
  destruct (String.eqb_spec (String c s) "/apply/") as [->|N2]; [intros _ _; now right|].
  destruct (String.eqb_spec (String c s) ("/apply" ++ LF)) as [E|N3];
    [rewrite E; discriminate|].
  destruct (String.eqb_spec (String c s) ("/apply/" ++ LF)) as [E|N4];
    [rewrite E; discriminate|].
  cbn [orb has_char]. intros [_ Hs]%orb_false_iff Hne.
  assert (Hne' : sub_apply s <> s) by (intros E; apply Hne; now rewrite E).
  destruct (IH Hs Hne') as [E | E]; [left | right]; cbn [append]; now rewrite <- E.
Qed.

Lemma sub_apply_fixed s :
  has_char nl s = false ->
  (forall base, ~ MoreNotions.apply_segment_after base s) ->
  sub_apply s = s.
Proof.
  intros Hs Hno. destruct (string_dec (sub_apply s) s) as [E|N]; [exact E|].
  elim (Hno _ (sub_apply_inv s Hs N)).
Qed.

(** C6, as the code has it.  One call strips one trailing [/apply] or
    [/apply/].  When the path of the URL has at most one such segment at its
    end, and no [;] before it, the function applied to its own result
    returns that result unchanged. *)
Theorem resolve_lever_url_idempotent_on_single_apply :
  forall (impl : UrllibImpl) (url resolved : string) (was_resolved : bool),
    resolve_lever_url url = Ok (resolved, was_resolved) ->
    (forall p, urlparse url = Ok p -> MoreNotions.single_apply (path p)) ->
    resolve_lever_url resolved = Ok (resolved, false).
Proof.
  intros impl url resolved b H Hsingle.
  pose proof (resolve_lever_url_cases url) as Hc. rewrite H in Hc.
  destruct Hc as [[-> ->] | (-> & p & Hp & Hl & Hsub & ->)]; [exact H|].
  pose proof (Hsingle p Hp) as Hone. clear Hsingle.
  apply urlparse_inv in Hp as (r & rest & Hr & Es & En & _ & _ & Epath).
  rewrite Es, En. rewrite En in Hl.
  pose proof (urlsplit_path_marks _ _ Hr) as [Hpq Hph].
  apply urlsplit_inv in Hr as (rest' & tail & Hs & Hnet & Hpath & _).
  destruct Hnet as [(Erest & Hnd & Htail & Hchk) | (E & _)];
    [|rewrite E in Hl; discriminate].
  (* the parts are free of tabs and line ends *)
  assert (Hsafe : PyStr.forallb safe_byte (cleaned url) = true)
    by apply forallb_remove_chars.
  assert (Hsafe' : PyStr.forallb safe_byte rest' = true).
  { apply split_scheme_inv in Hs as [[_ ->] | (c0 & pre & E & _)]; [exact Hsafe|].
    rewrite E, forallb_append in Hsafe.
    apply andb_true_iff in Hsafe as [_ Hsafe]. cbn [PyStr.forallb] in Hsafe.
    now apply andb_true_iff in Hsafe as [_ Hsafe]. }
  rewrite Erest in Hsafe'.
  change ("//" ++ s_netloc r ++ tail) with (String "/" (String "/" (s_netloc r ++ tail)))
    in Hsafe'.
  cbn [PyStr.forallb] in Hsafe'. rewrite forallb_append in Hsafe'.
  apply andb_true_iff in Hsafe' as [_ Hsafe'].
  apply andb_true_iff in Hsafe' as [_ Hsafe'].
  apply andb_true_iff in Hsafe' as [Hsn Hst].
  (* the trimmed path is a prefix of what followed the network location *)
  assert (Hpt : is_prefix (path p) tail).
  { apply (is_prefix_trans _ (s_path r)); [now exists rest|].
    rewrite Hpath.
    eapply is_prefix_trans; apply partition_is_prefix. }
  assert (Hsp : PyStr.forallb safe_byte (path p) = true)
    by exact (is_prefix_forallb _ _ _ Hpt Hst).
  assert (Hcp : is_prefix (sub_apply (path p)) (path p))
    by now apply sub_apply_is_prefix, safe_byte_no_nl.
  (* one apply segment was removed, and none is left *)
  destruct (Hone _ (sub_apply_inv _ (safe_byte_no_nl _ Hsp) Hsub)) as [Hsemi Hlast].
  set (cp := sub_apply (path p)) in *.
  assert (Hscp : PyStr.forallb safe_byte cp = true)
    by exact (is_prefix_forallb _ _ _ Hcp Hsp).
  assert (Hfixed : sub_apply cp = cp)
    by exact (sub_apply_fixed _ (safe_byte_no_nl _ Hscp) Hlast).
  rewrite Epath in Hpq, Hph. apply has_char_prefix in Hpq, Hph.
  assert (Hq : has_char "?" cp = false) by exact (is_prefix_has_char _ _ _ Hcp Hpq).
  assert (Hh : has_char "#" cp = false) by exact (is_prefix_has_char _ _ _ Hcp Hph).
  assert (Hd : starts_delim cp).
  { apply (prefix_starts_delim cp tail); auto.
    exact (is_prefix_trans _ _ _ Hcp Hpt). }
  apply split_scheme_inv in Hs as [[-> _] | (c0 & pre & _ & -> & Ha & Hf)].
  - apply resolve_lever_url_colon_slashes.
  - (* the result parses to the same network location and to the trimmed path *)
    unfold resolve_lever_url, urlparse.
    rewrite (urlsplit_rebuilt c0 pre (s_netloc r) cp Ha Hf Hnd Hchk Hsn Hscp Hd Hq Hh).
    cbn [bind s_path s_scheme s_netloc s_query s_fragment].
    rewrite Hsemi, andb_false_r. cbn [bind netloc path].
    rewrite Hl. cbn [negb]. now rewrite Hfixed, String.eqb_refl.
Qed.

(** The parts of a text that ends with a known text. *)
Lemma append_tail_inv (s base t : string) :
  s = base ++ t -> drop (length s - length t) s = t.
Proof.
  intros ->. rewrite length_append.
  replace (length base + length t - length t) with (length base) by lia.
  induction base as [|c base IH]; [reflexivity | exact IH].
Qed.

Lemma append_head_inv (s base t : string) :
  s = base ++ t -> base = PyStrMore.take (length s - length t) s.
Proof.
  intros ->. rewrite length_append.
  replace (length base + length t - length t) with (length base) by lia.
  induction base as [|c base IH]; cbn; [now destruct t | now rewrite <- IH].
Qed.

(** C6 on the URL of the test suite: once stripped, it stays. *)
Lemma resolve_lever_url_idempotent_example :
  resolve_lever_url (impl := AsciiUrllib.cpython) "https://jobs.lever.co/company/uuid"
  = Ok ("https://jobs.lever.co/company/uuid", false).
Proof.
  apply (resolve_lever_url_idempotent_on_single_apply AsciiUrllib.cpython
           "https://jobs.lever.co/company/uuid/apply/" _ true).
  - vm_compute. reflexivity.
  - intros p Hp. vm_compute in Hp. injection Hp as <-. cbn [path].
    intros base [E | E].
    + apply append_tail_inv in E. vm_compute in E. discriminate E.
    + pose proof (append_head_inv _ _ _ E) as Eb. vm_compute in Eb.
      subst base. split; [reflexivity|].
      intros base' [E' | E']; apply append_tail_inv in E'; vm_compute in E';
        discriminate E'.
Defined.

(** C6, the claim as written fails: of two trailing [/apply] segments each
    call strips one. *)
Lemma resolve_lever_url_strips_again :
  resolve_lever_url (impl := AsciiUrllib.cpython) "https://jobs.lever.co/acme/apply/apply"
  = Ok ("https://jobs.lever.co/acme/apply", true)
  /\ resolve_lever_url (impl := AsciiUrllib.cpython) "https://jobs.lever.co/acme/apply"
     = Ok ("https://jobs.lever.co/acme", true).
Proof. split; vm_compute; reflexivity. Qed.

(** Why the theorem asks for a path without [;]: the second parse takes a
    [;] of the last segment for the start of the parameters, and what is
    left of the path can end with [/apply] again. *)
Lemma resolve_lever_url_semicolon :
  resolve_lever_url (impl := AsciiUrllib.cpython) "https://jobs.lever.co/a/apply;/apply"
  = Ok ("https://jobs.lever.co/a/apply;", true)
  /\ resolve_lever_url (impl := AsciiUrllib.cpython) "https://jobs.lever.co/a/apply;"
     = Ok ("https://jobs.lever.co/a", true).
Proof. split; vm_compute; reflexivity. Qed.

(** C9 at a Greenhouse URL of the test suite. *)
Lemma resolve_url_examples :
  resolve_url (impl := AsciiUrllib.cpython)
    "https://careers.example.com?gh_jid=12345" greenhouse
  = Ok ("https://boards.greenhouse.io/embed/job_app?token=12345", true)
  /\ resolve_url (impl := AsciiUrllib.cpython)
       "https://careers.example.com/jobs/12345" generic
     = Ok ("https://careers.example.com/jobs/12345", false).
Proof. split; vm_compute; reflexivity. Qed.

End LeverFacts.


(* ------------------------------------------------------------------ *)
(** ** The structured-data extractor *)

Module HtmlParserFacts.
Import Notions PyStr PyVal HtmlParser.

(** *** Normalisation *)

Lemma normalize_fields_truthy d r :
  _normalize_job_posting d = Ok r ->
  Forall (fun kv => truthy (snd kv) = true) r.
Proof.
  unfold _normalize_job_posting.
  destruct (_extract_location d) as [loc|e]; cbn [bind]; [|discriminate].
  destruct (_extract_salary d) as [sal|e]; cbn [bind]; [|discriminate].
  match goal with
  | |- Ok (filter ?f ?l) = Ok r -> _ => generalize l
  end.
  intros l H. injection H as <-. apply Forall_forall. intros kv Hin.
  now apply filter_In in Hin as [_ H].
Qed.

(** *** The test on one item *)

Lemma is_job_posting_not_dict item :
  (forall d, item <> JDict d) -> _is_job_posting item = Ok false.
Proof. destruct item; intros H; try reflexivity. now elim (H d). Qed.

Lemma is_job_posting_true_dict item :
  _is_job_posting item = Ok true -> exists d, item = JDict d.
Proof. destruct item; try discriminate. eauto. Qed.

Lemma get_default_cases key a b d :
  get_default key a d = get_default key b d
  \/ (get_default key a d = a /\ get_default key b d = b).
Proof.
  induction d as [|[k v] d IH]; cbn; [auto|].
  destruct (String.eqb k key); auto.
Qed.

Lemma any_contains_plain s ts :
  List.forallb (fun t => match t with JStr _ => true | _ => false end) ts = true ->
  any_contains s ts
  = Ok (existsb (fun t => match t with JStr x => contains s x | _ => false end) ts).
Proof.
  induction ts as [|t ts IH]; cbn; [reflexivity|].
  destruct t; cbn; try discriminate.
  intros H. destruct (contains s s0); cbn; [reflexivity | exact (IH H)].
Qed.

(** When the [@type] is plain, the test raises nothing and says what the
    claim's words say. *)
Lemma is_job_posting_plain item :
  type_is_plain item = true ->
  _is_job_posting item = Ok (type_contains_job_posting item).
Proof.
  destruct item as [| | | | | |d]; try reflexivity.
  unfold type_is_plain, _is_job_posting, type_contains_job_posting, get.
  destruct (get_default_cases "@type" (JStr "") JNull d) as [E | [E1 E2]].
  - rewrite E. destruct (get_default "@type" JNull d) as [| | | | |ts|]; try reflexivity.
    apply any_contains_plain.
  - rewrite E1, E2. reflexivity.
Qed.

(** *** The loop over the items of a block *)

Lemma scan_items_found items r :
  scan_items items = Ok (Some r) ->
  exists d, In (JDict d) items
            /\ _is_job_posting (JDict d) = Ok true
            /\ _normalize_job_posting d = Ok r.
Proof.
  induction items as [|item items IH]; cbn [scan_items]; [discriminate|].
  destruct (_is_job_posting item) as [[]|e] eqn:E; cbn [bind]; [| |discriminate].
  - destruct item; try discriminate.
    destruct (_normalize_job_posting d) as [r'|e] eqn:N; cbn [bind]; [|discriminate].
    intros [= <-]. exists d. cbn. auto.
  - intros H. destruct (IH H) as (d & Hin & Hd). exists d. cbn. auto.
Qed.

Lemma scan_items_none items :
  (forall item, In item items -> _is_job_posting item <> Ok true) ->
  yields_nothing (scan_items items).
Proof.
  induction items as [|item items IH]; cbn [scan_items]; intros H; [now left|].
  destruct (_is_job_posting item) as [[]|e] eqn:E; cbn [bind].
  - elim (H item); cbn; auto.
  - apply IH. intros i Hi. apply H. cbn. auto.
  - right. eauto.
Qed.

(** With plain types, the loop returns the normalisation of the first item
    whose type contains "JobPosting". *)
Lemma scan_items_plain items :
  Forall (fun i => type_is_plain i = true) items ->
  match find type_contains_job_posting items with
  | Some item =>
      exists d, item = JDict d
                /\ scan_items items
                   = (do r <- _normalize_job_posting d; Ok (Some r))
  | None => scan_items items = Ok None
  end.
Proof.
  induction 1 as [|item items Hp _ IH]; cbn [find scan_items]; [reflexivity|].
  rewrite (is_job_posting_plain _ Hp). cbn [bind].
  destruct (type_contains_job_posting item) eqn:E; [|exact IH].
  destruct item; try discriminate. eauto.
Qed.

Lemma chars_not_job_posting s item :
  In item (chars_of s) -> _is_job_posting item = Ok false.
Proof.
  induction s as [|c s IH]; cbn; [tauto|]. intros [<-|H]; auto.
Qed.

(** What [for item in data['@graph']] visits when the value is no array
    holds no JobPosting. *)
Lemma scan_graph_not_list d :
  (forall l, get "@graph" d <> JList l) ->
  yields_nothing (do items <- iterate (get "@graph" d); scan_items items).
Proof.
  intros H. destruct (get "@graph" d) as [| | | |s|l|d'] eqn:E; cbn [iterate bind];
    try (right; eauto; fail).
  - apply scan_items_none. intros item Hin. now rewrite (chars_not_job_posting s).
  - now elim (H l).
  - apply scan_items_none. intros item Hin.
    apply in_map_iff in Hin as (kv & <- & _). discriminate.
Qed.

(** *** One block *)

Lemma scan_data_found data r :
  scan_data data = Ok (Some r) ->
  exists d, In (JDict d) (block_items data)
            /\ _is_job_posting (JDict d) = Ok true
            /\ _normalize_job_posting d = Ok r.
Proof.
  destruct data as [| | | | |items|d]; cbn [scan_data block_items]; try discriminate.
  - apply scan_items_found.
  - destruct (_is_job_posting (JDict d)) as [[]|e] eqn:E; cbn [bind]; [| |discriminate].
    + destruct (_normalize_job_posting d) as [r'|e] eqn:N; cbn [bind]; [|discriminate].
      intros [= <-]. exists d. cbn. auto.
    + destruct (dict_in "@graph" d); [|discriminate].
      destruct (get "@graph" d) as [| | | |s|l|d'] eqn:G; cbn [iterate bind];
        try discriminate.
      * intros H. apply scan_items_found in H as (x & Hin & Hx & _).
        rewrite (chars_not_job_posting s _ Hin) in Hx. discriminate.
      * intros H. apply scan_items_found in H as (x & Hin & Hx). exists x. cbn. auto.
      * intros H. apply scan_items_found in H as (x & Hin & _).
        apply in_map_iff in Hin as (kv & Hkv & _). discriminate.
Qed.

Lemma scan_data_none data :
  (forall item, In item (block_items data) -> _is_job_posting item <> Ok true) ->
  yields_nothing (scan_data data).
Proof.
  destruct data as [| | | | |items|d]; cbn [scan_data block_items]; intros H;
    try (now left).
  - now apply scan_items_none.
  - destruct (_is_job_posting (JDict d)) as [[]|e] eqn:E; cbn [bind].
    + elim (H (JDict d)); cbn; auto.
    + destruct (dict_in "@graph" d); [|now left].
      destruct (get "@graph" d) as [| | | |s|l|d'] eqn:G;
        try (rewrite <- G; apply scan_graph_not_list; rewrite G; discriminate).
      cbn [iterate bind]. apply scan_items_none. intros i Hi. apply H. cbn. auto.
    + right. eauto.
Qed.

Lemma scan_data_plain data :
  Forall (fun i => type_is_plain i = true) (block_items data) ->
  match find type_contains_job_posting (block_items data) with
  | Some item =>
      exists d, item = JDict d
                /\ scan_data data = (do r <- _normalize_job_posting d; Ok (Some r))
  | None => yields_nothing (scan_data data)
  end.
Proof.
  destruct data as [| | | | |items|d]; cbn [scan_data block_items];
    try (intros _; now left).
  - intros H. pose proof (scan_items_plain items H) as S.
    destruct (find type_contains_job_posting items); [exact S | now left].
  - intros H. inversion H as [|? ? Hd Hg]; subst.
    cbn [find]. rewrite (is_job_posting_plain _ Hd). cbn [bind].
    destruct (type_contains_job_posting (JDict d)) eqn:E; [eauto|].
    destruct (get "@graph" d) as [| | | |s|l|d'] eqn:G; cbn [find];
      try (destruct (dict_in "@graph" d); [|now left];
           rewrite <- G; apply scan_graph_not_list; rewrite G; discriminate).
    pose proof (scan_items_plain l Hg) as S.
    destruct (find type_contains_job_posting l) as [item|].
    + destruct S as (d0 & -> & S). exists d0. split; [reflexivity|].
      destruct (dict_in "@graph" d) eqn:I; [exact S|].
      exfalso. clear - G I. unfold get in G.
      induction d as [|[k v] d IH]; cbn in *; [discriminate|].
      destruct (String.eqb k "@graph"); [discriminate | auto].
    + destruct (dict_in "@graph" d); [|now left]. cbn [iterate bind]. now left.
Qed.

(** *** The loop over the script tags *)

Section WithImpl.
Context {impl : HtmlImpl}.

Lemma scan_script_cases content :
  (parsed_block content = [] /\ yields_nothing (scan_script content))
  \/ (exists data, parsed_block content = [data]
                   /\ scan_script content = scan_data data).
Proof.
  destruct content as [text|]; [|left; split; [reflexivity | now left]].
  destruct text as [|c text]; [left; split; [reflexivity | now left]|].
  unfold parsed_block, scan_script.
  destruct (json_loads (String c text)) as [data|e]; cbn [bind].
  - right. eauto.
  - left. split; [reflexivity | right; eauto].
Qed.

Lemma scan_scripts_skip tag rest :
  yields_nothing (scan_script tag) -> scan_scripts (tag :: rest) = scan_scripts rest.
Proof. cbn [scan_scripts]. now intros [-> | [e ->]]. Qed.

Lemma scan_scripts_returns tags : returns (scan_scripts tags).
Proof.
  induction tags as [|tag tags IH]; cbn [scan_scripts]; [now exists None|].
  destruct (scan_script tag) as [[r|]|e]; auto. now exists (Some r).
Qed.

Lemma scan_scripts_app a b :
  scan_scripts (a ++ b)
  = match scan_scripts a with
    | Ok (Some r) => Ok (Some r)
    | _ => scan_scripts b
    end.
Proof.
  induction a as [|tag a IH]; cbn [scan_scripts app]; [reflexivity|].
  destruct (scan_script tag) as [[r|]|e]; auto.
Qed.

Lemma scan_scripts_found tags r :
  scan_scripts tags = Ok (Some r) ->
  exists data d,
    In data (flat_map parsed_block tags)
    /\ In (JDict d) (block_items data)
    /\ _is_job_posting (JDict d) = Ok true
    /\ _normalize_job_posting d = Ok r.
Proof.
  induction tags as [|tag tags IH]; cbn [scan_scripts flat_map]; [discriminate|].
  destruct (scan_script_cases tag) as [[E [N | [e N]]] | (data & E & S)].
  - rewrite N, E. exact IH.
  - rewrite N, E. exact IH.
  - rewrite S, E. destruct (scan_data data) as [[r'|]|e] eqn:D.
    + intros [= <-]. apply scan_data_found in D as (d & Hd).
      exists data, d. cbn. tauto.
    + intros H. destruct (IH H) as (x & d & Hin & Hd). exists x, d. cbn. tauto.
    + intros H. destruct (IH H) as (x & d & Hin & Hd). exists x, d. cbn. tauto.
Qed.

Lemma scan_scripts_none tags :
  (forall data item,
      In data (flat_map parsed_block tags) -> In item (block_items data) ->
      _is_job_posting item <> Ok true) ->
  scan_scripts tags = Ok None.
Proof.
  induction tags as [|tag tags IH]; cbn [flat_map]; intros H; [reflexivity|].
  destruct (scan_script_cases tag) as [[E N] | (data & E & S)].
  - rewrite (scan_scripts_skip _ _ N). apply IH. intros data item Hd.
    apply H. apply in_or_app. now right.
  - rewrite scan_scripts_skip.
    + apply IH. intros x item Hx. apply H. apply in_or_app. now right.
    + rewrite S. apply scan_data_none. intros item. apply H.
      apply in_or_app. left. rewrite E. cbn. auto.
Qed.

Lemma find_app (A : Type) (f : A -> bool) (l1 l2 : list A) :
  find f (l1 ++ l2)
  = match find f l1 with
    | Some x => Some x
    | None => find f l2
    end.
Proof.
  induction l1 as [|a l1 IH]; cbn; [reflexivity|]. destruct (f a); auto.
Qed.

Lemma scan_scripts_plain tags :
  all_types_plain (flat_map parsed_block tags) ->
  match first_job_posting (flat_map parsed_block tags) with
  | Some item =>
      exists d, item = JDict d
                /\ forall r, _normalize_job_posting d = Ok r ->
                             scan_scripts tags = Ok (Some r)
  | None => scan_scripts tags = Ok None
  end.
Proof.
  unfold all_types_plain, first_job_posting.
  induction tags as [|tag tags IH]; cbn [flat_map]; [reflexivity|].
  destruct (scan_script_cases tag) as [[E N] | (data & E & S)]; rewrite E.
  - cbn [app]. intros H. rewrite (scan_scripts_skip _ _ N). exact (IH H).
  - cbn [app flat_map]. intros H. inversion H as [|? ? Hd Hrest]; subst.
    rewrite find_app. pose proof (scan_data_plain data Hd) as P.
    destruct (find type_contains_job_posting (block_items data)) as [item|].
    + destruct P as (d & -> & P). exists d. split; [reflexivity|].
      intros r Hr. cbn [scan_scripts]. now rewrite S, P, Hr.
    + rewrite scan_scripts_skip by now rewrite S. exact (IH Hrest).
Qed.

End WithImpl.

(** *** The claims *)

(** C1, as the code has it.  A record that [extract_schema_job_posting]
    returns is the normalisation of an item that it took for a JobPosting, and
    every field present in the record is non-empty; nothing asks for a title,
    a description or a company. *)
Theorem extract_schema_job_posting_fields_non_empty :
  forall (impl : HtmlImpl) (html : string) (r : posting),
    extract_schema_job_posting html = Ok (Some r) ->
    Forall (fun kv => truthy (snd kv) = true) r
    /\ exists data d,
         In data (parsed_blocks html)
         /\ In (JDict d) (block_items data)
         /\ _is_job_posting (JDict d) = Ok true
         /\ _normalize_job_posting d = Ok r.
Proof.
  intros impl html r H. unfold extract_schema_job_posting in H. unfold parsed_blocks.
  destruct (ld_json_strings html) as [script_tags|e]; [|discriminate]. cbn [bind] in H.
  apply scan_scripts_found in H as (data & d & Hin & Hd & Hj & Hn).
  split; [exact (normalize_fields_truthy _ _ Hn)|].
  exists data, d. auto.
Qed.

(** C1 on the array of the test suite. *)
Lemma extract_schema_job_posting_fields_example :
  Forall (fun kv => truthy (snd kv) = true)
         [("title", JStr "Test Job"); ("description", JStr "Test")]
  /\ exists data d,
       In data (parsed_blocks (impl := array_page) array_html)
       /\ In (JDict d) (block_items data)
       /\ _is_job_posting (JDict d) = Ok true
       /\ _normalize_job_posting d
          = Ok [("title", JStr "Test Job"); ("description", JStr "Test")].
Proof.
  apply (extract_schema_job_posting_fields_non_empty array_page array_html).
  vm_compute. reflexivity.
Defined.

(** C1, the claim as written fails: an item that has only its type is found,
    and the record returned for it is empty. *)
Lemma extract_schema_job_posting_empty_record :
  extract_schema_job_posting (impl := bare_page) bare_html = Ok (Some []).
Proof. vm_compute. reflexivity. Qed.

(** C2, as the code has it.  BeautifulSoup parses the page before the loop
    and outside its [try]: what it raises on markup that it rejects leaves
    the function.  Once the page is parsed, and when every [@type] that is
    an array holds strings only, [extract_schema_job_posting] returns the
    normalisation of the first item in document order, among the blocks of
    the script tags found, whose [@type] contains "JobPosting", provided that
    normalisation raises nothing; without such an item it returns [None]. *)
Theorem extract_schema_job_posting_first_match :
  forall (impl : HtmlImpl) (html : string),
    (forall e, ld_json_strings html = Raise e ->
               extract_schema_job_posting html = Raise e)
    /\ forall script_tags,
         ld_json_strings html = Ok script_tags ->
         all_types_plain (flat_map parsed_block script_tags) ->
         match first_job_posting (flat_map parsed_block script_tags) with
         | Some item =>
             exists d, item = JDict d
                       /\ forall r, _normalize_job_posting d = Ok r ->
                                    extract_schema_job_posting html = Ok (Some r)
         | None => extract_schema_job_posting html = Ok None
         end.
Proof.
  intros impl html. unfold extract_schema_job_posting. split.
  - intros e ->. reflexivity.
  - intros script_tags -> H. exact (scan_scripts_plain script_tags H).
Qed.

(** C2 on the array of the test suite: the JobPosting is returned, the
    Organization before it is passed over. *)
Lemma extract_schema_job_posting_array_example :
  extract_schema_job_posting (impl := array_page) array_html
  = Ok (Some [("title", JStr "Test Job"); ("description", JStr "Test")]).
Proof.
  pose proof (proj2 (extract_schema_job_posting_first_match array_page array_html)
                [Some array_text] eq_refl) as H.
  assert (P : all_types_plain
                (flat_map (parsed_block (impl := array_page)) [Some array_text])).
  { vm_compute. repeat constructor. }
  specialize (H P).
  change (first_job_posting
            (flat_map (parsed_block (impl := array_page)) [Some array_text]))
    with (Some (JDict [("@type", JStr "JobPosting"); ("title", JStr "Test Job");
                       ("description", JStr "Test")])) in H.
  destruct H as (d & E & H). injection E as <-. apply H. vm_compute. reflexivity.
Defined.

(** C2, the claim as written fails: the first JobPosting of the page has a
    [minValue] that is a string, its normalisation raises, the block is
    skipped, and the record returned is the one of the second JobPosting. *)
Lemma extract_schema_job_posting_skips_first_match :
  first_job_posting (parsed_blocks (impl := salary_page) salary_html)
  = Some salary_item
  /\ scan_data salary_item = Raise ValueError
  /\ extract_schema_job_posting (impl := salary_page) salary_html
     = Ok (Some [("title", JStr "Second")]).
Proof. repeat split; vm_compute; reflexivity. Qed.

(** C3, as the code has it.  The parse of the page comes before the loop:
    on markup that BeautifulSoup rejects, the function raises.  Once the page
    is parsed, [extract_schema_job_posting] raises nothing.  A script whose
    text [json.loads] rejects counts for nothing: the blocks of the page are
    those of its other scripts, the result is the normalisation of the first
    JobPosting among them, or [None] when they have none, and it is the
    result for the page without that script.  When no item of any block that
    parses is taken for a JobPosting, the result is [None]. *)
Theorem extract_schema_job_posting_skips_malformed :
  forall (impl : HtmlImpl) (html : string) (script_tags : list (option string)),
    ld_json_strings html = Ok script_tags ->
    returns (extract_schema_job_posting html)
    /\ (forall before text after,
          script_tags = (before ++ Some text :: after)%list ->
          raises (json_loads text) ->
          flat_map parsed_block script_tags
          = flat_map parsed_block (before ++ after)%list
          /\ (all_types_plain (flat_map parsed_block (before ++ after)%list) ->
              match first_job_posting (flat_map parsed_block (before ++ after)%list) with
              | Some item =>
                  exists d, item = JDict d
                            /\ forall r, _normalize_job_posting d = Ok r ->
                                         extract_schema_job_posting html = Ok (Some r)
              | None => extract_schema_job_posting html = Ok None
              end)
          /\ (forall html',
                ld_json_strings html' = Ok (before ++ after)%list ->
                extract_schema_job_posting html = extract_schema_job_posting html'))
    /\ ((forall data item,
           In data (parsed_blocks html) -> In item (block_items data) ->
           _is_job_posting item <> Ok true) ->
        extract_schema_job_posting html = Ok None).
Proof.
  intros impl html script_tags E. unfold extract_schema_job_posting, parsed_blocks.
  rewrite E. cbn [bind]. split; [|split].
  - apply scan_scripts_returns.
  - intros before text after -> [e He].
    assert (Hb : parsed_block (Some text) = []).
    { unfold parsed_block. destruct text; [reflexivity|]. now rewrite He. }
    assert (Hs : scan_scripts (before ++ Some text :: after)
                 = scan_scripts (before ++ after)).
    { rewrite !scan_scripts_app. rewrite scan_scripts_skip; [reflexivity|].
      unfold scan_script. destruct text; [now left|]. rewrite He. right.
      exists e. reflexivity. }
    split; [|split].
    + rewrite !flat_map_app. cbn [flat_map]. now rewrite Hb.
    + intros H. rewrite Hs. exact (scan_scripts_plain _ H).
    + intros html' ->. cbn [bind]. exact Hs.
  - apply scan_scripts_none.
Qed.

(** C3 on the malformed text of the test suite, alone and before a block
    that parses. *)
Lemma extract_schema_job_posting_malformed_examples :
  extract_schema_job_posting (impl := malformed_page) malformed_html = Ok None
  /\ extract_schema_job_posting (impl := mixed_page) mixed_html
     = Ok (Some [("title", JStr "Test Job"); ("description", JStr "Test")]).
Proof.
  split.
  - destruct (extract_schema_job_posting_skips_malformed
                malformed_page malformed_html [Some malformed_text] eq_refl)
      as (_ & _ & H).
    apply H. intros data item Hd. vm_compute in Hd. destruct Hd.
  - destruct (extract_schema_job_posting_skips_malformed
                mixed_page mixed_html [Some malformed_text; Some array_text] eq_refl)
      as (_ & H & _).
    destruct (H [] malformed_text [Some array_text] eq_refl) as (_ & H' & _).
    { exists JSONDecodeError. reflexivity. }
    assert (P : all_types_plain
                  (flat_map (parsed_block (impl := mixed_page)) [Some array_text])).
    { vm_compute. repeat constructor. }
    specialize (H' P).
    change (first_job_posting
              (flat_map (parsed_block (impl := mixed_page)) ([] ++ [Some array_text])))
      with (Some (JDict [("@type", JStr "JobPosting"); ("title", JStr "Test Job");
                         ("description", JStr "Test")])) in H'.
    destruct H' as (d & Ed & H'). injection Ed as <-. apply H'. vm_compute. reflexivity.
Defined.

(** C3, the claim as written fails: the page of the array, followed by a
    marked section that [html.parser] rejects, has a JobPosting in a block
    that parses, and the function raises on it. *)
Lemma extract_schema_job_posting_rejected_markup :
  extract_schema_job_posting (impl := rejected_page) rejected_html
  = Raise ParserRejectedMarkup.
Proof. vm_compute. reflexivity. Qed.

End HtmlParserFacts.


(* ------------------------------------------------------------------ *)
(** ** More facts about strings *)

Module PyStrMoreFacts.
Import Notions PyStr PyStrMore PyStrFacts FinalCleanupFacts UrllibFacts.

Lemma has_char_lstrip_kept p c s :
  p c = false -> has_char c (lstrip_by p s) = has_char c s.
Proof.
  intros Hc. induction s as [|a s IH]; cbn; [reflexivity|].
  destruct (p a) eqn:Ha; cbn; [|reflexivity].
  rewrite IH. destruct (Ascii.eqb_spec a c); [congruence | reflexivity].
Qed.

Lemma has_char_rstrip_kept p c s :
  p c = false -> has_char c (rstrip_by p s) = has_char c s.
Proof.
  intros Hc. induction s as [|a s IH]; cbn; [reflexivity|].
  destruct (rstrip_by p s) as [|b r] eqn:E.
  - cbn in IH. rewrite <- IH, orb_false_r.
    destruct (p a) eqn:Ha; cbn; [|now rewrite orb_false_r].
    destruct (Ascii.eqb_spec a c); [congruence | reflexivity].
  - cbn [has_char]. cbn [has_char] in IH. now rewrite IH.
Qed.

(** [strip] removes white space only. *)
Lemma has_char_strip c s :
  isspace c = false -> has_char c (strip s) = has_char c s.
Proof.
  intros Hc. unfold strip.
  now rewrite has_char_rstrip_kept, has_char_lstrip_kept.
Qed.

Lemma strip_empty_iff s : strip s = "" <-> PyStr.forallb isspace s = true.
Proof. split; [apply strip_empty_all_space | apply all_space_strip_empty]. Qed.

Lemma lower_append s t : lower (s ++ t) = lower s ++ lower t.
Proof. induction s as [|c s IH]; cbn; [reflexivity | now rewrite IH]. Qed.

Lemma take_drop n s : take n s ++ drop n s = s.
Proof.
  revert s. induction n as [|n IH]; intros [|c s]; cbn; try reflexivity.
  now rewrite IH.
Qed.

Lemma take_app s t : take (length s) (s ++ t) = s.
Proof. induction s as [|c s IH]; cbn; [now destruct t | now rewrite IH]. Qed.

Lemma drop_app s t : drop (length s) (s ++ t) = t.
Proof. induction s as [|c s IH]; cbn; [reflexivity | exact IH]. Qed.

(** Two ways to cut a text at the same place give the same parts. *)
Lemma append_inv_head a b c d :
  a ++ b = c ++ d -> length a = length c -> a = c /\ b = d.
Proof.
  revert c. induction a as [|x a IH]; intros [|y c] E L; cbn in *; try discriminate.
  - now split.
  - injection E as -> E. injection L as L. destruct (IH _ E L) as [-> ->]. now split.
Qed.

Lemma append_inv_tail a b c d :
  a ++ b = c ++ d -> length b = length d -> a = c /\ b = d.
Proof.
  intros E L. apply append_inv_head; [exact E|].
  apply (f_equal length) in E. rewrite !length_append in E. lia.
Qed.

Lemma last_char_append s t : t <> "" -> last_char (s ++ t) = last_char t.
Proof.
  intros Ht. induction s as [|c s IH]; [reflexivity|].
  cbn [append]. change (last_char (String c (s ++ t)))
    with (match s ++ t with "" => Some c | _ => last_char (s ++ t) end).
  destruct (s ++ t) eqn:E; [|exact IH].
  destruct s; cbn in E; [congruence | discriminate].
Qed.

Lemma last_char_forallb p s c :
  PyStr.forallb p s = true -> last_char s = Some c -> p c = true.
Proof.
  induction s as [|a s IH]; [discriminate|].
  cbn [PyStr.forallb]. intros [Ha Hs]%andb_true_iff.
  destruct s as [|b s]; [intros [= <-]; exact Ha|].
  intros H. apply IH; assumption.
Qed.

Lemma last_char_some s : s <> "" -> exists c, last_char s = Some c.
Proof.
  induction s as [|a s IH]; [intros H; now elim H|]. intros _.
  destruct s as [|b s]; [now exists a|]. apply IH. discriminate.
Qed.

Lemma length_zero_empty (s : string) : length s = 0 -> s = "".
Proof. destruct s; [reflexivity | discriminate]. Qed.

End PyStrMoreFacts.


(* ------------------------------------------------------------------ *)
(** ** The check of a URL before it is fetched *)

Module FetcherFacts.
Import Notions PyStr PyStrFacts UrllibFacts PyStrMoreFacts Fetcher.

(** X4.  [is_valid_job_url] accepts a text exactly when it holds a dot.  The test
    for an empty text only chooses the message of a refusal, and the list of
    known sites plays no part in the result. *)
Theorem is_valid_job_url_iff_dot :
  forall url : string,
    is_valid_job_url url
    = if has_char "." url then (true, "")
      else if PyStr.forallb isspace url then (false, "URL cannot be empty")
      else (false, "Invalid URL format").
Proof.
  intros url. unfold is_valid_job_url.
  destruct (String.eqb_spec (strip url) "") as [E|N].
  - rewrite orb_true_r. apply strip_empty_iff in E. rewrite E.
    rewrite (has_char_forallb "." isspace url); auto.
  - assert (Hs : PyStr.forallb isspace url = false).
    { destruct (PyStr.forallb isspace url) eqn:H; [|reflexivity].
      apply strip_empty_iff in H. contradiction. }
    rewrite Hs.
    destruct (String.eqb_spec url "") as [->|_]; [discriminate|]. cbn [orb].
    rewrite has_char_strip by reflexivity.
    now destruct (has_char "." url).
Qed.

End FetcherFacts.



(* ------------------------------------------------------------------ *)
(** ** The classifier and the canonicalizer, one after the other *)

Module PipelineFacts.
Import Notions PyStr PyStrFacts Regex Urllib UrllibFacts UrlparseFacts.
Import SourceDetector SourceDetectorFacts UrlResolver UrlResolverFacts PyStrMoreFacts.

Section WithImpl.
Context {impl : UrllibImpl}.

(** A URL with the canonical prefix parses. *)
Lemma urlparse_canonical_returns t : returns (urlparse (canonical_prefix ++ t)).
Proof.
  apply urlparse_returns_iff, urlsplit_returns_iff. unfold netloc_text.
  rewrite split_scheme_canonical.
  change (startswith "//" ("//boards.greenhouse.io/" ++ remove_chars unsafe_url_byte t))
    with true.
  cbn [drop append].
  change (String "b" _)
    with ("boards.greenhouse.io" ++ String "/" (remove_chars unsafe_url_byte t)).
  rewrite splitnetloc_app; [reflexivity | reflexivity |].
  right. exists "/"%char, (remove_chars unsafe_url_byte t). auto.
Qed.

(** The Greenhouse resolver leaves it as it is. *)
Lemma resolve_greenhouse_url_canonical t :
  resolve_greenhouse_url (canonical_prefix ++ t) = Ok (canonical_prefix ++ t, false).
Proof.
  unfold resolve_greenhouse_url.
  destruct (urlparse_canonical_returns t) as [p Hp]. rewrite Hp. cbn [bind].
  now rewrite (canonical_prefix_netloc _ _ Hp).
Qed.

(** The classifier finds the host of the prefix. *)
Lemma detect_source_canonical t : detect_source (canonical_prefix ++ t) = Ok greenhouse.
Proof.
  unfold detect_source, detect_greenhouse.
  assert (S : any_pattern GREENHOUSE_PATTERNS (lower (canonical_prefix ++ t)) = true).
  { unfold any_pattern, GREENHOUSE_PATTERNS. cbn [existsb].
    apply orb_true_iff. left. apply RegexFacts.search_iff.
    exists "https://", "boards.greenhouse.io", ("/" ++ lower t).
    split; [now rewrite lower_append | apply RegexFacts.matches_lit]. }
  now rewrite S.
Qed.

Lemma resolve_greenhouse_url_returns url :
  returns (resolve_greenhouse_url url) <-> returns (urlparse url).
Proof.
  pose proof (resolve_greenhouse_url_cases url) as H. unfold returns, raises in *.
  destruct (resolve_greenhouse_url url) as [[u b]|e] eqn:E.
  - split; [intros _ | eauto].
    unfold resolve_greenhouse_url in E.
    destruct (urlparse url); [eauto | discriminate].
  - destruct H as [e' H]. rewrite H. split; intros [a Ha]; discriminate.
Qed.

Lemma resolve_lever_url_returns url :
  returns (resolve_lever_url url) <-> returns (urlparse url).
Proof.
  unfold returns, resolve_lever_url.
  destruct (urlparse url) as [p|e]; cbn [bind].
  - split; [eauto|]. intros _.
    destruct (negb _); [eauto|]. destruct (negb _); eauto.
  - split; intros [a Ha]; discriminate.
Qed.

End WithImpl.

(** X5.  The Greenhouse resolver is idempotent: the URL that it returns, given to
    it again, comes back unchanged and unflagged.  A URL that it rewrote is
    classified as Greenhouse by [detect_source]. *)
Theorem resolve_greenhouse_url_idempotent :
  forall (impl : UrllibImpl) (url resolved : string) (was_resolved : bool),
    resolve_greenhouse_url url = Ok (resolved, was_resolved) ->
    resolve_greenhouse_url resolved = Ok (resolved, false)
    /\ (was_resolved = true -> detect_source resolved = Ok greenhouse).
Proof.
  intros impl url resolved b H.
  pose proof (resolve_greenhouse_url_cases url) as Hc. rewrite H in Hc.
  destruct Hc as [[-> ->] | (-> & [t ->] & _)].
  - split; [exact H | discriminate].
  - split; [apply resolve_greenhouse_url_canonical|].
    intros _. apply detect_source_canonical.
Qed.

(** The property at an embedded job of the test suite. *)
Lemma resolve_greenhouse_url_idempotent_example :
  resolve_greenhouse_url (impl := AsciiUrllib.cpython)
    "https://boards.greenhouse.io/acme/jobs/12345"
  = Ok ("https://boards.greenhouse.io/acme/jobs/12345", false)
  /\ (true = true ->
      detect_source (impl := AsciiUrllib.cpython)
        "https://boards.greenhouse.io/acme/jobs/12345" = Ok greenhouse).
Proof.
  apply (resolve_greenhouse_url_idempotent AsciiUrllib.cpython
           "https://careers.acme.com/jobs?gh_jid=12345&for=acme").
  vm_compute. reflexivity.
Defined.

(** X6.  Classifying a URL and then canonicalizing it with the tag found succeeds
    exactly on the URLs that [urlparse] accepts: when the classifier returns
    without parsing (a Greenhouse pattern matched), the resolver parses. *)
Theorem detect_then_resolve_returns_iff :
  forall (impl : UrllibImpl) (url : string),
    (exists source r, detect_source url = Ok source /\ resolve_url url source = Ok r)
    <-> returns (urlparse url).
Proof.
  intros impl url. split.
  - intros (source & r & Hd & Hr).
    destruct source; cbn [resolve_url] in Hr.
    + apply resolve_greenhouse_url_returns. now exists r.
    + apply resolve_lever_url_returns. now exists r.
    + unfold detect_source, detect_greenhouse in Hd.
      destruct (any_pattern GREENHOUSE_PATTERNS (lower url)); [discriminate|].
      destruct (urlparse url); [unfold returns; eauto | discriminate].
    + unfold detect_source, detect_greenhouse in Hd.
      destruct (any_pattern GREENHOUSE_PATTERNS (lower url)); [discriminate|].
      destruct (urlparse url); [unfold returns; eauto | discriminate].
  - intros Hp.
    assert (Hd : returns (detect_source url)).
    { apply detect_source_returns_greenhouse, detect_greenhouse_returns_iff. now right. }
    destruct Hd as [source Hd]. exists source.
    destruct source; cbn [resolve_url resolve_workday_url].
    + apply resolve_greenhouse_url_returns in Hp as [r Hr].
      exists r. split; [exact Hd | exact Hr].
    + apply resolve_lever_url_returns in Hp as [r Hr].
      exists r. split; [exact Hd | exact Hr].
    + exists (url, false). split; [exact Hd | reflexivity].
    + exists (url, false). split; [exact Hd | reflexivity].
Qed.

(** A key with values is a key of the dictionary. *)
Lemma dict_item_ok key (d : qdict) vs : dict_item key d = Ok vs -> dict_has key d = true.
Proof.
  unfold dict_has. induction d as [|[k v] d IH]; cbn; [discriminate|].
  destruct (String.eqb k key); cbn; [reflexivity | exact IH].
Qed.

(** Without its literal prefix in the text, [pre([cls]+)] has no match. *)
Lemma search_group_absent pre cls s :
  contains pre s = false -> search_group [pre] cls s = None.
Proof.
  induction s as [|c s IH]; cbn [contains search_group first_group];
    unfold group_here; intros [-> Hs]%orb_false_iff; [reflexivity|].
  now apply IH.
Qed.

(** X7.  An embedded Greenhouse job, through both steps.  When the query of a URL
    has the key [gh_jid] and its host is not the Greenhouse board, the
    classifier says Greenhouse and the resolver rewrites the URL to the
    board, ending with the first value of [gh_jid]: to the job page of the
    company when [_extract_greenhouse_company] finds a company token that is
    not empty, to the embed page otherwise.  The token is the first value of
    the key [for] when the query has it; there is none when the query has no
    key [for] and the URL holds neither [boards.greenhouse.io/] nor
    [greenhouse.io/embed/job_board/js?for=]. *)
Theorem embedded_greenhouse_job_resolved :
  forall (impl : UrllibImpl) (url : string) (p : ParseResult),
    urlparse url = Ok p ->
    contains "boards.greenhouse.io" (lower (netloc p)) = false ->
    dict_has "gh_jid" (parse_qs (query p)) = true ->
    detect_source url = Ok greenhouse
    /\ exists job_id rest token,
         dict_item "gh_jid" (parse_qs (query p)) = Ok (job_id :: rest)
         /\ _extract_greenhouse_company url (parse_qs (query p)) = Ok token
         /\ resolve_url url greenhouse
            = Ok (match token with
                  | Some company =>
                      if String.eqb company ""
                      then canonical_prefix ++ "embed/job_app?token=" ++ job_id
                      else canonical_prefix ++ company ++ "/jobs/" ++ job_id
                  | None => canonical_prefix ++ "embed/job_app?token=" ++ job_id
                  end, true)
         /\ (forall company others,
               dict_item "for" (parse_qs (query p)) = Ok (company :: others) ->
               token = Some company)
         /\ (dict_has "for" (parse_qs (query p)) = false ->
             contains "boards.greenhouse.io/" url = false ->
             contains "greenhouse.io/embed/job_board/js?for=" url = false ->
             token = None).
Proof.
  intros impl url p Hp Hn Hjid. split.
  - unfold detect_source, detect_greenhouse.
    destruct (any_pattern GREENHOUSE_PATTERNS (lower url)); [reflexivity|].
    rewrite Hp. cbn [bind]. now rewrite Hjid.
  - destruct (first_value _ _ Hjid) as (vs & v & Hvs & Hv).
    destruct vs as [|job_id rest]; [discriminate|]. injection Hv as ->.
    assert (Hcompany : exists token,
               _extract_greenhouse_company url (parse_qs (query p)) = Ok token
               /\ (forall company others,
                     dict_item "for" (parse_qs (query p)) = Ok (company :: others) ->
                     token = Some company)
               /\ (dict_has "for" (parse_qs (query p)) = false ->
                   contains "boards.greenhouse.io/" url = false ->
                   contains "greenhouse.io/embed/job_board/js?for=" url = false ->
                   token = None)).
    { unfold _extract_greenhouse_company.
      destruct (dict_has "for" (parse_qs (query p))) eqn:Hfor.
      - destruct (first_value _ _ Hfor) as (vs' & v' & Hvs' & Hv'). rewrite Hvs'.
        cbn [bind]. rewrite Hv'. cbn [bind]. exists (Some v').
        split; [reflexivity|]. split; [|discriminate].
        intros company others [= ->]. cbn in Hv'. now injection Hv' as ->.
      - assert (Hno : forall company others,
                   dict_item "for" (parse_qs (query p)) <> Ok (company :: others)).
        { intros company others H. apply dict_item_ok in H. congruence. }
        destruct (search_group ["boards.greenhouse.io/"] not_slash url) as [g|] eqn:G1.
        + exists (Some g). split; [reflexivity|]. split.
          * intros company others H. now elim (Hno company others).
          * intros _ H1 _. rewrite (search_group_absent _ _ _ H1) in G1. discriminate.
        + destruct (search_group ["greenhouse.io/embed/job_board/js?for="] not_amp url)
            as [g|] eqn:G2.
          * exists (Some g). split; [reflexivity|]. split.
            -- intros company others H. now elim (Hno company others).
            -- intros _ _ H2. rewrite (search_group_absent _ _ _ H2) in G2. discriminate.
          * exists None. split; [reflexivity|]. split; [|reflexivity].
            intros company others H. now elim (Hno company others). }
    destruct Hcompany as (token & Htoken & Hfor & Hnone).
    exists v, rest, token. split; [exact Hvs|]. split; [exact Htoken|].
    split; [|split; [exact Hfor | exact Hnone]].
    cbn [resolve_url]. unfold resolve_greenhouse_url.
    rewrite Hp. cbn [bind]. rewrite Hn, Hjid, Hvs. cbn [bind item0].
    rewrite Htoken. cbn [bind].
    destruct token as [company|]; cbn [truthy_opt]; [|reflexivity].
    destruct (String.eqb company ""); reflexivity.
Qed.

(** The same at the URL of the end-to-end test, with the company given by
    the key [for]. *)
Lemma embedded_greenhouse_job_example :
  detect_source (impl := AsciiUrllib.cpython)
    "https://careers.acme.com/jobs/software-engineer?gh_jid=12345&for=acme"
  = Ok greenhouse
  /\ exists job_id rest token,
       dict_item "gh_jid" (parse_qs (impl := AsciiUrllib.cpython) "gh_jid=12345&for=acme")
       = Ok (job_id :: rest)
       /\ _extract_greenhouse_company
            "https://careers.acme.com/jobs/software-engineer?gh_jid=12345&for=acme"
            (parse_qs (impl := AsciiUrllib.cpython) "gh_jid=12345&for=acme")
          = Ok token
       /\ resolve_url (impl := AsciiUrllib.cpython)
            "https://careers.acme.com/jobs/software-engineer?gh_jid=12345&for=acme"
            greenhouse
          = Ok (match token with
                | Some company =>
                    if String.eqb company ""
                    then canonical_prefix ++ "embed/job_app?token=" ++ job_id
                    else canonical_prefix ++ company ++ "/jobs/" ++ job_id
                | None => canonical_prefix ++ "embed/job_app?token=" ++ job_id
                end, true)
       /\ (forall company others,
             dict_item "for" (parse_qs (impl := AsciiUrllib.cpython) "gh_jid=12345&for=acme")
             = Ok (company :: others) ->
             token = Some company)
       /\ (dict_has "for" (parse_qs (impl := AsciiUrllib.cpython) "gh_jid=12345&for=acme")
           = false ->
           contains "boards.greenhouse.io/"
             "https://careers.acme.com/jobs/software-engineer?gh_jid=12345&for=acme"
           = false ->
           contains "greenhouse.io/embed/job_board/js?for="
             "https://careers.acme.com/jobs/software-engineer?gh_jid=12345&for=acme"
           = false ->
           token = None).
Proof.
  apply (embedded_greenhouse_job_resolved AsciiUrllib.cpython
           "https://careers.acme.com/jobs/software-engineer?gh_jid=12345&for=acme"
           (mkParse "https" "careers.acme.com" "/jobs/software-engineer" ""
                    "gh_jid=12345&for=acme" ""));
    vm_compute; reflexivity.
Defined.

(** The two forms, at that URL and at the URL without the key [for]. *)
Lemma embedded_greenhouse_job_forms :
  resolve_url (impl := AsciiUrllib.cpython)
    "https://careers.acme.com/jobs/software-engineer?gh_jid=12345&for=acme" greenhouse
  = Ok ("https://boards.greenhouse.io/acme/jobs/12345", true)
  /\ resolve_url (impl := AsciiUrllib.cpython)
       "https://careers.acme.com/jobs/software-engineer?gh_jid=12345" greenhouse
     = Ok ("https://boards.greenhouse.io/embed/job_app?token=12345", true).
Proof. split; vm_compute; reflexivity. Qed.

End PipelineFacts.



(* ------------------------------------------------------------------ *)
(** ** The Lever API endpoint *)

Module LeverApiFacts.
Import Notions PyStr PyStrMore PyStrFacts Regex Urllib UrllibFacts UrlparseFacts.
Import SourceDetector UrlResolver UrlResolverFacts RebuildFacts PyStrMoreFacts LeverApi MoreNotions.

(** *** The two patterns *)

Lemma at_end_cases s : at_end s = true -> s = "" \/ s = LF.
Proof.
  unfold at_end. intros [H|H]%orb_true_iff; apply String.eqb_eq in H; auto.
Qed.

Lemma length_take_le n s : length (take n s) <= n.
Proof.
  revert s. induction n as [|n IH]; intros [|c s]; cbn; try lia.
  specialize (IH s). lia.
Qed.

(** A match at the start of [s]: a slash, the 36 characters of the group, and
    an end of text. *)
Lemma job_id_here_inv s g :
  job_id_here s = Some g ->
  length g = 36 /\ PyStr.forallb hex_or_dash g = true
  /\ exists r, s = "/" ++ g ++ r
               /\ (r = "" \/ r = LF \/ r = "/" \/ r = "/" ++ LF).
Proof.
  unfold job_id_here.
  destruct (startswith "/" s) eqn:Hs; [|discriminate].
  apply startswith_iff in Hs as [t ->]. change (drop 1 ("/" ++ t)) with t.
  destruct (Nat.eqb_spec (length (take 36 t)) 36) as [L|]; [|discriminate].
  destruct (PyStr.forallb hex_or_dash (take 36 t)) eqn:Hh; [|discriminate].
  cbn [andb].
  destruct (_ || _) eqn:He; [|discriminate]. intros E.
  assert (Eg : g = take 36 t) by congruence. subst g. clear E.
  split; [exact L|]. split; [exact Hh|].
  exists (drop 36 t). split; [now rewrite take_drop|].
  apply orb_true_iff in He as [He|He].
  - apply andb_true_iff in He as [H1 H2].
    apply startswith_iff in H1 as [u Hu]. rewrite Hu in *.
    change (drop 1 ("/" ++ u)) with u in H2.
    apply at_end_cases in H2 as [-> | ->]; auto.
  - apply at_end_cases in He as [-> | ->]; auto.
Qed.

Lemma job_id_here_intro g r :
  length g = 36 -> PyStr.forallb hex_or_dash g = true ->
  r = "" \/ r = "/" ->
  job_id_here ("/" ++ g ++ r) = Some g.
Proof.
  intros L Hh Hr. unfold job_id_here.
  change (startswith "/" ("/" ++ g ++ r)) with true.
  change (drop 1 ("/" ++ g ++ r)) with (g ++ r). cbv iota.
  assert (Et : take 36 (g ++ r) = g) by (rewrite <- L; apply take_app).
  assert (Ed : drop 36 (g ++ r) = r) by (rewrite <- L; apply drop_app).
  rewrite Et, Ed, L, Hh.
  destruct Hr as [-> | ->]; reflexivity.
Qed.

Lemma search_job_id_inv s g :
  search_job_id s = Some g ->
  exists pre, job_id_here (drop (length pre) s) = Some g /\ is_prefix pre s.
Proof.
  induction s as [|c s IH]; cbn [search_job_id].
  - destruct (job_id_here "") eqn:E; [|discriminate].
    intros [= <-]. exists "". split; [exact E | now exists ""].
  - destruct (job_id_here (String c s)) eqn:E.
    + intros [= <-]. exists "". split; [exact E | now exists (String c s)].
    + intros H. destruct (IH H) as (pre & Hj & [rest Hrest]).
      exists (String c pre). split; [exact Hj|]. exists rest. cbn. now rewrite <- Hrest.
Qed.

Lemma search_job_id_found pre s g :
  job_id_here s = Some g -> exists g', search_job_id (pre ++ s) = Some g'.
Proof.
  intros H. induction pre as [|c pre IH]; cbn [append].
  - exists g. destruct s; cbn [search_job_id]; rewrite H; reflexivity.
  - cbn [search_job_id]. destruct (job_id_here (String c (pre ++ s))) as [g0|].
    + now exists g0.
    + exact IH.
Qed.

Lemma hex_or_dash_not_slash c : hex_or_dash c = true -> Ascii.eqb c "/" = false.
Proof. destruct c as [[] [] [] [] [] [] [] []]; vm_compute; congruence. Qed.

Lemma hex_or_dash_not_nl c : hex_or_dash c = true -> Ascii.eqb c nl = false.
Proof. destruct c as [[] [] [] [] [] [] [] []]; vm_compute; congruence. Qed.

(** The end of a text fixes the group: two matches that end a text have the
    same 36 characters. *)
Lemma job_id_unique a id tail b g r :
  a ++ id ++ tail = b ++ g ++ r ->
  length id = 36 -> length g = 36 ->
  PyStr.forallb hex_or_dash id = true -> PyStr.forallb hex_or_dash g = true ->
  tail = "" \/ tail = "/" ->
  r = "" \/ r = LF \/ r = "/" \/ r = "/" ++ LF ->
  g = id.
Proof.
  intros E Li Lg Hi Hg Ht Hr.
  assert (Same : tail = r -> g = id).
  { intros <-. rewrite <- !append_assoc in E.
    apply append_inv_tail in E as [E _]; [|reflexivity].
    apply append_inv_tail in E as [_ E]; congruence. }
  assert (Nid : id <> "") by (intros ->; discriminate).
  assert (Ng : g <> "") by (intros ->; discriminate).
  destruct (last_char_some _ Nid) as [ci Hci].
  destruct (last_char_some _ Ng) as [cg Hcg].
  pose proof (last_char_forallb _ _ _ Hi Hci) as Hhi.
  pose proof (last_char_forallb _ _ _ Hg Hcg) as Hhg.
  apply (f_equal last_char) in E.
  destruct Ht as [-> | ->]; destruct Hr as [-> | [-> | [-> | ->]]];
    try (apply Same; reflexivity); exfalso; revert E;
    rewrite ?append_empty_r;
    repeat (rewrite last_char_append by
              (try discriminate; try assumption;
               destruct id; try discriminate; destruct g; discriminate));
    rewrite ?Hci, ?Hcg; cbn; intros [= E]; subst;
    try (apply hex_or_dash_not_slash in Hhi; discriminate);
    try (apply hex_or_dash_not_slash in Hhg; discriminate);
    try (apply hex_or_dash_not_nl in Hhi; discriminate);
    try (apply hex_or_dash_not_nl in Hhg; discriminate).
Qed.

Lemma take_while_inv p s :
  PyStr.forallb p (take_while p s) = true /\ is_prefix (take_while p s) s.
Proof.
  induction s as [|c s [IH1 [rest IH2]]]; cbn; [split; [reflexivity | now exists ""]|].
  destruct (p c) eqn:E; cbn.
  - rewrite E, IH1. split; [reflexivity|]. exists rest. cbn [append]. f_equal. exact IH2.
  - split; [reflexivity|]. now exists (String c s).
Qed.

Lemma take_while_app p g c rest :
  PyStr.forallb p g = true -> p c = false ->
  take_while p (g ++ String c rest) = g.
Proof.
  intros Hg Hc. induction g as [|a g IH]; cbn.
  - now rewrite Hc.
  - cbn in Hg. apply andb_true_iff in Hg as [Ha Hg]. now rewrite Ha, IH.
Qed.

(** A match of [pre([cls]+)] somewhere in [s]. *)
Lemma search_group_inv pre cls s g :
  search_group [pre] cls s = Some g ->
  g <> "" /\ PyStr.forallb cls g = true
  /\ exists a b, s = a ++ pre ++ g ++ b.
Proof.
  assert (Here : forall s, group_here pre cls s = Some g ->
                 g <> "" /\ PyStr.forallb cls g = true /\ exists b, s = pre ++ g ++ b).
  { intros s0. unfold group_here.
    destruct (startswith pre s0) eqn:Hs; [|discriminate].
    apply startswith_iff in Hs as [t ->]. rewrite drop_app.
    destruct (take_while_inv cls t) as [Hf [b Hb]].
    destruct (take_while cls t) as [|c w] eqn:E; [discriminate|].
    intros [= <-]. split; [discriminate|]. split; [exact Hf|].
    exists b. now rewrite <- Hb. }
  induction s as [|c s IH]; cbn [search_group first_group].
  - destruct (group_here pre cls "") eqn:E; [|discriminate].
    intros [= <-]. destruct (Here _ E) as (H1 & H2 & b & Hb).
    split; [exact H1|]. split; [exact H2|]. now exists "", b.
  - destruct (group_here pre cls (String c s)) eqn:E.
    + intros [= <-]. destruct (Here _ E) as (H1 & H2 & b & Hb).
      split; [exact H1|]. split; [exact H2|]. now exists "", b.
    + intros H. destruct (IH H) as (H1 & H2 & a & b & Hab).
      split; [exact H1|]. split; [exact H2|].
      exists (String c a), b. cbn. now rewrite <- Hab.
Qed.

Section WithImpl.
Context {impl : UrllibImpl}.

(** No part of a parsed URL holds a tab or a line end: [urlsplit] removed
    them. *)
Lemma urlsplit_path_safe url r :
  urlsplit url = Ok r -> PyStr.forallb safe_byte (s_path r) = true.
Proof.
  intros H. apply urlsplit_inv in H as (rest & tail & Hs & Hnet & -> & _).
  assert (Hsafe : PyStr.forallb safe_byte (cleaned url) = true)
    by apply forallb_remove_chars.
  assert (Hrest : PyStr.forallb safe_byte rest = true).
  { apply split_scheme_inv in Hs as [[_ ->] | (c0 & pre & E & _)]; [exact Hsafe|].
    rewrite E, forallb_append in Hsafe.
    apply andb_true_iff in Hsafe as [_ Hsafe]. cbn [PyStr.forallb] in Hsafe.
    now apply andb_true_iff in Hsafe as [_ Hsafe]. }
  assert (Htail : PyStr.forallb safe_byte tail = true).
  { destruct Hnet as [(E & _) | (_ & -> & _)]; [|exact Hrest].
    rewrite E in Hrest.
    change ("//" ++ s_netloc r ++ tail) with (String "/" (String "/" (s_netloc r ++ tail)))
      in Hrest.
    cbn [PyStr.forallb] in Hrest. rewrite forallb_append in Hrest.
    apply andb_true_iff in Hrest as [_ Hrest].
    apply andb_true_iff in Hrest as [_ Hrest].
    now apply andb_true_iff in Hrest as [_ Hrest]. }
  eapply is_prefix_forallb; [|exact Htail].
  eapply is_prefix_trans; apply partition_is_prefix.
Qed.

Lemma urlparse_path_safe url p :
  urlparse url = Ok p -> PyStr.forallb safe_byte (path p) = true.
Proof.
  intros H. apply urlparse_inv in H as (r & rest & Hr & _ & _ & _ & _ & E).
  apply urlsplit_path_safe in Hr. rewrite E, forallb_append in Hr.
  now apply andb_true_iff in Hr as [Hr _].
Qed.

End WithImpl.

(** X8.  Whenever [get_api_endpoint] returns an endpoint, the tag is Lever and the
    endpoint is [https://api.lever.co/v0/postings/], a company and a job
    identifier: the identifier is the 36 characters of [[a-f0-9-]] that end
    the path of the URL (a final slash apart), the company is the text, not
    empty and without a slash, that follows the first [lever.co/] of the URL
    that is followed by one. *)
Theorem get_api_endpoint_shape :
  forall (impl : UrllibImpl) (url : string) (source : JobSource) (endpoint : string),
    get_api_endpoint url source = Ok (Some endpoint) ->
    source = lever
    /\ exists p company job_id,
         urlparse url = Ok p
         /\ endpoint = api_prefix ++ company ++ "/" ++ job_id
         /\ length job_id = 36
         /\ PyStr.forallb hex_or_dash job_id = true
         /\ (exists pre, path p = pre ++ "/" ++ job_id
                         \/ path p = pre ++ "/" ++ job_id ++ "/")
         /\ company <> ""
         /\ has_char "/" company = false
         /\ exists a b, url = a ++ "lever.co/" ++ company ++ b.
Proof.
  intros impl url source endpoint H.
  destruct source; try discriminate. split; [reflexivity|].
  cbn [get_api_endpoint] in H.
  destruct (urlparse url) as [p|e] eqn:Hp; cbn [bind] in H; [|discriminate].
  destruct (search_job_id (path p)) as [job_id|] eqn:Hj; [|discriminate].
  destruct (search_group ["lever.co/"] not_slash url) as [company|] eqn:Hc;
    [|discriminate].
  injection H as <-. exists p, company, job_id.
  split; [reflexivity|]. split; [reflexivity|].
  apply search_job_id_inv in Hj as (pre & Hj & [rest Hrest]).
  rewrite Hrest, drop_app in Hj.
  apply job_id_here_inv in Hj as (L & Hh & r & -> & Hr).
  split; [exact L|]. split; [exact Hh|].
  apply search_group_inv in Hc as (Hne & Hf & a & b & Hab).
  split.
  { exists pre.
    pose proof (urlparse_path_safe _ _ Hp) as Hs.
    apply safe_byte_no_nl in Hs. rewrite Hrest in Hs.
    destruct Hr as [-> | [-> | [-> | ->]]].
    - left. now rewrite Hrest, append_empty_r.
    - exfalso. rewrite !has_char_append in Hs. cbn in Hs.
      now rewrite !orb_true_r in Hs.
    - right. now rewrite Hrest.
    - exfalso. rewrite !has_char_append in Hs. cbn in Hs.
      now rewrite !orb_true_r in Hs. }
  split; [exact Hne|]. split.
  - apply (has_char_forallb _ not_slash); [reflexivity | exact Hf].
  - now exists a, b.
Qed.

(** The endpoint of the posting of the test suite. *)
Lemma get_api_endpoint_shape_example :
  lever = lever
  /\ exists p company job_id,
       urlparse (impl := AsciiUrllib.cpython)
         "https://jobs.lever.co/acme/a1b2c3d4-e5f6-7890-abcd-ef1234567890" = Ok p
       /\ "https://api.lever.co/v0/postings/acme/a1b2c3d4-e5f6-7890-abcd-ef1234567890"
          = api_prefix ++ company ++ "/" ++ job_id
       /\ length job_id = 36
       /\ PyStr.forallb hex_or_dash job_id = true
       /\ (exists pre, path p = pre ++ "/" ++ job_id
                       \/ path p = pre ++ "/" ++ job_id ++ "/")
       /\ company <> ""
       /\ has_char "/" company = false
       /\ exists a b,
            "https://jobs.lever.co/acme/a1b2c3d4-e5f6-7890-abcd-ef1234567890"
            = a ++ "lever.co/" ++ company ++ b.
Proof.
  apply (get_api_endpoint_shape AsciiUrllib.cpython
           "https://jobs.lever.co/acme/a1b2c3d4-e5f6-7890-abcd-ef1234567890" lever).
  vm_compute. reflexivity.
Defined.

(** *** A posting of the usual form *)

Lemma rpartition_absent c s : has_char c s = false -> rpartition c s = None.
Proof.
  induction s as [|a s IH]; cbn; [reflexivity|].
  intros [Ha Hs]%orb_false_iff. now rewrite (IH Hs), Ha.
Qed.

Lemma rpartition_app c h t :
  has_char c t = false -> rpartition c (h ++ String c t) = Some (h, t).
Proof.
  intros Ht. induction h as [|a h IH]; cbn.
  - now rewrite (rpartition_absent _ _ Ht), Ascii.eqb_refl.
  - now rewrite IH.
Qed.

(** Nothing is split off a path whose last segment has no semicolon. *)
Lemma splitparams_last_clean h seg :
  has_char "/" seg = false -> has_char ";" seg = false ->
  _splitparams (h ++ String "/" seg) = (h ++ String "/" seg, "").
Proof.
  intros H1 H2. unfold _splitparams.
  now rewrite (rpartition_app _ _ _ H1), (partition_absent _ _ H2).
Qed.

Lemma sub_apply_strips x : sub_apply (x ++ "/apply") = x.
Proof.
  induction x as [|c x IH]; [reflexivity|].
  rewrite sub_apply_eq.
  destruct (String.eqb_spec (String c x ++ "/apply") "/apply") as [E|_].
  { apply (f_equal length) in E. rewrite length_append in E. cbn in E. lia. }
  destruct (String.eqb_spec (String c x ++ "/apply") "/apply/") as [E|_].
  { destruct x as [|d x]; [discriminate|].
    apply (f_equal length) in E. rewrite length_append in E. cbn in E. lia. }
  destruct (String.eqb_spec (String c x ++ "/apply") ("/apply" ++ LF)) as [E|_].
  { destruct x as [|d x]; [discriminate|].
    apply (f_equal length) in E. rewrite length_append in E. cbn in E. lia. }
  destruct (String.eqb_spec (String c x ++ "/apply") ("/apply/" ++ LF)) as [E|_].
  { destruct x as [|d [|e x]]; try discriminate.
    apply (f_equal length) in E. rewrite length_append in E. cbn in E. lia. }
  cbn [orb append]. now rewrite IH.
Qed.

Lemma segment_char_parts c :
  segment_char c = true -> no_delim c = true /\ safe_byte c = true.
Proof. unfold segment_char. now intros [H1 H2]%andb_true_iff. Qed.

Lemma hex_or_dash_segment c : hex_or_dash c = true -> segment_char c = true.
Proof. destruct c as [[] [] [] [] [] [] [] []]; vm_compute; congruence. Qed.

Lemma segment_forallb s :
  PyStr.forallb segment_char s = true ->
  PyStr.forallb safe_byte s = true
  /\ has_char "/" s = false /\ has_char "?" s = false /\ has_char "#" s = false.
Proof.
  intros H. split; [|split; [|split]].
  - eapply forallb_weaken; [|exact H]. intros c Hc. now apply segment_char_parts.
  - apply (has_char_forallb _ segment_char); [reflexivity | exact H].
  - apply (has_char_forallb _ segment_char); [reflexivity | exact H].
  - apply (has_char_forallb _ segment_char); [reflexivity | exact H].
Qed.

(** The company of a URL on the Lever host is its first path segment. *)
Lemma search_group_lever_host t :
  search_group ["lever.co/"] not_slash ("https://jobs.lever.co/" ++ t)
  = match take_while not_slash t with
    | "" => search_group ["lever.co/"] not_slash t
    | g => Some g
    end.
Proof. cbn. now destruct (take_while not_slash t). Qed.

Section WithImpl.
Context {impl : UrllibImpl}.

(** A path of segments on the Lever host parses to itself. *)
Lemma urlparse_lever_path h seg :
  PyStr.forallb segment_char seg = true -> has_char ";" seg = false ->
  PyStr.forallb safe_byte h = true ->
  has_char "?" h = false -> has_char "#" h = false ->
  urlparse ("https://jobs.lever.co" ++ "/" ++ h ++ String "/" seg)
  = Ok (mkParse "https" "jobs.lever.co" ("/" ++ h ++ String "/" seg) "" "" "").
Proof.
  intros Hseg Hsemi Hh Hq Hf.
  destruct (segment_forallb _ Hseg) as (Hs1 & Hs2 & Hs3 & Hs4).
  set (cp := "/" ++ h ++ String "/" seg).
  assert (Hsplit : urlsplit ("https://jobs.lever.co" ++ cp)
                   = Ok (mkSplit "https" "jobs.lever.co" cp "" "")).
  { change ("https://jobs.lever.co" ++ cp)
      with (lower (String "h" "ttps") ++ "://" ++ "jobs.lever.co" ++ cp).
    apply urlsplit_rebuilt; try reflexivity.
    - unfold cp. cbn [append PyStr.forallb]. rewrite forallb_append.
      cbn [PyStr.forallb]. now rewrite Hh, Hs1.
    - right. now exists "/"%char, (h ++ String "/" seg).
    - unfold cp. cbn [append has_char]. rewrite has_char_append.
      cbn [has_char]. now rewrite Hq, Hs3.
    - unfold cp. cbn [append has_char]. rewrite has_char_append.
      cbn [has_char]. now rewrite Hf, Hs4. }
  unfold urlparse. rewrite Hsplit. cbn [bind s_scheme s_netloc s_path s_query s_fragment].
  change (existsb (String.eqb "https") uses_params) with true. cbn [andb].
  destruct (has_char ";" cp); [|reflexivity].
  unfold cp. change ("/" ++ h ++ String "/" seg) with (("/" ++ h) ++ String "/" seg).
  now rewrite (splitparams_last_clean _ _ Hs2 Hsemi).
Qed.

End WithImpl.

(** X9.  The endpoint of a posting of the usual form,
    [https://jobs.lever.co/{company}/{job_id}] with or without a final slash:
    the company and the identifier of the URL, after the prefix of the API.
    With [/apply] after the identifier, the resolver first gives back the
    posting itself. *)
Theorem get_api_endpoint_lever_posting :
  forall (impl : UrllibImpl) (company job_id tail : string),
    company <> "" ->
    PyStr.forallb segment_char company = true ->
    length job_id = 36 ->
    PyStr.forallb hex_or_dash job_id = true ->
    tail = "" \/ tail = "/" ->
    get_api_endpoint ("https://jobs.lever.co/" ++ company ++ "/" ++ job_id ++ tail) lever
    = Ok (Some (api_prefix ++ company ++ "/" ++ job_id))
    /\ resolve_lever_url ("https://jobs.lever.co/" ++ company ++ "/" ++ job_id ++ "/apply")
       = Ok ("https://jobs.lever.co/" ++ company ++ "/" ++ job_id, true).
Proof.
  intros impl company job_id tail Hne Hc L Hh Ht.
  destruct (segment_forallb _ Hc) as (Hc1 & Hc2 & Hc3 & Hc4).
  assert (Hj : PyStr.forallb segment_char job_id = true)
    by (eapply forallb_weaken; [|exact Hh]; apply hex_or_dash_segment).
  destruct (segment_forallb _ Hj) as (Hj1 & Hj2 & Hj3 & Hj4).
  assert (Hjsemi : has_char ";" job_id = false)
    by (apply (has_char_forallb _ hex_or_dash); [reflexivity | exact Hh]).
  split.
  - (* the path *)
    assert (Hp : urlparse ("https://jobs.lever.co/" ++ company ++ "/" ++ job_id ++ tail)
                 = Ok (mkParse "https" "jobs.lever.co"
                               ("/" ++ company ++ "/" ++ job_id ++ tail) "" "" "")).
    { destruct Ht as [-> | ->].
      - rewrite append_empty_r.
        apply (urlparse_lever_path company job_id); auto.
      - replace (company ++ "/" ++ job_id ++ "/")
          with ((company ++ "/" ++ job_id) ++ String "/" "")
          by now rewrite !append_assoc.
        apply (urlparse_lever_path (company ++ "/" ++ job_id) ""); auto.
        + rewrite forallb_append. cbn [append PyStr.forallb]. now rewrite Hc1, Hj1.
        + rewrite has_char_append. cbn [append has_char]. now rewrite Hc3, Hj3.
        + rewrite has_char_append. cbn [append has_char]. now rewrite Hc4, Hj4. }
    cbn [get_api_endpoint]. rewrite Hp. cbn [bind path].
    (* the identifier *)
    assert (Hid : search_job_id ("/" ++ company ++ "/" ++ job_id ++ tail) = Some job_id).
    { destruct (search_job_id_found ("/" ++ company) ("/" ++ job_id ++ tail) job_id)
        as [g Hg]; [now apply job_id_here_intro|].
      rewrite append_assoc in Hg. cbn [append] in Hg |- *. rewrite Hg. f_equal.
      apply search_job_id_inv in Hg as (pre & Hg & [rest Hrest]).
      rewrite Hrest, drop_app in Hg.
      apply job_id_here_inv in Hg as (Lg & Hhg & r & -> & Hr).
      apply (job_id_unique (String "/" (company ++ "/")) job_id tail (pre ++ "/") g r);
        auto.
      cbn [append]. rewrite !append_assoc. exact Hrest. }
    rewrite Hid.
    (* the company *)
    rewrite search_group_lever_host.
    change (company ++ "/" ++ job_id ++ tail)
      with (company ++ String "/" (job_id ++ tail)).
    rewrite (take_while_app not_slash company "/" (job_id ++ tail)).
    + destruct company; [now elim Hne | reflexivity].
    + eapply forallb_weaken; [|exact Hc]. intros c Hs.
      apply segment_char_parts in Hs as [Hs _]. unfold no_delim, netloc_delim in Hs.
      unfold not_slash. now destruct (Ascii.eqb c "/").
    + reflexivity.
  - assert (Hp : urlparse ("https://jobs.lever.co/" ++ company ++ "/" ++ job_id ++ "/apply")
                 = Ok (mkParse "https" "jobs.lever.co"
                               ("/" ++ company ++ "/" ++ job_id ++ "/apply") "" "" "")).
    { replace (company ++ "/" ++ job_id ++ "/apply")
        with ((company ++ "/" ++ job_id) ++ String "/" "apply")
        by now rewrite !append_assoc.
      apply (urlparse_lever_path (company ++ "/" ++ job_id) "apply"); auto.
      + rewrite forallb_append. cbn [append PyStr.forallb]. now rewrite Hc1, Hj1.
      + rewrite has_char_append. cbn [append has_char]. now rewrite Hc3, Hj3.
      + rewrite has_char_append. cbn [append has_char]. now rewrite Hc4, Hj4. }
    unfold resolve_lever_url. rewrite Hp. cbn [bind netloc path scheme].
    change (contains "lever.co" (lower "jobs.lever.co")) with true. cbn [negb].
    replace ("/" ++ company ++ "/" ++ job_id ++ "/apply")
      with (("/" ++ company ++ "/" ++ job_id) ++ "/apply")
      by (cbn [append]; now rewrite !append_assoc).
    rewrite sub_apply_strips.
    destruct (String.eqb_spec ("/" ++ company ++ "/" ++ job_id)
                              (("/" ++ company ++ "/" ++ job_id) ++ "/apply")) as [E|_].
    + apply (f_equal length) in E. rewrite !length_append in E.
      cbn [length] in E. lia.
    + reflexivity.
Qed.

(** The posting of the test suite. *)
Lemma get_api_endpoint_lever_posting_example :
  get_api_endpoint (impl := AsciiUrllib.cpython)
    ("https://jobs.lever.co/" ++ "acme" ++ "/"
     ++ "a1b2c3d4-e5f6-7890-abcd-ef1234567890" ++ "") lever
  = Ok (Some (api_prefix ++ "acme" ++ "/" ++ "a1b2c3d4-e5f6-7890-abcd-ef1234567890"))
  /\ resolve_lever_url (impl := AsciiUrllib.cpython)
       ("https://jobs.lever.co/" ++ "acme" ++ "/"
        ++ "a1b2c3d4-e5f6-7890-abcd-ef1234567890" ++ "/apply")
     = Ok ("https://jobs.lever.co/" ++ "acme" ++ "/"
           ++ "a1b2c3d4-e5f6-7890-abcd-ef1234567890", true).
Proof.
  apply (get_api_endpoint_lever_posting AsciiUrllib.cpython "acme"
           "a1b2c3d4-e5f6-7890-abcd-ef1234567890" "");
    [discriminate | reflexivity | reflexivity | reflexivity | now left].
Defined.

End LeverApiFacts.



(* ------------------------------------------------------------------ *)
(** ** What a platform tag says about the URL *)

Module ClassifierFacts.
Import Notions MoreNotions PyStr PyStrFacts Regex RegexFacts Urllib UrllibFacts UrlparseFacts.
Import SourceDetector SourceDetectorFacts.

Lemma contains_app_l w a b : contains w a = true -> contains w (a ++ b) = true.
Proof.
  intros H. apply contains_iff in H as (pre & post & ->). apply contains_iff.
  exists pre, (post ++ b). now rewrite !append_assoc.
Qed.

Lemma contains_app_r w a b : contains w b = true -> contains w (a ++ b) = true.
Proof.
  intros H. apply contains_iff in H as (pre & post & ->). apply contains_iff.
  exists (a ++ pre), post. now rewrite !append_assoc.
Qed.

Lemma matches_lit_inv w s : matches (Lit w) s -> s = w.
Proof.
  revert s. induction w as [|c w IH]; intros s H; cbn in H.
  - now apply matches_eps.
  - apply matches_cat_inv in H as (s1 & s2 & -> & H1 & H2).
    inversion H1 as [|p c' Hc| | | | |]; subst. apply Ascii.eqb_eq in Hc. subst.
    cbn. f_equal. now apply IH.
Qed.

(** A literal pattern is found exactly where the text holds it. *)
Lemma search_lit w s : search (Lit w) s = contains w s.
Proof.
  apply eq_true_iff_eq. rewrite search_iff, contains_iff. split.
  - intros (pre & m & post & -> & Hm). apply matches_lit_inv in Hm. subst. eauto.
  - intros (pre & post & ->). exists pre, w, post. split; [reflexivity | apply matches_lit].
Qed.

Lemma always_contains_lit w s : contains w s = true -> always_contains w (Lit s).
Proof. intros H m Hm. apply matches_lit_inv in Hm. now subst. Qed.

Lemma always_contains_cat_l w r1 r2 :
  always_contains w r1 -> always_contains w (Cat r1 r2).
Proof.
  intros H m Hm. apply matches_cat_inv in Hm as (s1 & s2 & -> & H1 & _).
  apply contains_app_l. now apply H.
Qed.

Lemma always_contains_cat_r w r1 r2 :
  always_contains w r2 -> always_contains w (Cat r1 r2).
Proof.
  intros H m Hm. apply matches_cat_inv in Hm as (s1 & s2 & -> & _ & H2).
  apply contains_app_r. now apply H.
Qed.

Lemma search_always_contains w r s :
  always_contains w r -> search r s = true -> contains w s = true.
Proof.
  intros H Hs. apply search_iff in Hs as (pre & m & post & -> & Hm).
  apply contains_app_r, contains_app_l. now apply H.
Qed.

Create HintDb holds.

#[local] Hint Resolve always_contains_lit always_contains_cat_l always_contains_cat_r
  : holds.

Lemma greenhouse_pattern_words s :
  any_pattern GREENHOUSE_PATTERNS s = true ->
  contains "greenhouse.io" s = true \/ contains "gh_jid=" s = true.
Proof.
  unfold any_pattern, GREENHOUSE_PATTERNS. cbn [existsb].
  rewrite !orb_true_iff.
  intros [H | [H | [H | [H | H]]]]; [left | left | right | left | discriminate];
    (eapply search_always_contains; [|exact H]); auto 6 with holds.
Qed.

Lemma lever_pattern_words s :
  any_pattern LEVER_PATTERNS s = true -> contains "lever.co" s = true.
Proof.
  unfold any_pattern, LEVER_PATTERNS. cbn [existsb].
  rewrite !orb_true_iff.
  intros [H | [H | H]]; [| | discriminate];
    (eapply search_always_contains; [|exact H]); auto 6 with holds.
Qed.

Lemma workday_pattern_words s :
  any_pattern WORKDAY_PATTERNS s = true ->
  contains "myworkdayjobs.com" s = true
  \/ contains ".workday.com/" s = true
  \/ contains ".myworkdaysite.com" s = true.
Proof.
  unfold any_pattern, WORKDAY_PATTERNS. cbn [existsb].
  rewrite !orb_true_iff.
  intros [H | [H | [H | H]]];
    [left | right; left | right; right | discriminate];
    (eapply search_always_contains; [|exact H]); auto 6 with holds.
Qed.

Lemma first_pattern_absent w rest s :
  any_pattern (Lit w :: rest) s = false -> contains w s = false.
Proof.
  unfold any_pattern. cbn [existsb]. rewrite search_lit.
  now intros [H _]%orb_false_iff.
Qed.

(** X10.  What each tag of [detect_source] says about the URL.  Greenhouse: the
    lower-cased URL holds [greenhouse.io] or [gh_jid=], or the parsed query
    has the key [gh_jid].  Lever: it holds [lever.co] and not the Greenhouse
    board.  Workday: it holds one of the three Workday hosts and neither the
    Greenhouse board nor the Lever host.  Generic: it holds none of
    [boards.greenhouse.io], [jobs.lever.co], [myworkdayjobs.com].  An error
    is the error of [urlparse]. *)
Theorem detect_source_tag_sound :
  forall (impl : UrllibImpl) (url : string),
    match detect_source url with
    | Ok greenhouse =>
        contains "greenhouse.io" (lower url) = true
        \/ contains "gh_jid=" (lower url) = true
        \/ exists p, urlparse url = Ok p
                     /\ dict_has "gh_jid" (parse_qs (query p)) = true
    | Ok lever =>
        contains "lever.co" (lower url) = true
        /\ contains "boards.greenhouse.io" (lower url) = false
    | Ok workday =>
        (contains "myworkdayjobs.com" (lower url) = true
         \/ contains ".workday.com/" (lower url) = true
         \/ contains ".myworkdaysite.com" (lower url) = true)
        /\ contains "boards.greenhouse.io" (lower url) = false
        /\ contains "jobs.lever.co" (lower url) = false
    | Ok generic =>
        contains "boards.greenhouse.io" (lower url) = false
        /\ contains "jobs.lever.co" (lower url) = false
        /\ contains "myworkdayjobs.com" (lower url) = false
    | Raise _ => raises (urlparse url)
    end.
Proof.
  intros impl url. unfold detect_source, detect_greenhouse.
  destruct (any_pattern GREENHOUSE_PATTERNS (lower url)) eqn:Hg; cbn [bind].
  { apply greenhouse_pattern_words in Hg as [H | H]; auto. }
  apply first_pattern_absent in Hg.
  destruct (urlparse url) as [p|e] eqn:Hp; cbn [bind]; [|unfold raises; eauto].
  destruct (dict_has "gh_jid" (parse_qs (query p))) eqn:Hd; cbn [bind]; [eauto|].
  unfold detect_lever, detect_workday.
  destruct (any_pattern LEVER_PATTERNS (lower url)) eqn:Hl.
  { split; [now apply lever_pattern_words | exact Hg]. }
  apply first_pattern_absent in Hl.
  destruct (any_pattern WORKDAY_PATTERNS (lower url)) eqn:Hw.
  { split; [now apply workday_pattern_words | split; assumption]. }
  apply first_pattern_absent in Hw. auto.
Qed.

End ClassifierFacts.



(* ------------------------------------------------------------------ *)
(** ** Patterns that ignore case *)

Module IgnoreCaseFacts.
Import Notions MoreNotions PyStr PyStrFacts Regex RegexFacts UrllibFacts PyStrMoreFacts.
Import IgnoreCase ClassifierFacts.

#[local] Hint Constructors matches : core.

Lemma matches_LitI w m : matches (LitI w) m <-> lower m = w.
Proof.
  revert m. induction w as [|a w IH]; intros m; cbn [LitI].
  - split.
    + intros H. apply matches_eps in H. now subst.
    + destruct m; [auto | discriminate].
  - split.
    + intros H. apply matches_cat_inv in H as (s1 & s2 & -> & H1 & H2).
      inversion H1 as [|p c Hc| | | | |]; subst. unfold ci in Hc.
      apply Ascii.eqb_eq in Hc. cbn. f_equal; [exact Hc | now apply IH].
    + destruct m as [|c m]; [discriminate|]. cbn. intros [= Hc Hm].
      change (String c m) with (String c "" ++ m).
      apply m_cat; [|now apply IH]. apply m_class. unfold ci. now rewrite Hc, Ascii.eqb_refl.
Qed.

(** A cut of the lower-case form of a text is the lower-case form of a cut. *)
Lemma lower_split s a b :
  lower s = a ++ b -> exists s1 s2, s = s1 ++ s2 /\ lower s1 = a /\ lower s2 = b.
Proof.
  revert s. induction a as [|x a IH]; intros s E.
  - now exists "", s.
  - destruct s as [|c s]; [discriminate|]. cbn in E. injection E as Hc E.
    destruct (IH _ E) as (s1 & s2 & -> & H1 & H2).
    exists (String c s1), s2. cbn. now rewrite Hc, H1.
Qed.

Lemma ignores_case_LitI w : ignores_case (LitI w).
Proof.
  induction w as [|a w IH]; cbn; [exact I|]. split; [|exact IH].
  intros c. unfold ci. now rewrite lower_char_idem.
Qed.

Lemma ignores_case_alternation rs :
  Forall ignores_case rs -> ignores_case (alternation rs).
Proof. induction 1; cbn; auto. Qed.

Lemma ignores_case_one_of ws : ignores_case (one_of ws).
Proof.
  apply ignores_case_alternation. induction ws; cbn; constructor; auto.
  apply ignores_case_LitI.
Qed.

Lemma isspace_ignores_case : class_ignores_case isspace.
Proof. intros c. destruct c as [[] [] [] [] [] [] [] []]; reflexivity. Qed.

Lemma digit_ignores_case : class_ignores_case digit.
Proof. intros c. destruct c as [[] [] [] [] [] [] [] []]; reflexivity. Qed.

Lemma dash_ignores_case : class_ignores_case dash_or_underscore.
Proof. intros c. destruct c as [[] [] [] [] [] [] [] []]; reflexivity. Qed.

Lemma copyright_ignores_case : class_ignores_case ContentCleanerRest.copyright_sign.
Proof. intros c. destruct c as [[] [] [] [] [] [] [] []]; reflexivity. Qed.

(** A pattern that ignores case matches a text and its lower-case form
    alike. *)
Lemma matches_lower r m : ignores_case r -> matches r m -> matches r (lower m).
Proof.
  intros Hr H. induction H; cbn in Hr; rewrite ?lower_append; cbn [lower]; auto.
  - apply m_class. now rewrite Hr.
  - destruct Hr. auto.
  - destruct Hr. auto.
  - destruct Hr. auto.
Qed.

Lemma matches_of_lower r : ignores_case r ->
  forall x, matches r x -> forall m, lower m = x -> matches r m.
Proof.
  intros Hr x H. induction H; intros m E; cbn in Hr.
  - destruct m; [auto | discriminate].
  - destruct m as [|c' [|d m]]; try discriminate. cbn in E. injection E as <-.
    apply m_class. now rewrite <- Hr.
  - destruct Hr. apply lower_split in E as (m1 & m2 & -> & E1 & E2). auto.
  - destruct Hr. auto.
  - destruct Hr. auto.
  - destruct m; [auto | discriminate].
  - apply lower_split in E as (m1 & m2 & -> & E1 & E2). auto.
Qed.

Lemma search_lower r s : ignores_case r -> search r (lower s) = search r s.
Proof.
  intros Hr. apply eq_true_iff_eq. rewrite !search_iff. split.
  - intros (pre & m & post & E & H).
    apply lower_split in E as (s0 & s12 & -> & E0 & E12).
    apply lower_split in E12 as (s1 & s2 & -> & E1 & E2).
    exists s0, s1, s2. split; [reflexivity|]. eapply matches_of_lower; eauto.
  - intros (pre & m & post & -> & H).
    exists (lower pre), (lower m), (lower post).
    split; [now rewrite !lower_append | now apply matches_lower].
Qed.

(** A text that the pattern matches from its start, found in the lower-case
    form of [s], is found by the pattern in [s]. *)
Lemma search_substring r w s :
  ignores_case r -> match_prefix r w = true -> contains w (lower s) = true ->
  search r s = true.
Proof.
  intros Hr Hw Hc. rewrite <- (search_lower r s Hr).
  apply contains_iff in Hc as (pre & post & ->).
  apply match_prefix_iff in Hw as (m & rest & -> & Hm).
  apply search_iff. exists pre, m, (rest ++ post).
  split; [now rewrite !append_assoc | exact Hm].
Qed.

Lemma matches_alternation rs m :
  matches (alternation rs) m <-> exists r, In r rs /\ matches r m.
Proof.
  induction rs as [|r rs IH]; cbn.
  - split; [intros H; now apply matches_void in H | intros (r & [] & _)].
  - split.
    + intros H. apply matches_alt_inv in H as [H | H]; [eauto|].
      apply IH in H as (r' & Hin & H). eauto.
    + intros (r' & [<- | Hin] & H); [auto|]. apply m_alt_r, IH. eauto.
Qed.

(** ['|'.join(patterns)] is found where one of the patterns is. *)
Lemma search_alternation rs s :
  search (alternation rs) s = existsb (fun r => search r s) rs.
Proof.
  apply eq_true_iff_eq. rewrite search_iff, existsb_exists. split.
  - intros (pre & m & post & -> & H). apply matches_alternation in H as (r & Hin & H).
    exists r. split; [exact Hin|]. apply search_iff. eauto.
  - intros (r & Hin & H). apply search_iff in H as (pre & m & post & -> & H).
    exists pre, m, post. split; [reflexivity|]. apply matches_alternation. eauto.
Qed.

(** A pattern that starts with a literal is found only where the literal
    is. *)
Lemma search_stem_contains w t s :
  search (Cat (LitI w) t) s = true -> contains w (lower s) = true.
Proof.
  intros H. apply search_iff in H as (pre & m & post & -> & H).
  apply matches_cat_inv in H as (m1 & m2 & -> & H1 & _).
  apply matches_LitI in H1. rewrite !lower_append, H1.
  apply contains_iff. exists (lower pre), (lower m2 ++ lower post).
  now rewrite !append_assoc.
Qed.

(** When what follows the literal may be empty, the pattern is found exactly
    where the literal is. *)
Lemma search_stem w t s :
  lower w = w -> ignores_case t -> nullable t = true ->
  search (Cat (LitI w) t) s = contains w (lower s).
Proof.
  intros Hw Ht Hn. apply eq_true_iff_eq. split; [apply search_stem_contains|].
  apply search_substring.
  - split; [apply ignores_case_LitI | exact Ht].
  - apply match_prefix_iff. exists w, "". split; [now rewrite append_empty_r|].
    rewrite <- (append_empty_r w) at 2. apply m_cat.
    + now apply matches_LitI.
    + now apply nullable_iff.
Qed.

End IgnoreCaseFacts.


(* ------------------------------------------------------------------ *)
(** ** Boilerplate elements *)

Module BoilerplateFacts.
Import Notions MoreNotions PyStr PyStrFacts Regex RegexFacts UrllibFacts PyStrMoreFacts.
Import IgnoreCase IgnoreCaseFacts ContentCleanerRest.

#[local] Hint Constructors matches : core.

Ltac ignores_case_tac :=
  cbn [ignores_case seq fold_right Opt Plus sep spaces1 spaces0];
  repeat first
    [ exact I
    | apply ignores_case_LitI
    | apply ignores_case_one_of
    | exact isspace_ignores_case
    | exact digit_ignores_case
    | exact dash_ignores_case
    | exact copyright_ignores_case
    | split ].

(** [sign[-_]?up] *)
Lemma search_sign_up s :
  search (seq [LitI "sign"; sep; LitI "up"]) s
  = contains "signup" (lower s) || contains "sign-up" (lower s)
    || contains "sign_up" (lower s).
Proof.
  apply eq_true_iff_eq. rewrite !orb_true_iff. split.
  - intros H. apply search_iff in H as (pre & m & post & -> & H).
    cbn [seq fold_right] in H.
    apply matches_cat_inv in H as (m1 & m' & -> & H1 & H).
    apply matches_cat_inv in H as (m2 & m'' & -> & H2 & H).
    apply matches_cat_inv in H as (m3 & m4 & -> & H3 & H4).
    apply matches_eps in H4. subst m4.
    apply matches_LitI in H1, H3.
    assert (E : forall mid, lower m2 = mid ->
                contains ("sign" ++ mid ++ "up")
                         (lower (pre ++ (m1 ++ m2 ++ m3 ++ "") ++ post)) = true).
    { intros mid Hm. apply contains_iff. exists (lower pre), (lower post).
      rewrite !lower_append, H1, H3, Hm. cbn [lower]. now rewrite !append_assoc. }
    unfold sep, Opt in H2. apply matches_alt_inv in H2 as [H2 | H2].
    + inversion H2 as [|p c Hc| | | | |]; subst.
      unfold dash_or_underscore in Hc. apply orb_true_iff in Hc as [Hc | Hc];
        apply Ascii.eqb_eq in Hc; subst c.
      * left. right. now apply (E "-").
      * right. now apply (E "_").
    + apply matches_eps in H2. subst m2. left. left. now apply (E "").
  - assert (Hic : ignores_case (seq [LitI "sign"; sep; LitI "up"])) by ignores_case_tac.
    intros [[H | H] | H]; (eapply search_substring; [exact Hic | | exact H]);
      vm_compute; reflexivity.
Qed.

(** X11.  The test of [_remove_boilerplate_elements] on the classes, the id and the
    role of an element holds exactly when their text, in lower case, holds
    one of the fixed starts of the patterns anywhere: what may follow a start
    in a pattern is optional and changes nothing.  In particular every
    element whose class, id or role holds the letters [ad] is removed. *)
Theorem is_boilerplate_iff_stem :
  forall class_str elem_id role : string,
    is_boilerplate class_str elem_id role
    = existsb (fun w => contains w (lower (combined class_str elem_id role)))
              boilerplate_stems.
Proof.
  intros class_str elem_id role. unfold is_boilerplate.
  generalize (combined class_str elem_id role) as s. intros s.
  unfold BOILERPLATE_REGEX. rewrite search_alternation.
  unfold BOILERPLATE_PATTERNS, boilerplate_stems. cbn [existsb].
  rewrite search_sign_up.
  cbn [seq fold_right].
  rewrite !search_stem by (try reflexivity; ignores_case_tac).
  now rewrite <- !orb_assoc.
Qed.

End BoilerplateFacts.


(* ------------------------------------------------------------------ *)
(** ** Legal sections *)

Module LegalSectionsFacts.
Import Notions MoreNotions PyStr PyStrMore PyStrFacts Regex RegexFacts UrllibFacts.
Import FinalCleanupFacts PyStrMoreFacts IgnoreCase IgnoreCaseFacts ContentCleanerRest.
Import BoilerplateFacts.

(** *** Lines and texts *)

Lemma split_absent c x : has_char c x = false -> split c x = [x].
Proof.
  induction x as [|a x IH]; cbn; [reflexivity|].
  intros [Ha Hx]%orb_false_iff. now rewrite Ha, (IH Hx).
Qed.

Lemma split_app c x t :
  has_char c x = false -> split c (x ++ String c t) = x :: split c t.
Proof.
  induction x as [|a x IH]; cbn.
  - intros _. now rewrite Ascii.eqb_refl.
  - intros [Ha Hx]%orb_false_iff. now rewrite Ha, (IH Hx).
Qed.

(** Lines joined and split again are the same lines. *)
Lemma split_join lines :
  lines <> [] -> Forall one_line lines -> split nl (join LF lines) = lines.
Proof.
  induction lines as [|x [|y r] IH]; intros Hne H; [now elim Hne | |].
  - inversion H; subst. now apply split_absent.
  - inversion H; subst. change (join LF (x :: y :: r)) with (x ++ String nl (join LF (y :: r))).
    rewrite split_app by assumption. f_equal. apply IH; [discriminate | assumption].
Qed.

(** The lines of a text that are not empty, when the text is made of
    lines. *)
Lemma inked_lines_join lines :
  Forall one_line lines -> inked_lines (join LF lines) = filter nonblank lines.
Proof.
  intros H. unfold inked_lines, lines_of. destruct lines as [|x r]; [reflexivity|].
  rewrite split_join; [reflexivity | discriminate | exact H].
Qed.

(** *** [strip] *)

Lemma lstrip_head p s a t : lstrip_by p s = String a t -> p a = false.
Proof.
  induction s as [|c s IH]; cbn; [discriminate|].
  destruct (p c) eqn:E; [exact IH | now intros [= <- <-]].
Qed.

Lemma rstrip_head p a s b r : rstrip_by p (String a s) = String b r -> b = a.
Proof.
  cbn. destruct (rstrip_by p s); [destruct (p a); [discriminate|] |]; now intros [= <- _].
Qed.

Lemma rstrip_idem p s : rstrip_by p (rstrip_by p s) = rstrip_by p s.
Proof.
  induction s as [|a s IH]; [reflexivity|]. cbn [rstrip_by].
  destruct (rstrip_by p s) as [|b r] eqn:E.
  - destruct (p a) eqn:Ha; [reflexivity|]. cbn. now rewrite Ha.
  - cbn [rstrip_by]. cbn [rstrip_by] in IH. now rewrite IH.
Qed.

Lemma strip_idem s : strip (strip s) = strip s.
Proof.
  unfold strip.
  assert (E : lstrip_by isspace (rstrip_by isspace (lstrip_by isspace s))
              = rstrip_by isspace (lstrip_by isspace s)).
  { destruct (lstrip_by isspace s) as [|a t] eqn:El; [reflexivity|].
    apply lstrip_head in El.
    destruct (rstrip_by isspace (String a t)) as [|b r] eqn:Er; [reflexivity|].
    apply rstrip_head in Er. subst b. cbn. now rewrite El. }
  rewrite E. apply rstrip_idem.
Qed.

Lemma strip_one_line s : one_line s -> one_line (strip s).
Proof.
  unfold one_line, strip. intros H.
  destruct (lstrip_by_suffix isspace s) as [a Ha].
  destruct (rstrip_by_prefix isspace (lstrip_by isspace s)) as [b Hb].
  rewrite Ha, Hb, !has_char_append in H.
  apply orb_false_iff in H as [_ H]. now apply orb_false_iff in H as [H _].
Qed.

(** *** The list of kept lines *)

Lemma spaced_app pb lines x :
  spaced pb (lines ++ [x])
  = spaced pb lines && (nonblank x || negb (ends_blank pb lines)).
Proof.
  revert pb. induction lines as [|l r IH]; intros pb.
  - cbn. unfold nonblank. destruct (String.eqb x ""); cbn; now rewrite ?andb_true_r.
  - cbn [app spaced].
    assert (E : forall pb', ends_blank pb (l :: r) = ends_blank pb' (l :: r))
      by reflexivity.
    assert (Er : forall pb', r <> [] -> ends_blank pb' r = ends_blank pb (l :: r)).
    { intros pb' Hr. destruct r as [|y r']; [now elim Hr | reflexivity]. }
    destruct (String.eqb_spec l "") as [->|Hl].
    + rewrite IH. destruct r as [|y r'].
      * cbn. now destruct pb, (nonblank x).
      * rewrite (Er true) by discriminate. now rewrite andb_assoc.
    + rewrite IH. destruct r as [|y r'].
      * cbn. destruct (String.eqb_spec l ""); [contradiction | reflexivity].
      * now rewrite (Er false) by discriminate.
Qed.

Lemma ends_blank_app pb lines x : ends_blank pb (lines ++ [x]) = String.eqb x "".
Proof.
  unfold ends_blank. destruct (lines ++ [x])%list eqn:E.
  - destruct lines; discriminate.
  - rewrite <- E. now rewrite last_last.
Qed.

Lemma kept_empty : kept "".
Proof. repeat split. Qed.

Lemma legal_step_kept state line :
  one_line line ->
  Forall kept (fst state) -> spaced true (fst state) = true ->
  Forall kept (fst (legal_step state line))
  /\ spaced true (fst (legal_step state line)) = true.
Proof.
  destruct state as [cleaned skip]. cbn [fst]. intros Hl Hk Hs. unfold legal_step.
  destruct (String.eqb_spec (strip line) "") as [E|N].
  - destruct cleaned as [|c0 cl]; [auto|].
    destruct (String.eqb_spec (last (c0 :: cl) "") "") as [El|Nl]; cbn [negb fst]; [auto|].
    split.
    + apply Forall_app. split; [exact Hk | constructor; [apply kept_empty | constructor]].
    + rewrite spaced_app, Hs. cbn [ends_blank andb nonblank].
      destruct (String.eqb_spec (last (c0 :: cl) "") ""); [contradiction | reflexivity].
  - destruct (search LEGAL_REGEX (strip line)) eqn:Hlegal.
    + destruct (Nat.ltb _ 100); auto.
    + match goal with
      | |- context [if negb ?b then _ else _] => destruct b
      end; cbn [negb fst]; [auto|].
      split.
      * apply Forall_app. split; [exact Hk|]. constructor; [|constructor].
        split; [now apply strip_one_line | split; [apply strip_idem | exact Hlegal]].
      * rewrite spaced_app, Hs. unfold nonblank.
        destruct (String.eqb_spec (strip line) ""); [contradiction | reflexivity].
Qed.

Lemma legal_fold_kept lines state :
  Forall one_line lines ->
  Forall kept (fst state) -> spaced true (fst state) = true ->
  Forall kept (fst (fold_left legal_step lines state))
  /\ spaced true (fst (fold_left legal_step lines state)) = true.
Proof.
  revert state. induction lines as [|l r IH]; intros state Hl Hk Hs; cbn [fold_left].
  - auto.
  - inversion Hl; subst.
    destruct (legal_step_kept state l) as [Hk' Hs']; auto.
Qed.

Lemma legal_lines_kept lines :
  Forall one_line lines ->
  Forall kept (legal_lines lines) /\ spaced true (legal_lines lines) = true.
Proof. intros H. apply legal_fold_kept; auto. Qed.

Lemma split_one_line text : Forall one_line (split nl text).
Proof. apply split_no_sep. Qed.

(** The loop leaves a list of kept lines as it is. *)
Lemma legal_fold_fixed lines cleaned :
  Forall kept lines -> spaced (ends_blank true cleaned) lines = true ->
  fold_left legal_step lines (cleaned, false) = ((cleaned ++ lines)%list, false).
Proof.
  revert cleaned. induction lines as [|x r IH]; intros cleaned Hk Hs; cbn [fold_left].
  - now rewrite app_nil_r.
  - inversion Hk as [|? ? (Hx1 & Hx2 & Hx3) Hr]; subst.
    assert (Happ : forall l, ((cleaned ++ [l]) ++ r)%list = (cleaned ++ l :: r)%list)
      by (intros l; now rewrite <- app_assoc).
    unfold legal_step at 2. rewrite Hx2. cbn [spaced] in Hs.
    destruct (String.eqb_spec x "") as [->|N].
    + apply andb_true_iff in Hs as [Hb Hs]. apply negb_true_iff in Hb.
      destruct cleaned as [|c0 cl]; [discriminate|]. cbn [ends_blank] in Hb.
      rewrite Hb. cbn [negb]. rewrite IH; [now rewrite Happ | exact Hr |].
      now rewrite ends_blank_app.
    + rewrite Hx3. cbn [andb negb]. rewrite IH; [now rewrite Happ | exact Hr |].
      rewrite ends_blank_app. now destruct (String.eqb_spec x "").
Qed.

(** X12.  [_remove_legal_sections] is idempotent: applied to its own result it
    changes nothing. *)
Theorem remove_legal_sections_idempotent :
  forall text : string,
    _remove_legal_sections (_remove_legal_sections text) = _remove_legal_sections text.
Proof.
  intros text.
  destruct (legal_lines_kept (split nl text) (split_one_line text)) as [Hk Hs].
  unfold _remove_legal_sections. f_equal.
  destruct (legal_lines (split nl text)) as [|x r]; [reflexivity|].
  rewrite split_join; [|discriminate | eapply Forall_impl; [|exact Hk]; now intros l [H _]].
  unfold legal_lines. rewrite legal_fold_fixed; [reflexivity | exact Hk | exact Hs].
Qed.

Lemma legal_phrases_found phrase :
  In phrase legal_phrases -> match_prefix LEGAL_REGEX phrase = true.
Proof.
  unfold legal_phrases. cbn [In].
  intros H; repeat (destruct H as [<- | H]; [vm_compute; reflexivity|]); destruct H.
Qed.

Lemma legal_regex_ignores_case : ignores_case LEGAL_REGEX.
Proof.
  apply ignores_case_alternation. unfold LEGAL_TEXT_PATTERNS.
  repeat (constructor; [ignores_case_tac|]). constructor.
Qed.

(** X13.  What [_remove_legal_sections] returns.  No line of it has white space at
    an end, none holds legal text: the pattern finds nothing in it, so it
    holds none of the listed phrases in any letter case.  The text is empty,
    or it does not start with a blank line and has no two blank lines in a
    row. *)
Theorem remove_legal_sections_lines :
  forall text : string,
    Forall (fun line =>
              strip line = line
              /\ search LEGAL_REGEX line = false
              /\ forall phrase, In phrase legal_phrases ->
                                contains phrase (lower line) = false)
           (lines_of (_remove_legal_sections text))
    /\ (_remove_legal_sections text = ""
        \/ spaced true (lines_of (_remove_legal_sections text)) = true).
Proof.
  intros text. unfold _remove_legal_sections, lines_of.
  destruct (legal_lines_kept (split nl text) (split_one_line text)) as [Hk Hs].
  assert (Hphrase : forall line, search LEGAL_REGEX line = false ->
                    forall phrase, In phrase legal_phrases ->
                                   contains phrase (lower line) = false).
  { intros line Hl phrase Hin.
    destruct (contains phrase (lower line)) eqn:Hc; [|reflexivity].
    rewrite (search_substring LEGAL_REGEX phrase line) in Hl;
      [discriminate | apply legal_regex_ignores_case
       | now apply legal_phrases_found | exact Hc]. }
  destruct (legal_lines (split nl text)) as [|x r] eqn:E.
  - split; [|now left]. cbn. constructor; [|constructor].
    split; [reflexivity|]. split; [reflexivity|]. now apply Hphrase.
  - rewrite split_join; [|discriminate | eapply Forall_impl; [|exact Hk]; now intros l [H _]].
    split; [|now right].
    eapply Forall_impl; [|exact Hk]. intros l (_ & H2 & H3). auto.
Qed.

(** *** Text without legal phrases *)

Lemma legal_fold_clean lines cleaned :
  Forall (fun line => search LEGAL_REGEX (strip line) = false) lines ->
  exists cleaned',
    fold_left legal_step lines (cleaned, false) = (cleaned', false)
    /\ filter nonblank cleaned'
       = (filter nonblank cleaned ++ filter nonblank (map strip lines))%list.
Proof.
  revert cleaned. induction lines as [|l r IH]; intros cleaned H; cbn [fold_left].
  - exists cleaned. now rewrite app_nil_r.
  - inversion H as [|? ? Hl Hr]; subst.
    assert (Step : exists c1, legal_step (cleaned, false) l = (c1, false)
                   /\ filter nonblank c1
                      = (filter nonblank cleaned ++ filter nonblank [strip l])%list).
    { unfold legal_step. cbn [filter].
      destruct (String.eqb_spec (strip l) "") as [E|N].
      - rewrite E. cbn [nonblank String.eqb negb]. rewrite app_nil_r.
        destruct cleaned as [|c0 cl]; [now exists []|].
        destruct (negb _).
        + eexists. split; [reflexivity|]. rewrite filter_app. cbn. now rewrite app_nil_r.
        + eexists. split; reflexivity.
      - assert (Hnb : nonblank (strip l) = true)
          by (unfold nonblank; now destruct (String.eqb_spec (strip l) "")).
        rewrite Hl, Hnb. cbn [andb negb]. eexists. split; [reflexivity|].
        rewrite filter_app. cbn [filter]. now rewrite Hnb. }
    destruct Step as (c1 & -> & E1).
    destruct (IH c1 Hr) as (c2 & -> & E2). exists c2. split; [reflexivity|].
    rewrite E2, E1. cbn [map filter]. rewrite <- app_assoc. f_equal.
    now destruct (nonblank (strip l)).
Qed.

(** X14.  When no line of a text holds legal text, nothing is lost: the lines of
    the result that are not empty are the lines of the text that are not
    blank, stripped, in the same order. *)
Theorem remove_legal_sections_keeps_text :
  forall text : string,
    Forall (fun line => search LEGAL_REGEX (strip line) = false) (lines_of text) ->
    inked_lines (_remove_legal_sections text)
    = filter nonblank (map strip (lines_of text)).
Proof.
  intros text H. unfold _remove_legal_sections.
  destruct (legal_lines_kept (split nl text) (split_one_line text)) as [Hk _].
  rewrite inked_lines_join by (eapply Forall_impl; [|exact Hk]; now intros l [Hl _]).
  unfold legal_lines.
  destruct (legal_fold_clean (lines_of text) [] H) as (c & Hc & E).
  unfold lines_of in Hc. now rewrite Hc.
Qed.

(** On a posting of four lines, with blank space around them. *)
Lemma remove_legal_sections_keeps_text_example :
  inked_lines (_remove_legal_sections
                 ("  About the role " ++ LF ++ LF ++ LF ++ "Build things" ++ LF
                  ++ String tab "Requirements:" ++ LF ++ "Python"))
  = filter nonblank
      (map strip (lines_of ("  About the role " ++ LF ++ LF ++ LF ++ "Build things" ++ LF
                            ++ String tab "Requirements:" ++ LF ++ "Python"))).
Proof.
  apply remove_legal_sections_keeps_text.
  apply Forall_forall. intros line Hin. vm_compute in Hin.
  repeat (destruct Hin as [<- | Hin]; [vm_compute; reflexivity|]). destruct Hin.
Defined.

(** *** A line of legal text *)

Lemma legal_fold_skipping lines cleaned :
  Forall (fun line => header_like line = false) lines ->
  exists cleaned',
    fold_left legal_step lines (cleaned, true) = (cleaned', true)
    /\ filter nonblank cleaned' = filter nonblank cleaned.
Proof.
  revert cleaned. induction lines as [|l r IH]; intros cleaned H; cbn [fold_left].
  - now exists cleaned.
  - inversion H as [|? ? Hl Hr]; subst.
    assert (Step : exists c1, legal_step (cleaned, true) l = (c1, true)
                   /\ filter nonblank c1 = filter nonblank cleaned).
    { unfold legal_step.
      destruct (String.eqb_spec (strip l) "") as [E|N].
      - destruct cleaned as [|c0 cl]; [now exists []|].
        destruct (negb _).
        + eexists. split; [reflexivity|]. rewrite filter_app. cbn. now rewrite app_nil_r.
        + eexists. split; reflexivity.
      - destruct (search LEGAL_REGEX (strip l)).
        + destruct (Nat.ltb _ 100); eexists; split; reflexivity.
        + unfold header_like in Hl. cbn [andb]. rewrite Hl. cbn [negb].
          eexists. split; reflexivity. }
    destruct Step as (c1 & -> & E1).
    destruct (IH c1 Hr) as (c2 & -> & E2). exists c2. split; [reflexivity | congruence].
Qed.

Lemma legal_lines_of_join lines :
  Forall one_line lines -> legal_lines (split nl (join LF lines)) = legal_lines lines.
Proof.
  intros H. destruct lines as [|x r]; [reflexivity|].
  rewrite split_join; [reflexivity | discriminate | exact H].
Qed.

(** X15.  A line with legal text that is shorter than 100 characters cuts the text:
    it is dropped, and so is every line after it up to the next line that is
    shorter than 60 characters and ends with a colon.  When no such line
    follows, what is left of the text is what is left of the lines before the
    legal one. *)
Theorem short_legal_line_cuts_text :
  forall (before : list string) (line : string) (after : list string),
    Forall one_line (before ++ line :: after) ->
    short_legal line = true ->
    Forall (fun l => header_like l = false) after ->
    inked_lines (_remove_legal_sections (join LF (before ++ line :: after)))
    = inked_lines (_remove_legal_sections (join LF before)).
Proof.
  intros before line after Hall Hlegal Hafter.
  assert (Hb : Forall one_line before).
  { apply Forall_app in Hall. tauto. }
  unfold _remove_legal_sections.
  rewrite !legal_lines_of_join by assumption.
  destruct (legal_lines_kept _ Hall) as [Hk1 _].
  destruct (legal_lines_kept _ Hb) as [Hk2 _].
  rewrite !inked_lines_join
    by (eapply Forall_impl; [|eassumption]; now intros l [Hl _]).
  unfold legal_lines. rewrite fold_left_app. cbn [fold_left].
  destruct (fold_left legal_step before ([], false)) as [cleaned skip].
  assert (Hstep : legal_step (cleaned, skip) line = (cleaned, true)).
  { unfold short_legal in Hlegal. apply andb_true_iff in Hlegal as [H1 H2].
    unfold legal_step.
    destruct (String.eqb_spec (strip line) "") as [E|N].
    - rewrite E in H1. discriminate.
    - now rewrite H1, H2. }
  rewrite Hstep.
  destruct (legal_fold_skipping after cleaned Hafter) as (c & -> & E). exact E.
Qed.

(** A posting whose last lines follow an equal-opportunity statement. *)
Lemma short_legal_line_cuts_text_example :
  inked_lines (_remove_legal_sections
                 (join LF (["Engineer"; "Build things"]
                           ++ "We are an Equal  Opportunity Employer"
                           :: ["All applicants are welcome"; ""; "Apply by Friday"])))
  = inked_lines (_remove_legal_sections (join LF ["Engineer"; "Build things"])).
Proof.
  apply short_legal_line_cuts_text.
  - repeat constructor.
  - vm_compute. reflexivity.
  - repeat constructor.
Defined.

End LegalSectionsFacts.


(* ------------------------------------------------------------------ *)
(** ** The text of a page *)

Module HtmlTextFacts.
Import Notions MoreNotions PyStr PyStrFacts UrllibFacts ContentCleaner FinalCleanupFacts.
Import PyStrMoreFacts LegalSectionsFacts HtmlText.

(** *** Runs of line ends *)

Lemma startswith_newline_false t w :
  startswith LF t = false -> startswith (String nl w) t = false.
Proof.
  destruct t as [|c t]; [reflexivity|]. unfold LF. cbn [startswith].
  destruct (Ascii.eqb nl c); [discriminate | reflexivity].
Qed.

Lemma contains_cons w c t :
  contains w (String c t) = startswith w (String c t) || contains w t.
Proof. reflexivity. Qed.

Lemma startswith_cons a w c t :
  startswith (String a w) (String c t) = Ascii.eqb a c && startswith w t.
Proof. reflexivity. Qed.

Lemma no_three_cons c t :
  Ascii.eqb c nl = false -> contains three_newlines t = false ->
  contains three_newlines (String c t) = false.
Proof.
  intros Hc Ht. rewrite contains_cons, Ht. unfold three_newlines.
  now rewrite startswith_cons, Ascii.eqb_sym, Hc.
Qed.

(** At most two line ends, then nothing or a character that is none. *)
Lemma no_three_flush run t :
  (t = "" \/ exists c t', t = String c t' /\ Ascii.eqb c nl = false) ->
  contains three_newlines t = false ->
  contains three_newlines (flush_newlines run ++ t) = false.
Proof.
  intros Hstart Ht.
  assert (H0 : startswith LF t = false).
  { destruct Hstart as [-> | (c & t' & -> & Hc)]; [reflexivity|].
    unfold LF. now rewrite startswith_cons, Ascii.eqb_sym, Hc. }
  assert (H1 : contains three_newlines (String nl t) = false).
  { rewrite contains_cons, Ht. unfold three_newlines.
    now rewrite startswith_cons, (startswith_newline_false _ _ H0), andb_false_r. }
  assert (H2 : contains three_newlines (String nl (String nl t)) = false).
  { rewrite contains_cons, H1. unfold three_newlines.
    rewrite !startswith_cons. fold LF. now rewrite H0, !andb_false_r. }
  unfold flush_newlines.
  destruct run as [|[|[|run]]]; cbn [Nat.leb repeat_char append LF]; assumption.
Qed.

Lemma sub_newline_runs_aux_no_three run s :
  contains three_newlines (sub_newline_runs_aux run s) = false.
Proof.
  revert run. induction s as [|c s IH]; intros run; cbn [sub_newline_runs_aux].
  - rewrite <- (append_empty_r (flush_newlines run)).
    apply no_three_flush; [now left | reflexivity].
  - destruct (Ascii.eqb c nl) eqn:Hc; [apply IH|].
    apply no_three_flush.
    + right. eauto.
    + apply no_three_cons; [exact Hc | apply IH].
Qed.

(** *** Runs of blanks *)

Lemma is_blank_not_nl c : is_blank c = true -> Ascii.eqb c nl = false.
Proof. intros H. now apply is_blank_space in H. Qed.

Lemma sub_blank_runs_aux_no_tab b s : has_char tab (sub_blank_runs_aux b s) = false.
Proof.
  revert b. induction s as [|c s IH]; intros b; cbn [sub_blank_runs_aux]; [reflexivity|].
  destruct (is_blank c) eqn:Hc.
  - destruct b; [apply IH|]. cbn [has_char]. now rewrite IH.
  - cbn [has_char]. rewrite IH, orb_false_r.
    unfold is_blank in Hc. apply orb_false_iff in Hc as [_ Hc]. exact Hc.
Qed.

Lemma sub_blank_runs_aux_no_double b s :
  contains "  " (sub_blank_runs_aux b s) = false
  /\ (b = true -> startswith " " (sub_blank_runs_aux b s) = false).
Proof.
  revert b. induction s as [|c s IH]; intros b; cbn [sub_blank_runs_aux].
  - now split.
  - destruct (is_blank c) eqn:Hc.
    + destruct b.
      * apply IH.
      * destruct (IH true) as [H1 H2]. split; [|discriminate].
        rewrite contains_cons, H1, orb_false_r.
        destruct (sub_blank_runs_aux true s) as [|d r] eqn:E; [reflexivity|].
        rewrite !startswith_cons. specialize (H2 eq_refl).
        rewrite startswith_cons in H2. rewrite Ascii.eqb_refl. exact H2.
    + destruct (IH false) as [H1 _].
      assert (Hsp : Ascii.eqb " " c = false).
      { unfold is_blank in Hc. apply orb_false_iff in Hc as [Hc _].
        now rewrite Ascii.eqb_sym. }
      split.
      * now rewrite contains_cons, H1, startswith_cons, Hsp.
      * intros _. now rewrite startswith_cons, Hsp.
Qed.

(** What follows a character that is no blank starts with two line ends only
    if it did before. *)
Lemma sub_blank_runs_aux_start s :
  startswith (String nl LF) (sub_blank_runs_aux false s) = true ->
  startswith (String nl LF) s = true.
Proof.
  destruct s as [|c1 s1]; cbn [sub_blank_runs_aux]; [discriminate|].
  destruct (is_blank c1) eqn:H1; [discriminate|].
  rewrite !startswith_cons. intros [Hc1 H]%andb_true_iff. rewrite Hc1. cbn [andb].
  destruct s1 as [|c2 s2]; cbn [sub_blank_runs_aux] in H |- *; [discriminate|].
  destruct (is_blank c2) eqn:H2; [discriminate|].
  unfold LF in *. rewrite startswith_cons in H |- *.
  apply andb_true_iff in H as [Hc2 _]. now rewrite Hc2.
Qed.

Lemma sub_blank_runs_aux_no_three b s :
  contains three_newlines s = false ->
  contains three_newlines (sub_blank_runs_aux b s) = false.
Proof.
  revert b. induction s as [|c s IH]; intros b; cbn [sub_blank_runs_aux]; [auto|].
  rewrite contains_cons. intros [Hs Ht]%orb_false_iff.
  destruct (is_blank c) eqn:Hc.
  - destruct b; [now apply IH|].
    apply no_three_cons; [reflexivity | now apply IH].
  - rewrite contains_cons, (IH false Ht), orb_false_r.
    unfold three_newlines in Hs |- *. rewrite startswith_cons in Hs |- *.
    destruct (Ascii.eqb nl c); [|reflexivity]. cbn [andb] in Hs |- *.
    destruct (startswith (String nl LF) (sub_blank_runs_aux false s)) eqn:E;
      [|reflexivity].
    apply sub_blank_runs_aux_start in E. congruence.
Qed.

Lemma has_char_strip_absent c s : has_char c s = false -> has_char c (strip s) = false.
Proof.
  unfold strip. intros H.
  destruct (lstrip_by_suffix isspace s) as [a Ha].
  destruct (rstrip_by_prefix isspace (lstrip_by isspace s)) as [b Hb].
  rewrite Ha, Hb, !has_char_append in H.
  apply orb_false_iff in H as [_ H]. now apply orb_false_iff in H as [H _].
Qed.

Lemma contains_strip_absent w s : contains w s = false -> contains w (strip s) = false.
Proof.
  intros H. destruct (contains w (strip s)) eqn:E; [|reflexivity].
  apply contains_strip in E. congruence.
Qed.

(** The three steps of [_extract_text_from_element] leave a tidy text. *)
Lemma tidy_steps text : tidy (strip (sub_blank_runs (sub_newline_runs text))).
Proof.
  unfold tidy, sub_blank_runs, sub_newline_runs. split; [|split; [|split]].
  - apply has_char_strip_absent, sub_blank_runs_aux_no_tab.
  - apply contains_strip_absent, sub_blank_runs_aux_no_double.
  - apply contains_strip_absent, sub_blank_runs_aux_no_three,
      sub_newline_runs_aux_no_three.
  - apply strip_idem.
Qed.

Lemma tidy_empty : tidy "".
Proof. repeat split. Qed.

(** X16.  Whatever BeautifulSoup finds in a page, the text that [parse_html]
    returns as [content] is tidy: it holds no tab, no two spaces in a row and
    no two blank lines in a row, and it neither starts nor ends with white
    space; so is the text of every element that
    [_extract_text_from_element] is given.  The content is the text of the
    element that [_find_main_content] finds, of the body when it finds none,
    and empty when there is no body either.  The title has nothing to strip,
    and [html_length] is the length of the page. *)
Theorem parse_html_content_tidy :
  forall (impl : SoupImpl) (html : string),
    tidy (content (parse_html html))
    /\ (forall element, tidy (_extract_text_from_element element))
    /\ content (parse_html html)
       = match _find_main_content html with
         | Some e => _extract_text_from_element (Some e)
         | None => _extract_text_from_element (soup_find html (ByName "body"))
         end
    /\ (forall title, page_title (parse_html html) = Some title -> strip title = title)
    /\ html_length (parse_html html) = length html.
Proof.
  intros impl html.
  assert (T : forall element, tidy (_extract_text_from_element element)).
  { intros [e|]; cbn [_extract_text_from_element]; [apply tidy_steps | apply tidy_empty]. }
  assert (E : content (parse_html html)
              = match _find_main_content html with
                | Some e => _extract_text_from_element (Some e)
                | None => _extract_text_from_element (soup_find html (ByName "body"))
                end).
  { unfold parse_html. cbn [content].
    destruct (_find_main_content html); [reflexivity|].
    now destruct (soup_find html (ByName "body")). }
  split; [|split; [|split; [|split]]].
  - rewrite E. destruct (_find_main_content html); apply T.
  - exact T.
  - exact E.
  - unfold parse_html. cbn [page_title].
    destruct (soup_find html (ByName "title")); [|discriminate].
    intros title [= <-]. apply strip_idem.
  - reflexivity.
Qed.

End HtmlTextFacts.


(* ------------------------------------------------------------------ *)
(** ** The fields of a normalised posting *)

Module PostingFieldsFacts.
Import Notions MoreNotions PyStr PyVal HtmlParser.

Lemma extract_value_text data keys :
  _extract_value data keys = JNull \/ is_text (_extract_value data keys) = true.
Proof.
  induction keys as [|key rest IH]; cbn [_extract_value]; [now left|].
  destruct (truthy (get key data)); [|exact IH].
  destruct (get key data); try exact IH; try (now right).
  destruct (first_sub_key _ _); [now right | exact IH].
Qed.

Lemma extract_salary_text data v :
  _extract_salary data = Ok v -> v = JNull \/ is_text v = true.
Proof.
  unfold _extract_salary. cbv zeta.
  generalize (py_or (get "baseSalary" data) (get "estimatedSalary" data)) as salary.
  intros salary.
  destruct (negb (truthy salary)); [intros [= <-]; now left|].
  destruct salary as [| | | |s|l|d];
    try (intros [= <-]; now left); try (intros [= <-]; now right).
  generalize (get_default "currency" (JStr "USD") d) as currency. intros currency.
  destruct (get "value" d) as [|b|n|f|s|l|v'];
    try (destruct (truthy _); intros [= <-]; now auto).
  generalize (get_default "unitText" (JStr "YEAR") v') as unit. intros unit.
  destruct (truthy (get "minValue" v') && truthy (get "maxValue" v')).
  - destruct (format_comma _); cbn [bind]; [|discriminate].
    destruct (format_comma _); cbn [bind]; [|discriminate].
    intros [= <-]. now right.
  - destruct (truthy (get "minValue" v')); [|intros [= <-]; now left].
    destruct (format_comma _); cbn [bind]; [|discriminate].
    intros [= <-]. now right.
Qed.

Lemma extract_skills_list data : is_text_list (_extract_skills data) = true.
Proof.
  unfold _extract_skills. destruct (negb (truthy _)); [reflexivity|].
  destruct (py_or _ _); try reflexivity. cbn [is_text_list].
  induction (filter truthy l) as [|x r IH]; cbn; [reflexivity | exact IH].
Qed.

(** The record before its empty fields are dropped. *)
Lemma normalize_inv data r :
  _normalize_job_posting data = Ok r ->
  exists location salary,
    _extract_location data = Ok location
    /\ _extract_salary data = Ok salary
    /\ r = filter (fun kv => truthy (snd kv))
             [ ("title", _extract_value data ["title"; "name"]);
               ("description", _extract_value data ["description"]);
               ("company", _extract_company data);
               ("location", location);
               ("employment_type", _extract_value data ["employmentType"]);
               ("date_posted", _extract_value data ["datePosted"]);
               ("valid_through", _extract_value data ["validThrough"]);
               ("salary", salary);
               ("experience", _extract_value data ["experienceRequirements"]);
               ("education", _extract_value data ["educationRequirements"]);
               ("skills", _extract_skills data);
               ("industry", _extract_value data ["industry"]) ].
Proof.
  unfold _normalize_job_posting.
  destruct (_extract_location data) as [loc|e]; cbn [bind]; [|discriminate].
  destruct (_extract_salary data) as [sal|e]; cbn [bind]; [|discriminate].
  match goal with
  | |- Ok (filter ?f ?l) = Ok r -> _ => generalize (eq_refl l); generalize l at 1 3
  end.
  intros l El H. injection H as <-. exists loc, sal. subst l. auto.
Qed.

Lemma filter_fst_nodup (A B : Type) (f : A * B -> bool) (l : list (A * B)) :
  NoDup (map fst l) -> NoDup (map fst (filter f l)).
Proof.
  induction l as [|x l IH]; cbn; [auto|]. intros H. inversion H as [|? ? Hn Hd]; subst.
  destruct (f x); cbn; [|auto]. constructor; [|auto].
  intros Hin. apply Hn. apply in_map_iff in Hin as (y & Ey & Hy).
  apply filter_In in Hy as [Hy _]. apply in_map_iff. eauto.
Qed.

(** X17.  The types of the fields of a record.  Every field has one of the twelve
    names, each at most once.  The nine text fields are a [str] when they are
    present, and [skills] is a list of [str].  The two other fields can be
    any JSON value: [company] is the [name] of the hiring organization as it
    is, [location] can be the [name] of a place as it is; the last two lines
    give a posting where they are numbers. *)
Theorem normalize_job_posting_field_types :
  (forall (data : pydict) (r : posting),
      _normalize_job_posting data = Ok r ->
      NoDup (map fst r)
      /\ forall k v, In (k, v) r ->
           In k field_names
           /\ (In k text_fields -> is_text v = true)
           /\ (k = "skills" -> is_text_list v = true))
  /\ _normalize_job_posting
       [("hiringOrganization", JDict [("name", JInt 7)]);
        ("jobLocation", JDict [("name", JInt 9)])]
     = Ok [("company", JInt 7); ("location", JInt 9)].
Proof.
  split; [|reflexivity].
  intros data r H. apply normalize_inv in H as (loc & sal & Hloc & Hsal & ->).
  split.
  - apply filter_fst_nodup. cbn [map fst].
    repeat (constructor; [cbn [In]; intuition discriminate|]). constructor.
  - assert (All : Forall (fun kv =>
                   truthy (snd kv) = true ->
                   In (fst kv) field_names
                   /\ (In (fst kv) text_fields -> is_text (snd kv) = true)
                   /\ (fst kv = "skills" -> is_text_list (snd kv) = true))
              [ ("title", _extract_value data ["title"; "name"]);
                ("description", _extract_value data ["description"]);
                ("company", _extract_company data);
                ("location", loc);
                ("employment_type", _extract_value data ["employmentType"]);
                ("date_posted", _extract_value data ["datePosted"]);
                ("valid_through", _extract_value data ["validThrough"]);
                ("salary", sal);
                ("experience", _extract_value data ["experienceRequirements"]);
                ("education", _extract_value data ["educationRequirements"]);
                ("skills", _extract_skills data);
                ("industry", _extract_value data ["industry"]) ]).
    { repeat (constructor;
              [ cbn [fst snd]; intros Ht; split; [cbn; tauto|]; split;
                [ intros Hin;
                  first
                    [ match goal with
                      | |- is_text (_extract_value ?d ?keys) = true =>
                          destruct (extract_value_text d keys) as [N | T];
                          [rewrite N in Ht; discriminate Ht | exact T]
                      end
                    | destruct (extract_salary_text _ _ Hsal) as [N | T];
                      [rewrite N in Ht; discriminate Ht | exact T]
                    | cbn in Hin; exfalso; intuition discriminate ]
                | intros E; first [discriminate E | apply extract_skills_list] ]
              | ]).
      constructor. }
    intros k v Hin. apply filter_In in Hin as [Hin Ht].
    rewrite Forall_forall in All. exact (All (k, v) Hin Ht).
Qed.

End PostingFieldsFacts.


(* ------------------------------------------------------------------ *)
(** ** The order of the sorts *)

Module SortingFacts.
Import Notions MoreNotions PyStr KeywordRanker.

(** *** The order of [str] *)

Lemma ascii_compare_refl a : Ascii.compare a a = Eq.
Proof. apply N.compare_refl. Qed.

Lemma ascii_compare_lt_trans a b c :
  Ascii.compare a b = Lt -> Ascii.compare b c = Lt -> Ascii.compare a c = Lt.
Proof. unfold Ascii.compare. rewrite !N.compare_lt_iff. lia. Qed.

Lemma string_compare_refl s : String.compare s s = Eq.
Proof. induction s as [|a s IH]; cbn; [reflexivity|]. now rewrite ascii_compare_refl. Qed.

Lemma string_compare_lt_trans s t u :
  String.compare s t = Lt -> String.compare t u = Lt -> String.compare s u = Lt.
Proof.
  revert t u. induction s as [|a s IH]; intros [|b t] [|c u]; cbn; try congruence.
  destruct (Ascii.compare a b) eqn:Eab; try discriminate.
  - apply Ascii.compare_eq_iff in Eab. subst b.
    destruct (Ascii.compare a c); try congruence. apply IH.
  - intros _. destruct (Ascii.compare b c) eqn:Ebc; try discriminate.
    + apply Ascii.compare_eq_iff in Ebc. subst c. now rewrite Eab.
    + now rewrite (ascii_compare_lt_trans _ _ _ Eab Ebc).
Qed.

Lemma str_lt_irrefl s : str_lt s s = false.
Proof. unfold str_lt, String.ltb. now rewrite string_compare_refl. Qed.

Lemma str_lt_trans s t u :
  str_lt s t = true -> str_lt t u = true -> str_lt s u = true.
Proof.
  unfold str_lt, String.ltb.
  destruct (String.compare s t) eqn:E1; try discriminate.
  destruct (String.compare t u) eqn:E2; try discriminate.
  now rewrite (string_compare_lt_trans _ _ _ E1 E2).
Qed.

Lemma str_lt_total s t : str_lt s t = false -> str_lt t s = false -> s = t.
Proof.
  unfold str_lt, String.ltb. rewrite (String.compare_antisym t s).
  destruct (String.compare s t) eqn:E; cbn; try discriminate.
  intros _ _. now apply String.compare_eq_iff.
Qed.

(** *** The order of the keys *)

Lemma key_lt_irrefl a : key_lt a a = false.
Proof. unfold key_lt. rewrite Z.ltb_irrefl, Z.eqb_refl, str_lt_irrefl. reflexivity. Qed.

Lemma key_lt_trans a b c :
  key_lt a b = true -> key_lt b c = true -> key_lt a c = true.
Proof.
  unfold key_lt. rewrite !orb_true_iff, !andb_true_iff, !Z.ltb_lt, !Z.eqb_eq.
  intros [H1 | [H1 S1]] [H2 | [H2 S2]]; try (left; lia).
  right. split; [lia | now apply (str_lt_trans _ (snd b))].
Qed.

Lemma key_lt_total a b : key_lt a b = false -> key_lt b a = false -> a = b.
Proof.
  unfold key_lt. rewrite !orb_false_iff, !andb_false_iff, !Z.ltb_ge, !Z.eqb_neq.
  intros [H1 S1] [H2 S2]. assert (E : fst a = fst b) by lia.
  destruct S1 as [S1 | S1]; [contradiction|].
  destruct S2 as [S2 | S2]; [now elim S2|].
  destruct a, b; cbn in *. f_equal; [exact E | now apply str_lt_total].
Qed.

Lemma key_lt_asym a b : key_lt a b = true -> key_lt b a = false.
Proof.
  intros H. destruct (key_lt b a) eqn:E; [|reflexivity].
  pose proof (key_lt_trans _ _ _ H E) as T. rewrite key_lt_irrefl in T. discriminate.
Qed.

(** When [b] is not before [a] and [c] is not before [b], [c] is not before
    [a]. *)
Lemma key_le_trans a b c :
  key_lt b a = false -> key_lt c b = false -> key_lt c a = false.
Proof.
  intros H1 H2. destruct (key_lt c a) eqn:E; [|reflexivity].
  destruct (key_lt a b) eqn:Eab.
  - rewrite (key_lt_trans _ _ _ E Eab) in H2. discriminate.
  - rewrite (key_lt_total _ _ Eab H1) in E. congruence.
Qed.

(** *** Sorting *)

Section Sorting.
Context {A : Type} (key : A -> Z * string).


Lemma insert_sorted_perm x l : Permutation (x :: l) (insert_sorted key x l).
Proof.
  induction l as [|y r IH]; cbn [insert_sorted]; [reflexivity|].
  destruct (key_lt (key x) (key y)); [reflexivity|].
  rewrite perm_swap. now constructor.
Qed.

Lemma sorted_perm_acc l acc :
  Permutation (acc ++ l) (fold_left (fun acc x => insert_sorted key x acc) l acc).
Proof.
  revert acc. induction l as [|x l IH]; intros acc; cbn [fold_left].
  - now rewrite app_nil_r.
  - rewrite <- IH, <- insert_sorted_perm. cbn [app].
    symmetry. apply Permutation_middle.
Qed.

(** A sorted list has the elements of the list. *)
Lemma sorted_perm l : Permutation l (sorted key l).
Proof. exact (sorted_perm_acc l []). Qed.

Lemma insert_sorted_le x l :
  StronglySorted (not_after key) l -> StronglySorted (not_after key) (insert_sorted key x l).
Proof.
  induction 1 as [|y r Hs IH Hy]; cbn [insert_sorted]; [repeat constructor|].
  destruct (key_lt (key x) (key y)) eqn:E.
  - constructor; [now constructor|]. constructor.
    + unfold not_after. now apply key_lt_asym.
    + eapply Forall_impl; [|exact Hy]. intros z Hz. unfold not_after in *.
      apply (key_le_trans _ (key y)); [now apply key_lt_asym | exact Hz].
  - constructor; [exact IH|].
    apply (Permutation_Forall (insert_sorted_perm x r)). constructor; assumption.
Qed.

Lemma sorted_le_acc l acc :
  StronglySorted (not_after key) acc ->
  StronglySorted (not_after key) (fold_left (fun acc x => insert_sorted key x acc) l acc).
Proof.
  revert acc. induction l as [|x l IH]; intros acc H; cbn [fold_left]; [exact H|].
  apply IH. now apply insert_sorted_le.
Qed.

Lemma sorted_le l : StronglySorted (not_after key) (sorted key l).
Proof. apply sorted_le_acc. constructor. Qed.

(** With keys that are all different, every element comes strictly before
    those after it. *)
Lemma le_lt_distinct l :
  NoDup (map key l) -> StronglySorted (not_after key) l -> StronglySorted (before key) l.
Proof.
  induction l as [|x r IH]; intros Hn Hs; [constructor|].
  inversion Hn as [|? ? Hx Hr]; subst. apply StronglySorted_inv in Hs as [Hs Hall].
  constructor; [now apply IH|].
  apply Forall_forall. intros y Hy. rewrite Forall_forall in Hall.
  specialize (Hall y Hy). unfold not_after, before in *.
  destruct (key_lt (key x) (key y)) eqn:E; [reflexivity|].
  elim Hx. rewrite (key_lt_total _ _ E Hall). now apply in_map.
Qed.

Lemma sorted_lt l : NoDup (map key l) -> StronglySorted (before key) (sorted key l).
Proof.
  intros H. apply le_lt_distinct; [|apply sorted_le].
  eapply Permutation_NoDup; [|exact H]. apply Permutation_map, sorted_perm.
Qed.

(** Two strictly sorted lists with the same elements are the same list. *)
Lemma strictly_sorted_unique l1 l2 :
  Permutation l1 l2 -> StronglySorted (before key) l1 -> StronglySorted (before key) l2 -> l1 = l2.
Proof.
  revert l2. induction l1 as [|x r IH]; intros l2 Hp H1 H2.
  - apply Permutation_nil in Hp. now subst.
  - destruct l2 as [|y r2]; [apply Permutation_sym, Permutation_nil in Hp; discriminate|].
    apply StronglySorted_inv in H1 as [H1 A1]. apply StronglySorted_inv in H2 as [H2 A2].
    rewrite Forall_forall in A1, A2.
    assert (E : x = y).
    { assert (Hy : In y (x :: r)) by (eapply Permutation_in; [symmetry; exact Hp | now left]).
      assert (Hx : In x (y :: r2)) by (eapply Permutation_in; [exact Hp | now left]).
      destruct Hy as [-> | Hy]; [reflexivity|]. destruct Hx as [<- | Hx]; [reflexivity|].
      specialize (A1 y Hy). specialize (A2 x Hx). unfold before in *.
      rewrite (key_lt_asym _ _ A1) in A2. discriminate. }
    subst y. f_equal. apply IH; [now apply Permutation_cons_inv in Hp | assumption..].
Qed.

(** The sort does not depend on the order of the list it is given, when the
    keys are all different. *)
Lemma sorted_unique l1 l2 :
  Permutation l1 l2 -> NoDup (map key l1) -> sorted key l1 = sorted key l2.
Proof.
  intros Hp Hn. apply strictly_sorted_unique.
  - now rewrite <- !sorted_perm.
  - now apply sorted_lt.
  - apply sorted_lt. eapply Permutation_NoDup; [|exact Hn]. now apply Permutation_map.
Qed.

End Sorting.

End SortingFacts.


(* ------------------------------------------------------------------ *)
(** ** Counting and ranking keywords *)

Module KeywordRankerFacts.
Import Notions MoreNotions PyStr PyVal KeywordRanker SortingFacts PostingFieldsFacts.

(** *** Counters *)

Lemma dict_get_count_one t k counts :
  dict_get k (count_one t counts) 0
  = (dict_get k counts 0 + if String.eqb t k then 1 else 0)%Z.
Proof.
  induction counts as [|[k0 n] rest IH]; cbn [count_one dict_get].
  - now destruct (String.eqb t k).
  - destruct (String.eqb_spec k0 t) as [->|N]; cbn [dict_get].
    + destruct (String.eqb t k); lia.
    + destruct (String.eqb_spec k0 k) as [->|N2]; [|exact IH].
      destruct (String.eqb_spec t k); [congruence | lia].
Qed.

Lemma occurrences_cons t x tokens :
  occurrences t (x :: tokens)
  = ((if String.eqb t x then 1 else 0) + occurrences t tokens)%Z.
Proof.
  unfold occurrences. cbn [filter]. destruct (String.eqb t x); cbn [List.length]; lia.
Qed.

Lemma dict_get_fold tokens counts k :
  dict_get k (fold_left (fun c t => count_one t c) tokens counts) 0
  = (dict_get k counts 0 + occurrences k tokens)%Z.
Proof.
  revert counts. induction tokens as [|x r IH]; intros counts; cbn [fold_left].
  - unfold occurrences. cbn. lia.
  - rewrite IH, dict_get_count_one, occurrences_cons, (String.eqb_sym x k). lia.
Qed.

Lemma occurrences_filter f t tokens :
  occurrences t (filter f tokens) = if f t then occurrences t tokens else 0%Z.
Proof.
  induction tokens as [|x r IH]; [now destruct (f t)|].
  cbn [filter]. destruct (f x) eqn:Fx.
  - rewrite !occurrences_cons, IH. destruct (f t) eqn:Ft; [reflexivity|].
    destruct (String.eqb_spec t x); [congruence | reflexivity].
  - rewrite occurrences_cons, IH. destruct (f t) eqn:Ft; [|reflexivity].
    destruct (String.eqb_spec t x); [congruence | reflexivity].
Qed.

Lemma count_one_keys t counts :
  map fst (count_one t counts)
  = if mem t (map fst counts) then map fst counts else (map fst counts ++ [t])%list.
Proof.
  unfold mem. induction counts as [|[k0 n] rest IH]; cbn [count_one map existsb fst];
    [reflexivity|].
  rewrite (String.eqb_sym t k0).
  destruct (String.eqb k0 t); cbn [map fst orb]; [reflexivity|].
  rewrite IH. now destruct (existsb (String.eqb t) (map fst rest)).
Qed.

Lemma mem_In t words : mem t words = true <-> In t words.
Proof.
  unfold mem. rewrite existsb_exists. split.
  - intros (x & Hin & E). apply String.eqb_eq in E. now subst.
  - intros H. exists t. split; [exact H | apply String.eqb_refl].
Qed.

Lemma mem_not_In t words : mem t words = false <-> ~ In t words.
Proof.
  rewrite <- mem_In. destruct (mem t words); split; congruence.
Qed.

Lemma count_one_nodup t counts :
  NoDup (map fst counts) -> NoDup (map fst (count_one t counts)).
Proof.
  intros H. rewrite count_one_keys. destruct (mem t (map fst counts)) eqn:E; [exact H|].
  apply mem_not_In in E. apply NoDup_app; [exact H | repeat constructor; auto |].
  intros x Hx [<- | []]. contradiction.
Qed.

Lemma count_one_positive t counts :
  Forall (fun kv => (1 <= snd kv)%Z) counts ->
  Forall (fun kv => (1 <= snd kv)%Z) (count_one t counts).
Proof.
  induction 1 as [|[k0 n] rest Hn Hr IH]; cbn [count_one]; [repeat constructor; cbn; lia|].
  destruct (String.eqb k0 t); constructor; cbn in *; try assumption; lia.
Qed.

Lemma counter_invariant tokens counts :
  NoDup (map fst counts) -> Forall (fun kv => (1 <= snd kv)%Z) counts ->
  NoDup (map fst (fold_left (fun c t => count_one t c) tokens counts))
  /\ Forall (fun kv => (1 <= snd kv)%Z)
            (fold_left (fun c t => count_one t c) tokens counts).
Proof.
  revert counts. induction tokens as [|x r IH]; intros counts H1 H2; cbn [fold_left];
    [now split|].
  apply IH; [now apply count_one_nodup | now apply count_one_positive].
Qed.

Lemma dict_get_in k n (d : list (string * Z)) default :
  NoDup (map fst d) -> In (k, n) d -> dict_get k d default = n.
Proof.
  induction d as [|[k0 n0] rest IH]; cbn [map fst dict_get]; [intros _ []|].
  intros Hn [E | Hin].
  - injection E as -> ->. now rewrite String.eqb_refl.
  - inversion Hn as [|? ? Hk Hr]; subst.
    destruct (String.eqb_spec k0 k) as [->|_]; [|now apply IH].
    elim Hk. apply in_map_iff. now exists (k, n).
Qed.

Lemma dict_get_absent k (d : list (string * Z)) default :
  ~ In k (map fst d) -> dict_get k d default = default.
Proof.
  induction d as [|[k0 n0] rest IH]; cbn [map fst dict_get In]; [reflexivity|].
  intros H. destruct (String.eqb_spec k0 k) as [->|_]; [tauto|]. apply IH. tauto.
Qed.

Lemma short_terms_not_counted t :
  In t short_preserve_terms -> mem t PRESERVE_TERMS = true /\ counted t = false.
Proof.
  unfold short_preserve_terms. cbn [In].
  intros H; repeat (destruct H as [<- | H]; [split; vm_compute; reflexivity|]).
  destruct H.
Qed.

(** X18.  What [calculate_term_frequency] counts.  A term is a key of the counter
    when it occurs among the tokens, has more than two characters, and is no
    stop word or is a term to preserve; its count is then the number of its
    occurrences.  No key is listed twice and no count is below one.  The
    terms to preserve that have one or two characters ([ai], [c#], [go], [r])
    are never counted. *)
Theorem calculate_term_frequency_counts :
  forall tokens : list string,
    NoDup (map fst (calculate_term_frequency tokens))
    /\ (forall t, dict_get t (calculate_term_frequency tokens) 0
                  = if counted t then occurrences t tokens else 0%Z)
    /\ (forall t n, In (t, n) (calculate_term_frequency tokens) ->
                    counted t = true /\ n = occurrences t tokens /\ (1 <= n)%Z)
    /\ (forall t, In t short_preserve_terms ->
                  mem t PRESERVE_TERMS = true
                  /\ ~ In t (map fst (calculate_term_frequency tokens))).
Proof.
  intros tokens. unfold calculate_term_frequency, Counter.
  destruct (counter_invariant (filter counted tokens) []) as [Hn Hp];
    [constructor | constructor |].
  assert (Hget : forall t,
             dict_get t (fold_left (fun c t0 => count_one t0 c) (filter counted tokens) []) 0
             = if counted t then occurrences t tokens else 0%Z).
  { intros t. rewrite dict_get_fold, occurrences_filter. cbn [dict_get]. lia. }
  assert (Hin : forall t n,
             In (t, n) (fold_left (fun c t0 => count_one t0 c) (filter counted tokens) []) ->
             counted t = true /\ n = occurrences t tokens /\ (1 <= n)%Z).
  { intros t n H. pose proof (dict_get_in t n _ 0%Z Hn H) as E.
    rewrite Forall_forall in Hp. pose proof (Hp _ H) as P. cbn [snd] in P.
    rewrite Hget in E. destruct (counted t); [auto | lia]. }
  split; [exact Hn|]. split; [exact Hget|]. split; [exact Hin|].
  intros t Ht. destruct (short_terms_not_counted t Ht) as [H1 H2].
  split; [exact H1|]. intros H. apply in_map_iff in H as ([k n] & E & H).
  cbn in E. subst k. apply Hin in H as [H _]. congruence.
Qed.

(** *** Keywords by frequency *)

Lemma strongly_sorted_impl (A : Type) (R R' : A -> A -> Prop) l :
  (forall x y, R x y -> R' x y) -> StronglySorted R l -> StronglySorted R' l.
Proof.
  intros H. induction 1 as [|x r Hs IH Hx]; constructor; [exact IH|].
  eapply Forall_impl; [|exact Hx]. auto.
Qed.

Lemma before_by_count x y :
  before (fun x : string * Z => ((- snd x)%Z, fst x)) x y -> by_count x y.
Proof.
  unfold before, by_count, key_lt. cbn [fst snd].
  rewrite orb_true_iff, andb_true_iff, Z.ltb_lt, Z.eqb_eq.
  intros [H | [H1 H2]]; [left; lia | right; split; [lia | exact H2]].
Qed.

Lemma before_by_score x y :
  before (fun x : RankedKeyword => ((- score x)%Z, keyword x)) x y -> by_score x y.
Proof.
  unfold before, by_score, key_lt. cbn [fst snd].
  rewrite orb_true_iff, andb_true_iff, Z.ltb_lt, Z.eqb_eq.
  intros [H | [H1 H2]]; [left; lia | right; split; [lia | exact H2]].
Qed.

(** Keys that differ in their texts are different keys. *)
Lemma keys_nodup (A : Type) (key : A -> Z * string) (l : list A) :
  NoDup (map (fun x => snd (key x)) l) -> NoDup (map key l).
Proof.
  intros H. apply (NoDup_map_inv snd). now rewrite map_map.
Qed.

Lemma term_frequency_facts tokens :
  NoDup (map fst (calculate_term_frequency tokens))
  /\ Forall (fun kv => (1 <= snd kv)%Z) (calculate_term_frequency tokens).
Proof.
  unfold calculate_term_frequency, Counter. apply counter_invariant; constructor.
Qed.

(** X19.  What [extract_keywords_from_text] returns: the terms that
    [calculate_term_frequency] counts in the tokens of the text at least
    [min_frequency] times, each once with its count, the greater count first
    and, for equal counts, in the order of [str]. *)
Theorem extract_keywords_from_text_sorted :
  forall (text : string) (min_frequency : Z),
    StronglySorted by_count (extract_keywords_from_text text min_frequency)
    /\ NoDup (map fst (extract_keywords_from_text text min_frequency))
    /\ forall t n,
         In (t, n) (extract_keywords_from_text text min_frequency)
         <-> In (t, n) (calculate_term_frequency (tokenize_text text))
             /\ (min_frequency <= n)%Z.
Proof.
  intros text min_frequency. unfold extract_keywords_from_text.
  set (freqs := calculate_term_frequency (tokenize_text text)).
  set (kept := filter (fun tf => (min_frequency <=? snd tf)%Z) freqs).
  set (key := fun x : string * Z => ((- snd x)%Z, fst x)).
  destruct (term_frequency_facts (tokenize_text text)) as [Hn _]. fold freqs in Hn.
  assert (Hk : NoDup (map fst kept)) by now apply filter_fst_nodup.
  pose proof (sorted_perm key kept) as Hp.
  split; [|split].
  - apply (strongly_sorted_impl _ _ _ _ before_by_count).
    apply sorted_lt. now apply keys_nodup.
  - eapply Permutation_NoDup; [|exact Hk]. now apply Permutation_map.
  - intros t n. split.
    + intros H. apply (Permutation_in _ (Permutation_sym Hp)) in H.
      apply filter_In in H as [H1 H2]. split; [exact H1|]. now apply Z.leb_le in H2.
    + intros [H1 H2]. apply (Permutation_in _ Hp). apply filter_In.
      split; [exact H1|]. now apply Z.leb_le.
Qed.

(** *** The ranking *)

Lemma extract_keywords_perm text min_frequency :
  Permutation
    (filter (fun tf => (min_frequency <=? snd tf)%Z)
            (calculate_term_frequency (tokenize_text text)))
    (extract_keywords_from_text text min_frequency).
Proof. unfold extract_keywords_from_text. apply sorted_perm. Qed.

Lemma freq_dict_facts text :
  NoDup (map fst (freq_dict_of text))
  /\ Forall (fun kv => (1 <= snd kv)%Z) (freq_dict_of text).
Proof.
  unfold freq_dict_of.
  pose proof (extract_keywords_perm text default_min_frequency) as Hp.
  destruct (term_frequency_facts (tokenize_text text)) as [Hn Hf].
  split.
  - eapply Permutation_NoDup; [apply Permutation_map; exact Hp|].
    now apply filter_fst_nodup.
  - apply Forall_forall. intros kv Hin.
    apply (Permutation_in _ (Permutation_sym Hp)) in Hin.
    apply filter_In in Hin as [Hin _].
    rewrite Forall_forall in Hf. now apply Hf.
Qed.

Lemma dict_get_nonneg k (d : list (string * Z)) :
  Forall (fun kv => (1 <= snd kv)%Z) d -> (0 <= dict_get k d 0)%Z.
Proof.
  induction 1 as [|[k' v] d Hv Hd IH]; cbn [dict_get]; [lia|].
  destruct (String.eqb k' k); [cbn [snd] in Hv; lia | exact IH].
Qed.

Lemma dict_get_key k (d : list (string * Z)) :
  Forall (fun kv => (1 <= snd kv)%Z) d -> In k (map fst d) ->
  (1 <= dict_get k d 0)%Z.
Proof.
  induction 1 as [|[k' v] d Hv Hd IH]; cbn [dict_get map fst In]; [tauto|].
  intros [-> | Hin].
  - rewrite String.eqb_refl. exact Hv.
  - destruct (String.eqb k' k); [exact Hv | now apply IH].
Qed.

(** The record that the loop builds for a keyword. *)
Lemma rank_one_cases fd ls k :
  Forall (fun kv => (1 <= snd kv)%Z) fd ->
  (rank_one fd ls k = []
   /\ dict_get k fd 0 = 0%Z /\ mem k ls = false /\ mem k PRESERVE_TERMS = false)
  \/ (rank_one fd ls k =
        [mkRanked k (dict_get k fd 0)
           (dict_get k fd 0 + (if mem k ls then 2 else 0)
            + (if mem k PRESERVE_TERMS then 1 else 0))
           (mem k ls) (1 <? dict_get k fd 0)%Z]
       /\ (1 <= dict_get k fd 0 + (if mem k ls then 2 else 0)
                 + (if mem k PRESERVE_TERMS then 1 else 0))%Z).
Proof.
  intros Hfd. pose proof (dict_get_nonneg k fd Hfd) as H0.
  unfold rank_one.
  destruct (mem k ls), (mem k PRESERVE_TERMS); cbn [andb].
  - destruct (Z.ltb_spec (dict_get k fd 0 + 2 + 1) 1); [lia|].
    destruct (Z.ltb_spec 0 (dict_get k fd 0 + 2 + 1)); [|lia].
    right. split; [reflexivity | lia].
  - destruct (Z.ltb_spec (dict_get k fd 0 + 2) 1); [lia|].
    destruct (Z.ltb_spec 0 (dict_get k fd 0 + 2)); [|lia].
    right. split; [do 2 f_equal; lia | lia].
  - destruct (Z.ltb_spec 0 (dict_get k fd 0 + 1)); [|lia].
    right. split; [do 2 f_equal; lia | lia].
  - destruct (Z.ltb_spec 0 (dict_get k fd 0)).
    + right. split; [do 2 f_equal; lia | lia].
    + left. repeat split; lia.
Qed.

Lemma distinct_In l x : In x (distinct l) <-> In x l.
Proof.
  induction l as [|y l IH]; cbn [distinct]; [tauto|].
  destruct (mem y l) eqn:E; cbn [In]; rewrite IH; [|tauto].
  apply mem_In in E. split; [tauto|]. intros [<- | H]; tauto.
Qed.

Lemma distinct_nodup l : NoDup (distinct l).
Proof.
  induction l as [|y l IH]; cbn [distinct]; [constructor|].
  destruct (mem y l) eqn:E; [exact IH|].
  constructor; [|exact IH]. rewrite distinct_In. now apply mem_not_In.
Qed.

Lemma all_keywords_In text llm k :
  In k (all_keywords text llm)
  <-> In k (map fst (freq_dict_of text)) \/ In k (llm_set_of llm).
Proof.
  unfold all_keywords. rewrite in_app_iff, filter_In, negb_true_iff, mem_not_In.
  destruct (in_dec string_dec k (map fst (freq_dict_of text))); tauto.
Qed.

Lemma all_keywords_nodup text llm : NoDup (all_keywords text llm).
Proof.
  unfold all_keywords. apply NoDup_app.
  - apply freq_dict_facts.
  - apply NoDup_filter, distinct_nodup.
  - intros k Hk Hf. apply filter_In in Hf as [_ Hf].
    apply negb_true_iff, mem_not_In in Hf. tauto.
Qed.

Lemma rank_records text llm order :
  (forall k, In k order ->
             In k (map fst (freq_dict_of text)) \/ In k (llm_set_of llm)) ->
  Forall (ranked_record text llm)
         (flat_map (rank_one (freq_dict_of text) (llm_set_of llm)) order).
Proof.
  destruct (freq_dict_facts text) as [_ Hfd].
  induction order as [|k order IH]; intros Hin; cbn [flat_map]; [constructor|].
  apply Forall_app. split; [|apply IH; intros k' Hk'; apply Hin; now right].
  destruct (rank_one_cases (freq_dict_of text) (llm_set_of llm) k Hfd)
    as [[-> _] | [-> Hs]]; constructor; [|constructor].
  unfold ranked_record. cbn [frequency keyword is_from_llm score is_repeated].
  pose proof (dict_get_nonneg k _ Hfd). repeat split; auto.
  destruct (Hin k (or_introl eq_refl)) as [Hk | Hk].
  - left. now apply dict_get_key.
  - right. now apply mem_In.
Qed.

Lemma rank_keywords_of fd ls order kw :
  In kw (flat_map (rank_one fd ls) order) -> In (keyword kw) order.
Proof.
  rewrite in_flat_map. intros [k [Hk Hin]]. unfold rank_one in Hin.
  destruct (0 <? _)%Z; [|destruct Hin].
  destruct Hin as [<- | []]. exact Hk.
Qed.

Lemma rank_nodup fd ls order :
  NoDup order -> NoDup (map keyword (flat_map (rank_one fd ls) order)).
Proof.
  induction 1 as [|k order Hk Hn IH]; cbn [flat_map map]; [constructor|].
  rewrite map_app. unfold rank_one at 1.
  destruct (0 <? _)%Z; cbn [map app]; [|exact IH].
  constructor; [|exact IH]. intros Hin. apply in_map_iff in Hin as [kw [E Hin]].
  apply rank_keywords_of in Hin. cbn [keyword] in E. congruence.
Qed.

Lemma slice_to_firstn (A : Type) n (l : list A) :
  exists k, slice_to n l = firstn k l.
Proof. unfold slice_to. destruct (0 <=? n)%Z; eauto. Qed.

Lemma firstn_In (A : Type) k (l : list A) x : In x (firstn k l) -> In x l.
Proof. intros H. rewrite <- (firstn_skipn k l). apply in_or_app. now left. Qed.

Lemma firstn_sorted (A : Type) (R : A -> A -> Prop) k l :
  StronglySorted R l -> StronglySorted R (firstn k l).
Proof.
  intros H. revert k. induction H as [|x l Hs IH Hx]; intros [|k]; cbn [firstn];
    try constructor; [apply IH|].
  rewrite Forall_forall in *. intros y Hy. apply Hx. eapply firstn_In, Hy.
Qed.

Lemma firstn_nodup (A : Type) k (l : list A) : NoDup l -> NoDup (firstn k l).
Proof. intros H. rewrite <- (firstn_skipn k l) in H. now apply NoDup_app_remove_r in H. Qed.

Lemma llm_set_In llm k :
  In k (llm_set_of llm) <-> exists k0, In k0 llm /\ k = strip (lower k0).
Proof.
  unfold llm_set_of. rewrite distinct_In, in_map_iff.
  split; intros [k0 H]; exists k0; intuition.
Qed.

(** Every element of [order] that is a key of the dictionary or a keyword of
    the LLM has its record. *)
Lemma rank_complete text llm order k :
  In k order ->
  In k (map fst (freq_dict_of text)) \/ In k (llm_set_of llm) ->
  In k (map keyword (flat_map (rank_one (freq_dict_of text) (llm_set_of llm)) order)).
Proof.
  intros Hin Hk. destruct (freq_dict_facts text) as [_ Hfd].
  apply in_map_iff.
  destruct (rank_one_cases (freq_dict_of text) (llm_set_of llm) k Hfd)
    as [[_ [H0 [Hl _]]] | [E _]].
  - exfalso. destruct Hk as [Hk | Hk].
    + pose proof (dict_get_key k _ Hfd Hk). lia.
    + apply mem_In in Hk. congruence.
  - eexists. split; [|apply in_flat_map; exists k; split; [exact Hin | rewrite E; now left]].
    reflexivity.
Qed.

Lemma rank_records_sliced text llm top_n :
  Forall (ranked_record text llm) (rank_keywords text llm top_n).
Proof.
  unfold rank_keywords, rank_keywords_in.
  destruct (slice_to_firstn _ top_n
              (sorted (fun x : RankedKeyword => ((- score x)%Z, keyword x))
                 (flat_map (rank_one (freq_dict_of text) (llm_set_of llm))
                    (all_keywords text llm)))) as [n ->].
  pose proof (rank_records text llm (all_keywords text llm)
                (fun k => proj1 (all_keywords_In text llm k))) as Hrec.
  rewrite Forall_forall in *. intros kw Hin. apply Hrec.
  apply firstn_In in Hin.
  eapply Permutation_in; [apply Permutation_sym, sorted_perm | exact Hin].
Qed.

Lemma ranked_keys_nodup fd ls order :
  NoDup order ->
  NoDup (map (fun x : RankedKeyword => ((- score x)%Z, keyword x))
             (flat_map (rank_one fd ls) order)).
Proof. intros H. apply keys_nodup. now apply rank_nodup. Qed.

(** X20.  What [rank_keywords] returns.  Every record has the count of its keyword
    in the text (0 when the keyword only comes from the LLM), and its score
    is that count plus 2 for a keyword of the LLM plus 1 for a term of
    [PRESERVE_TERMS]; the score is at least 1, so neither the raise of the
    score to 1 nor the test [score > 0] changes anything for a keyword of the
    set.  The records are in the order of the greater score, then of the
    keyword, no keyword has two records, and there are at most [top_n] of
    them for a [top_n] that is not negative; with a [top_n] of at least the
    number of keywords, every key of the dictionary and every keyword of the
    LLM (in lower case, stripped, the empty one included) has its record. *)
Theorem rank_keywords_ranking :
  forall (text : string) (llm_keywords : list string) (top_n : Z),
    Forall (ranked_record text llm_keywords) (rank_keywords text llm_keywords top_n)
    /\ StronglySorted by_score (rank_keywords text llm_keywords top_n)
    /\ NoDup (map keyword (rank_keywords text llm_keywords top_n))
    /\ (forall kw, In kw (rank_keywords text llm_keywords top_n) ->
          In (keyword kw) (map fst (freq_dict_of text))
          \/ exists k0, In k0 llm_keywords /\ keyword kw = strip (lower k0))
    /\ ((0 <= top_n)%Z ->
          (Z.of_nat (List.length (rank_keywords text llm_keywords top_n)) <= top_n)%Z)
    /\ ((Z.of_nat (List.length (all_keywords text llm_keywords)) <= top_n)%Z ->
          (forall k, In k (map fst (freq_dict_of text)) ->
             In k (map keyword (rank_keywords text llm_keywords top_n)))
          /\ (forall k0, In k0 llm_keywords ->
               exists kw, In kw (rank_keywords text llm_keywords top_n)
                          /\ keyword kw = strip (lower k0)
                          /\ is_from_llm kw = true /\ (2 <= score kw)%Z)).
Proof.
  intros text llm top_n. unfold rank_keywords, rank_keywords_in.
  set (order := all_keywords text llm).
  set (ranked := flat_map (rank_one (freq_dict_of text) (llm_set_of llm)) order).
  set (key := fun x : RankedKeyword => ((- score x)%Z, keyword x)).
  pose proof (rank_records text llm order
                (fun k => proj1 (all_keywords_In text llm k))) as Hrec.
  fold ranked in Hrec.
  pose proof (all_keywords_nodup text llm) as Hnd. fold order in Hnd.
  pose proof (sorted_perm key ranked) as Hp.
  assert (Hall : Forall (ranked_record text llm) (sorted key ranked)).
  { rewrite Forall_forall in *. intros kw Hin. apply Hrec.
    now apply (Permutation_in _ (Permutation_sym Hp)). }
  assert (Hlen : List.length (sorted key ranked) <= List.length order).
  { rewrite <- (Permutation_length Hp), <- (length_map keyword).
    apply NoDup_incl_length; [now apply rank_nodup|].
    intros k Hk. apply in_map_iff in Hk as [kw [<- Hk]].
    now apply rank_keywords_of in Hk. }
  assert (Hfull : (Z.of_nat (List.length order) <= top_n)%Z ->
                  slice_to top_n (sorted key ranked) = sorted key ranked).
  { intros H. unfold slice_to. destruct (Z.leb_spec 0 top_n); [|lia].
    apply firstn_all2. lia. }
  split; [|split; [|split; [|split; [|split]]]].
  - destruct (slice_to_firstn _ top_n (sorted key ranked)) as [n ->].
    rewrite Forall_forall in *. intros kw Hin. apply Hall. now apply firstn_In in Hin.
  - destruct (slice_to_firstn _ top_n (sorted key ranked)) as [n ->].
    apply firstn_sorted. apply (strongly_sorted_impl _ _ _ _ before_by_score).
    apply sorted_lt. now apply ranked_keys_nodup.
  - destruct (slice_to_firstn _ top_n (sorted key ranked)) as [n ->].
    rewrite <- firstn_map. apply firstn_nodup.
    eapply Permutation_NoDup; [apply Permutation_map; exact Hp|]. now apply rank_nodup.
  - destruct (slice_to_firstn _ top_n (sorted key ranked)) as [n ->].
    intros kw Hin. apply firstn_In in Hin.
    apply (Permutation_in _ (Permutation_sym Hp)) in Hin.
    apply rank_keywords_of in Hin. apply all_keywords_In in Hin.
    rewrite llm_set_In in Hin. exact Hin.
  - intros H0. unfold slice_to. destruct (Z.leb_spec 0 top_n); [|lia].
    pose proof (firstn_le_length (Z.to_nat top_n) (sorted key ranked)). lia.
  - intros Hbig. rewrite (Hfull Hbig). split.
    + intros k Hk. eapply Permutation_in; [apply Permutation_map; exact Hp|].
      apply rank_complete; [|now left]. apply all_keywords_In. now left.
    + intros k0 Hk0.
      assert (Hl : In (strip (lower k0)) (llm_set_of llm))
        by (apply llm_set_In; eauto).
      assert (Hin : In (strip (lower k0)) (map keyword (sorted key ranked))).
      { eapply Permutation_in; [apply Permutation_map; exact Hp|].
        apply rank_complete; [|now right]. apply all_keywords_In. now right. }
      apply in_map_iff in Hin as [kw [E Hin]]. exists kw.
      rewrite Forall_forall in Hall. destruct (Hall kw Hin) as [_ [_ [F0 [Fl [Fs _]]]]].
      rewrite E in Fl. apply mem_In in Hl. rewrite Hl in Fl.
      repeat split; try assumption. rewrite Fs, Fl.
      destruct (mem (keyword kw) PRESERVE_TERMS); lia.
Qed.

(** X21.  [rank_keywords] does not depend on the order in which the loop visits
    the set [all_keywords]: whatever enumeration [order] of the keys of the
    dictionary and the keywords of the LLM the iteration gives, each element
    once, the ranking is the same list. *)
Theorem rank_keywords_any_order :
  forall (order : list string) (text : string) (llm_keywords : list string)
         (top_n : Z),
    NoDup order ->
    (forall k, In k order
               <-> In k (map fst (freq_dict_of text)) \/ In k (llm_set_of llm_keywords)) ->
    rank_keywords_in order text llm_keywords top_n
    = rank_keywords text llm_keywords top_n.
Proof.
  intros order text llm top_n Hn Hin. unfold rank_keywords, rank_keywords_in.
  f_equal. apply sorted_unique; [|now apply ranked_keys_nodup].
  apply Permutation_flat_map. apply NoDup_Permutation; [exact Hn|apply all_keywords_nodup|].
  intros k. rewrite Hin. symmetry. apply all_keywords_In.
Qed.

Lemma rank_keywords_any_order_example :
  rank_keywords_in ["rust"; "docker and"; "python"; "docker and python"; "docker"]
                   "Python, Docker and Python" ["Docker"; " Rust "] 3
  = rank_keywords "Python, Docker and Python" ["Docker"; " Rust "] 3.
Proof.
  apply rank_keywords_any_order.
  - repeat constructor; cbn [In]; intuition discriminate.
  - intros k. vm_compute. tauto.
Defined.

(** *** The three lists of the display *)

Lemma display_fold keywords d :
  fold_left display_step keywords d
  = mkDisplay
      (high_priority d ++ map display_text (filter is_high keywords))
      (medium_priority d ++ map display_text (filter is_medium keywords))
      (other d ++ map display_text (filter is_other keywords)).
Proof.
  revert d. induction keywords as [|kw keywords IH]; intros d; cbn [fold_left filter map].
  - rewrite !app_nil_r. now destruct d.
  - rewrite IH. unfold display_step, is_medium, is_other, is_high.
    destruct ((3 <=? score kw)%Z || is_repeated kw); cbn [negb andb].
    + cbn [high_priority medium_priority other map]. now rewrite <- app_assoc.
    + destruct (2 <=? score kw)%Z; cbn [negb high_priority medium_priority other map];
        now rewrite <- app_assoc.
Qed.

Lemma filter_three_lengths (A : Type) (f g h : A -> bool) l :
  (forall x, (f x = true /\ g x = false /\ h x = false)
             \/ (f x = false /\ g x = true /\ h x = false)
             \/ (f x = false /\ g x = false /\ h x = true)) ->
  List.length (filter f l) + List.length (filter g l) + List.length (filter h l)
  = List.length l.
Proof.
  intros H. induction l as [|x l IH]; [reflexivity|]. cbn [filter].
  destruct (H x) as [[-> [-> ->]] | [[-> [-> ->]] | [-> [-> ->]]]];
    cbn [List.length]; lia.
Qed.

(** X22.  [format_keywords_for_display] puts every keyword in exactly one of the
    three lists and keeps the order of the keywords in each: [high_priority]
    has the keywords with a score of 3 or more or that are repeated,
    [medium_priority] those of the others with a score of 2 or more, [other]
    the rest; so the three lists have together as many entries as there are
    keywords. *)
Theorem format_keywords_for_display_partition :
  forall keywords : list RankedKeyword,
    high_priority (format_keywords_for_display keywords)
    = map display_text (filter is_high keywords)
    /\ medium_priority (format_keywords_for_display keywords)
       = map display_text (filter is_medium keywords)
    /\ other (format_keywords_for_display keywords)
       = map display_text (filter is_other keywords)
    /\ List.length (high_priority (format_keywords_for_display keywords))
       + List.length (medium_priority (format_keywords_for_display keywords))
       + List.length (other (format_keywords_for_display keywords))
       = List.length keywords.
Proof.
  intros keywords. unfold format_keywords_for_display. rewrite display_fold.
  cbn [high_priority medium_priority other app]. repeat split.
  rewrite !length_map. apply filter_three_lengths. intros kw.
  unfold is_medium, is_other. destruct (is_high kw), (2 <=? score kw)%Z; cbn; tauto.
Qed.

(** X23.  The display of a ranking of [rank_keywords]: a keyword of the LLM is
    never in the list [other]; the keywords of [other] are those found in the
    text once that are neither keywords of the LLM nor terms of
    [PRESERVE_TERMS], shown as they are; and a keyword of [medium_priority]
    has the score 2 and is shown as it is. *)
Theorem ranked_keywords_display :
  forall (text : string) (llm_keywords : list string) (top_n : Z),
    Forall (fun kw =>
              (is_from_llm kw = true -> is_other kw = false)
              /\ (is_other kw = true ->
                   frequency kw = 1%Z /\ score kw = 1%Z
                   /\ mem (keyword kw) PRESERVE_TERMS = false
                   /\ display_text kw = keyword kw)
              /\ (is_medium kw = true ->
                   score kw = 2%Z /\ (frequency kw <= 1)%Z
                   /\ display_text kw = keyword kw)
              /\ (is_repeated kw = true -> is_high kw = true))
           (rank_keywords text llm_keywords top_n).
Proof.
  intros text llm top_n.
  pose proof (rank_records_sliced text llm top_n) as Hall.
  eapply Forall_impl; [|exact Hall]. intros kw [F [Fk [F0 [Fl [Fs [F1 Fr]]]]]].
  unfold is_medium, is_other, is_high, display_text. rewrite Fr.
  destruct (Z.ltb_spec 1 (frequency kw)); rewrite ?orb_true_r, ?orb_false_r;
    cbn [negb andb].
  - repeat split; intros; discriminate.
  - destruct (Z.leb_spec 3 (score kw)); cbn [negb andb].
    + repeat split; intros; discriminate.
    + revert Fs Fk.
      destruct (Z.leb_spec 2 (score kw)); cbn [negb];
        destruct (is_from_llm kw), (mem (keyword kw) PRESERVE_TERMS);
        intros Fs [Fk | Fk]; repeat split; intros;
        try discriminate; try reflexivity; lia.
Qed.

End KeywordRankerFacts.


(* ------------------------------------------------------------------ *)
(** ** The tokens of a text *)

Module TokenizeFacts.
Import Notions MoreNotions PyStr PyStrMore Findall KeywordRanker.
Import PyStrFacts UrllibFacts PyStrMoreFacts.

(** *** What a match is *)

Lemma many1_fits p k (F : option ascii -> string -> string -> Prop) :
  (forall prev s rest, k prev s = Some rest -> exists m, s = m ++ rest /\ F prev m rest) ->
  forall s rest, many1 p k s = Some rest ->
    exists m1 m2 c, s = (m1 ++ m2) ++ rest /\ PyStr.forallb p m1 = true
                    /\ last_char m1 = Some c /\ F (Some c) m2 rest.
Proof.
  intros Hk. induction s as [|a s IH]; intros rest; cbn [many1]; [discriminate|].
  destruct (p a) eqn:Pa; [|discriminate].
  destruct (many1 p k s) as [r|] eqn:E.
  - intros [= <-]. destruct (IH r eq_refl) as [m1 [m2 [c [Es [Hp [Hl HF]]]]]].
    exists (String a m1), m2, c. repeat split.
    + cbn [append]. f_equal. exact Es.
    + cbn [forallb]. now rewrite Pa.
    + destruct m1; [discriminate | exact Hl].
    + exact HF.
  - intros Hk'. destruct (Hk _ _ _ Hk') as [m [Es HF]].
    exists (String a ""), m, a. repeat split.
    + cbn [append]. f_equal. exact Es.
    + cbn [forallb]. now rewrite Pa.
    + exact HF.
Qed.

(** A result of [run] is what is left of the text after a match. *)
Lemma run_fits pattern :
  forall prev s rest, run pattern prev s = Some rest ->
    exists m, s = m ++ rest /\ fits pattern prev m rest.
Proof.
  induction pattern as [|[p|p|] pattern IH]; intros prev s rest; cbn [run fits].
  - intros [= <-]. now exists "".
  - destruct s as [|c s]; [discriminate|]. destruct (p c) eqn:Pc; [|discriminate].
    intros H. destruct (IH _ _ _ H) as [m [Es Hm]].
    exists (String c m). split; [cbn [append]; f_equal; exact Es|].
    now exists c, m.
  - intros H.
    destruct (many1_fits p (run pattern) (fun prev m rest => fits pattern prev m rest)
                IH s rest H) as [m1 [m2 [c [Es [Hp [Hl HF]]]]]].
    exists (m1 ++ m2). split; [exact Es|]. now exists m1, m2, c.
  - destruct (boundary prev s) eqn:B; [|discriminate].
    intros H. destruct (IH _ _ _ H) as [m [Es Hm]].
    exists m. split; [exact Es|]. split; [now rewrite <- Es | exact Hm].
Qed.

(** *** [re.findall] *)

Lemma length_app_sub m rest : length (m ++ rest) - length rest = length m.
Proof. rewrite length_append. lia. Qed.

(** A property of every match is a property of every element of the
    result. *)
Lemma findall_from_Forall (P Q : string -> Prop) pattern :
  (forall prev s rest, Q s -> run pattern prev s = Some rest ->
     exists m, s = m ++ rest /\ (m <> "" -> P m)) ->
  (forall a b, Q (a ++ b) -> Q b) ->
  forall fuel prev s, Q s -> Forall P (findall_from fuel pattern prev s).
Proof.
  intros Hrun Hsuf. induction fuel as [|fuel IH]; intros prev s Qs;
    cbn [findall_from]; [constructor|].
  assert (Hskip : Forall P match s with
                           | "" => []
                           | String c s' => findall_from fuel pattern (Some c) s'
                           end).
  { destruct s as [|c s']; [constructor|]. apply IH.
    apply (Hsuf (String c "")). exact Qs. }
  destruct (run pattern prev s) as [rest|] eqn:E; [|exact Hskip].
  destruct (Hrun _ _ _ Qs E) as [m [Es Hm]].
  assert (Et : take (length s - length rest) s = m)
    by (rewrite Es, length_app_sub; apply take_app).
  rewrite Et.
  destruct (last_char m) as [c|] eqn:L; [|exact Hskip].
  constructor.
  - apply Hm. intros ->. discriminate.
  - apply IH. apply (Hsuf m). now rewrite <- Es.
Qed.

(** The steps that [findall] gives to [findall_from] are enough: more give
    the same matches. *)
Lemma findall_from_fuel pattern :
  forall fuel1 fuel2 prev s,
    length s < fuel1 -> length s < fuel2 ->
    findall_from fuel1 pattern prev s = findall_from fuel2 pattern prev s.
Proof.
  induction fuel1 as [|fuel1 IH]; intros fuel2 prev s H1 H2; [lia|].
  destruct fuel2 as [|fuel2]; [lia|]. cbn [findall_from].
  assert (Hskip : match s with
                  | "" => []
                  | String c s' => findall_from fuel1 pattern (Some c) s'
                  end
                  = match s with
                    | "" => []
                    | String c s' => findall_from fuel2 pattern (Some c) s'
                    end).
  { destruct s as [|c s']; [reflexivity|]. cbn [length] in *. apply IH; lia. }
  destruct (run pattern prev s) as [rest|] eqn:E; [|exact Hskip].
  destruct (run_fits _ _ _ _ E) as [m [Es _]].
  assert (Et : take (length s - length rest) s = m)
    by (rewrite Es, length_app_sub; apply take_app).
  rewrite Et.
  destruct (last_char m) as [c|] eqn:L; [|exact Hskip].
  f_equal. assert (length rest < length s).
  { rewrite Es, length_append. destruct m; [discriminate|]. cbn [length]. lia. }
  apply IH; lia.
Qed.

Lemma findall_fuel pattern text fuel :
  length text < fuel -> findall_from fuel pattern None text = findall pattern text.
Proof. intros H. unfold findall. apply findall_from_fuel; lia. Qed.

(** *** The three patterns *)

Lemma az_facts c :
  az c = true ->
  isspace c = false /\ Ascii.eqb c "-" = false /\ is_word c = true
  /\ term_char c = true.
Proof.
  destruct c as [b0 b1 b2 b3 b4 b5 b6 b7].
  destruct b0, b1, b2, b3, b4, b5, b6, b7; vm_compute; intros H;
    try discriminate H; repeat split.
Qed.

Lemma last_char_nonempty s c : last_char s = Some c -> s <> "".
Proof. intros H ->. discriminate. Qed.

Lemma word_fits prev m rest : fits word_pattern prev m rest -> word_token m.
Proof.
  unfold word_pattern. cbn [fits].
  intros (_ & c & m' & -> & Hc & m1 & m2 & c' & -> & Hp & Hl & _ & ->).
  rewrite append_empty_r. exists c, m1. repeat split; try assumption.
  now apply last_char_nonempty in Hl.
Qed.

Lemma phrase_fits pattern prev m rest :
  In pattern multi_word_patterns -> fits pattern prev m rest -> phrase true m.
Proof.
  unfold multi_word_patterns. intros [<- | [<- | []]]; cbn [fits].
  - intros (_ & m1 & r1 & c1 & -> & H1 & L1 & s1 & r2 & -> & S1
             & m2 & r3 & c2 & -> & H2 & L2 & s2 & r4 & -> & S2
             & m3 & r5 & c3 & -> & H3 & L3 & _ & ->).
    rewrite append_empty_r. exists m1, s1, m2, (String s2 m3).
    apply last_char_nonempty in L1, L2, L3. unfold letters. cbn [andb].
    repeat split; try assumption. right. exists s2, m3. repeat split; assumption.
  - intros (_ & m1 & r1 & c1 & -> & H1 & L1 & s1 & r2 & -> & S1
             & m2 & r3 & c2 & -> & H2 & L2 & _ & ->).
    exists m1, s1, m2, "". apply last_char_nonempty in L1, L2. unfold letters.
    cbn [andb]. repeat split; try assumption. now left.
Qed.

(** *** Hyphens made spaces, and [strip] *)

Lemma dash_to_space_app a b :
  dash_to_space (a ++ b) = dash_to_space a ++ dash_to_space b.
Proof. induction a as [|c a IH]; cbn [append dash_to_space]; [reflexivity | now rewrite IH]. Qed.

Lemma dash_to_space_letters w : PyStr.forallb az w = true -> dash_to_space w = w.
Proof.
  induction w as [|c w IH]; [reflexivity|]. cbn [forallb dash_to_space].
  rewrite andb_true_iff. intros [Hc Hw]. apply az_facts in Hc as [_ [-> _]].
  now rewrite IH.
Qed.

Lemma dash_to_space_sep c :
  (isspace c || (true && Ascii.eqb c "-")) = true ->
  (isspace (if Ascii.eqb c "-" then " "%char else c)
   || (false && Ascii.eqb (if Ascii.eqb c "-" then " "%char else c) "-")) = true.
Proof.
  cbn [andb]. rewrite orb_false_r. destruct (Ascii.eqb c "-"); [reflexivity|].
  now rewrite orb_false_r.
Qed.

Lemma dash_to_space_phrase m : phrase true m -> phrase false (dash_to_space m).
Proof.
  intros [w1 [s1 [w2 [more [-> [[N1 H1] [[N2 H2] [S1 Hmore]]]]]]]].
  rewrite dash_to_space_app. cbn [dash_to_space]. rewrite dash_to_space_app.
  rewrite (dash_to_space_letters _ H1), (dash_to_space_letters _ H2).
  exists w1, (if Ascii.eqb s1 "-" then " "%char else s1), w2, (dash_to_space more).
  repeat split; try assumption; [now apply dash_to_space_sep|].
  destruct Hmore as [-> | [s2 [w3 [-> [[N3 H3] S2]]]]]; [now left|].
  right. cbn [dash_to_space]. rewrite (dash_to_space_letters _ H3).
  exists (if Ascii.eqb s2 "-" then " "%char else s2), w3.
  repeat split; try assumption. now apply dash_to_space_sep.
Qed.

Lemma rstrip_by_id p s c : last_char s = Some c -> p c = false -> rstrip_by p s = s.
Proof.
  induction s as [|a s IH]; [discriminate|]. intros L Pc. cbn [rstrip_by].
  destruct s as [|b s].
  - cbn in L. injection L as ->. cbn [rstrip_by]. now rewrite Pc.
  - change (last_char (String a (String b s))) with (last_char (String b s)) in L.
    rewrite (IH L Pc). reflexivity.
Qed.

Lemma letters_ends w :
  letters w ->
  exists c r d, w = String c r /\ az c = true /\ last_char w = Some d /\ az d = true.
Proof.
  intros [N H]. destruct w as [|c r]; [now elim N|].
  destruct (last_char_some (String c r) N) as [d L].
  exists c, r, d. repeat split; [|exact L|].
  - cbn [forallb] in H. now apply andb_true_iff in H as [H _].
  - exact (last_char_forallb _ _ _ H L).
Qed.

(** A phrase begins and ends with a letter. *)
Lemma phrase_ends dash t :
  phrase dash t ->
  exists c r d, t = String c r /\ az c = true /\ last_char t = Some d /\ az d = true
                /\ 3 <= length t.
Proof.
  intros [w1 [s1 [w2 [more [-> [L1 [L2 [S1 Hmore]]]]]]]].
  destruct (letters_ends _ L1) as [c [r [_ [-> [Hc _]]]]].
  assert (Hlast : exists d, last_char (w2 ++ more) = Some d /\ az d = true).
  { destruct Hmore as [-> | [s2 [w3 [-> [L3 _]]]]].
    - rewrite append_empty_r. destruct (letters_ends _ L2) as [_ [_ [d [_ [_ H]]]]].
      now exists d.
    - destruct (letters_ends _ L3) as [c3 [r3 [d [E [_ [Hl Hd]]]]]].
      exists d. split; [|exact Hd].
      rewrite (last_char_append w2 (String s2 w3)) by discriminate.
      change (String s2 w3) with (String s2 "" ++ w3).
      rewrite (last_char_append (String s2 "") w3); [exact Hl|].
      rewrite E. discriminate. }
  destruct Hlast as [d [Hl Hd]].
  destruct (letters_ends _ L2) as [c2 [r2 [_ [E2 _]]]].
  exists c, (r ++ String s1 (w2 ++ more)), d. repeat split; try assumption.
  - rewrite (last_char_append (String c r) (String s1 (w2 ++ more))) by discriminate.
    change (String s1 (w2 ++ more)) with (String s1 "" ++ (w2 ++ more)).
    rewrite (last_char_append (String s1 "") (w2 ++ more)); [exact Hl|].
    rewrite E2. discriminate.
  - rewrite E2. cbn [append length]. rewrite length_append. cbn [length]. lia.
Qed.

Lemma strip_phrase t : phrase false t -> strip t = t.
Proof.
  intros H. destruct (phrase_ends _ _ H) as [c [r [d [-> [Hc [Hl [Hd _]]]]]]].
  apply az_facts in Hc as [Hc _]. apply az_facts in Hd as [Hd _].
  unfold strip. cbn [lstrip_by]. rewrite Hc. now apply (rstrip_by_id _ _ d).
Qed.

(** *** The tokens *)

Lemma findall_pieces (P : string -> Prop) pattern text :
  (forall prev m rest, fits pattern prev m rest -> P m) ->
  Forall (fun m => P m /\ contains m text = true) (findall pattern text).
Proof.
  intros HP. unfold findall.
  apply (findall_from_Forall _ (fun s => exists pre, text = pre ++ s)).
  - intros prev s rest [pre Et] Hr. destruct (run_fits _ _ _ _ Hr) as [m [Es Hm]].
    exists m. split; [exact Es|]. intros _. split; [now apply (HP prev m rest)|].
    apply contains_iff. exists pre, rest. now rewrite <- Es.
  - intros a b [pre Et]. exists (pre ++ a). now rewrite append_assoc.
  - now exists "".
Qed.

Lemma word_tokens text :
  Forall (fun t => word_token t /\ contains t (lower text) = true)
         (findall word_pattern (lower text)).
Proof. apply findall_pieces. exact word_fits. Qed.

Lemma phrase_tokens text pattern :
  In pattern multi_word_patterns ->
  Forall (fun t => phrase false t
                   /\ exists m, phrase true m /\ contains m (lower text) = true
                                /\ t = dash_to_space m)
         (map (fun m => strip (dash_to_space m)) (findall pattern (lower text))).
Proof.
  intros Hin. apply Forall_map.
  eapply Forall_impl; [|apply (findall_pieces (phrase true))].
  - intros m [Hm Hc]. cbn beta.
    rewrite (strip_phrase _ (dash_to_space_phrase _ Hm)).
    split; [now apply dash_to_space_phrase|]. now exists m.
  - intros prev m rest. now apply phrase_fits.
Qed.

Lemma letters_chars w :
  letters w -> PyStr.forallb (fun c => term_char c || isspace c) w = true.
Proof.
  intros [_ H]. eapply forallb_weaken; [|exact H].
  intros c Hc. apply az_facts in Hc as (_ & _ & _ & ->). reflexivity.
Qed.

Lemma phrase_chars t :
  phrase false t -> PyStr.forallb (fun c => term_char c || isspace c) t = true.
Proof.
  intros (w1 & s1 & w2 & more & -> & L1 & L2 & S1 & Hmore).
  cbn [andb] in S1. rewrite orb_false_r in S1.
  rewrite forallb_append. cbn [forallb]. rewrite forallb_append.
  rewrite (letters_chars _ L1), (letters_chars _ L2), S1, orb_true_r. cbn [andb].
  destruct Hmore as [-> | (s2 & w3 & -> & L3 & S2)]; [reflexivity|].
  cbn [andb] in S2. rewrite orb_false_r in S2. cbn [forallb].
  now rewrite (letters_chars _ L3), S2, orb_true_r.
Qed.

Lemma token_chars_no_dash t :
  PyStr.forallb (fun c => term_char c || isspace c) t = true -> has_char "-" t = false.
Proof. apply has_char_forallb. reflexivity. Qed.

(** X24.  The tokens of [tokenize_text].  Every token is a piece of the text in
    lower case that is a letter a-z followed by one or more of
    [a-z0-9+#/.], or it is made of two or three runs of letters a-z of such
    a piece with one white space character between two runs, a hyphen of
    the text made a space.  So a token has two characters or more, begins
    with a letter a-z, and has no hyphen, no capital and no character
    outside [a-z0-9+#/.] and white space: the terms [scikit-learn] and
    [objective-c] of [PRESERVE_TERMS] are the token of no text. *)
Theorem tokenize_text_tokens :
  forall text : string,
    Forall (token_facts text) (tokenize_text text)
    /\ ~ In "scikit-learn" (tokenize_text text)
    /\ ~ In "objective-c" (tokenize_text text).
Proof.
  intros text.
  assert (H : Forall (token_facts text) (tokenize_text text)).
  { unfold tokenize_text. apply Forall_app. split.
    - eapply Forall_impl; [|apply word_tokens].
      intros t [Hw Hc]. pose proof Hw as (c & r & -> & Hc1 & Hr & Hall).
      assert (Hch : PyStr.forallb (fun c => term_char c || isspace c) (String c r) = true).
      { cbn [forallb]. apply az_facts in Hc1 as (_ & _ & _ & ->). cbn [orb andb].
        eapply forallb_weaken; [|exact Hall]. now intros a ->. }
      unfold token_facts, token_of. repeat split.
      + left. now split.
      + destruct r; [now elim Hr | cbn [length]; lia].
      + now exists c, r.
      + exact Hch.
      + now apply token_chars_no_dash.
    - unfold multi_word_patterns. cbn [flat_map]. rewrite app_nil_r.
      apply Forall_app.
      split; (eapply Forall_impl; [|apply phrase_tokens; cbn; tauto]);
        intros t [Hp Hm]; destruct (phrase_ends _ _ Hp) as (c & r & d & E & Hc & _ & _ & Hlen);
        pose proof (phrase_chars _ Hp) as Hch;
        unfold token_facts, token_of; repeat split;
        [ now right | lia | now exists c, r | exact Hch | now apply token_chars_no_dash
        | now right | lia | now exists c, r | exact Hch | now apply token_chars_no_dash ]. }
  split; [exact H|]. rewrite Forall_forall in H.
  split; intros Hin; apply H in Hin as (_ & _ & _ & _ & Hd); discriminate Hd.
Qed.

(** *** Tokens of a text of plain words *)

Lemma word_term c : is_word c = true -> term_char c = true -> (az c || digit c) = true.
Proof.
  destruct c as [b0 b1 b2 b3 b4 b5 b6 b7].
  destruct b0, b1, b2, b3, b4, b5, b6, b7; vm_compute; intros H1 H2;
    try discriminate H1; try discriminate H2; reflexivity.
Qed.

Lemma plain_word_term c :
  (negb (is_word c) || az c || digit c) = true -> is_word c = true -> term_char c = true.
Proof.
  destruct c as [b0 b1 b2 b3 b4 b5 b6 b7].
  destruct b0, b1, b2, b3, b4, b5, b6, b7; vm_compute; intros H1 H2;
    try discriminate H1; try discriminate H2; reflexivity.
Qed.

(** With a word character first, [[a-z0-9+#/.]+\b] has a match. *)
Lemma many1_word_start s d :
  plain_words (String d s) = true -> is_word d = true ->
  many1 term_char (run [Boundary]) (String d s) <> None.
Proof.
  revert d. induction s as [|e s IH]; intros d Hp Hd.
  - unfold plain_words in Hp. cbn [forallb] in Hp. apply andb_true_iff in Hp as [Hp _].
    cbn [many1 run]. rewrite (plain_word_term _ Hp Hd).
    unfold boundary. rewrite Hd. discriminate.
  - unfold plain_words in Hp. cbn [forallb] in Hp. apply andb_true_iff in Hp as [Hp1 Hp2].
    change (many1 term_char (run [Boundary]) (String d (String e s)))
      with (if term_char d
            then match many1 term_char (run [Boundary]) (String e s) with
                 | Some rest => Some rest
                 | None => run [Boundary] (Some d) (String e s)
                 end
            else None).
    rewrite (plain_word_term _ Hp1 Hd).
    destruct (many1 term_char (run [Boundary]) (String e s)) eqn:E; [discriminate|].
    change (plain_words (String e s) = true) in Hp2.
    cbn [run]. unfold boundary. rewrite Hd.
    destruct (is_word e) eqn:He; [|discriminate].
    exfalso. now apply (IH e Hp2 He).
Qed.

(** In a text of plain words, a match of [[a-z0-9+#/.]+\b] ends with a word
    character. *)
Lemma many1_word_end s :
  forall rest, plain_words s = true ->
    many1 term_char (run [Boundary]) s = Some rest ->
    exists m c, s = m ++ rest /\ last_char m = Some c
                /\ is_word c = true /\ term_char c = true.
Proof.
  induction s as [|a s IH]; intros rest Hp; [discriminate|].
  cbn [many1]. destruct (term_char a) eqn:Ta; [|discriminate].
  pose proof Hp as Hp'. unfold plain_words in Hp'. cbn [forallb] in Hp'.
  apply andb_true_iff in Hp' as [_ Hs].
  destruct (many1 term_char (run [Boundary]) s) as [r|] eqn:E.
  - intros [= <-]. destruct (IH r Hs eq_refl) as (m & c & Es & Hl & Hw & Ht).
    exists (String a m), c. repeat split; try assumption.
    + cbn [append]. f_equal. exact Es.
    + destruct m; [discriminate | exact Hl].
  - cbn [run]. destruct (boundary (Some a) s) eqn:B; [|discriminate].
    intros [= <-]. exists (String a ""), a. repeat split; try assumption.
    destruct (is_word a) eqn:Wa; [reflexivity|]. exfalso.
    unfold boundary in B. rewrite Wa in B. destruct s as [|d s]; [discriminate|].
    cbn [xorb] in B. now apply (many1_word_start s d Hs B).
Qed.

Lemma plain_words_suffix a b : plain_words (a ++ b) = true -> plain_words b = true.
Proof. unfold plain_words. rewrite forallb_append. now intros [_ H]%andb_true_iff. Qed.

Lemma word_tokens_plain text :
  plain_words text = true -> Forall ends_plain (findall word_pattern text).
Proof.
  intros Hp. unfold findall.
  apply (findall_from_Forall _ (fun s => plain_words s = true)); [| |exact Hp].
  - intros prev s rest Hs. unfold word_pattern. cbn [run].
    destruct (boundary prev s); [|discriminate].
    destruct s as [|c s]; [discriminate|]. destruct (az c); [|discriminate].
    intros Hr. apply (plain_words_suffix (String c "")) in Hs.
    destruct (many1_word_end s rest Hs Hr) as (m & d & Es & Hl & Hw & Ht).
    exists (String c m). split; [cbn [append]; f_equal; exact Es|].
    intros _. exists d. split; [|now apply word_term].
    destruct m; [discriminate | exact Hl].
  - exact plain_words_suffix.
Qed.

(** X25.  In a text whose word characters are, in lower case, letters a-z and
    digits (no underscore, no letter or number outside ASCII), every token
    ends with a letter a-z or a digit: a final [+], [#], [/] or [.] is left
    out of the token, and [c++] and [c#] are no tokens of the text. *)
Theorem tokens_end_in_letter_or_digit :
  forall text : string,
    plain_words (lower text) = true ->
    Forall ends_plain (tokenize_text text)
    /\ ~ In "c++" (tokenize_text text)
    /\ ~ In "c#" (tokenize_text text).
Proof.
  intros text Hp.
  assert (H : Forall ends_plain (tokenize_text text)).
  { unfold tokenize_text. apply Forall_app. split; [now apply word_tokens_plain|].
    unfold multi_word_patterns. cbn [flat_map]. rewrite app_nil_r.
    apply Forall_app.
    split; (eapply Forall_impl; [|apply phrase_tokens; cbn; tauto]);
      intros t [Ht _]; destruct (phrase_ends _ _ Ht) as (c & r & d & _ & _ & Hl & Hd & _);
      exists d; (split; [exact Hl | now rewrite Hd]). }
  split; [exact H|]. rewrite Forall_forall in H.
  split; intros Hin; apply H in Hin as (c & Hl & Hc);
    cbn in Hl; injection Hl as <-; discriminate Hc.
Qed.

Lemma tokens_end_in_letter_or_digit_example :
  Forall ends_plain (tokenize_text "Experience with C++, C# and Node.js.")
  /\ ~ In "c++" (tokenize_text "Experience with C++, C# and Node.js.")
  /\ ~ In "c#" (tokenize_text "Experience with C++, C# and Node.js.").
Proof. apply tokens_end_in_letter_or_digit. vm_compute. reflexivity. Defined.

End TokenizeFacts.


(* ------------------------------------------------------------------ *)
(** ** The user prompt *)

Module PromptsFacts.
Import Notions MoreNotions PyStr PyStrMore Prompts.
Import PyStrFacts UrllibFacts PyStrMoreFacts LeverApiFacts.

(** The prompt for a job text [v]: the template with its braces read, and
    [v] as it is in the place of the field. *)
Lemma format_template v :
  format USER_PROMPT_TEMPLATE [("job_text", v)]
  = Ok (match format (take 613 USER_PROMPT_TEMPLATE) [] with
        | Ok head => head
        | Raise _ => ""
        end ++ v ++ drop 623 USER_PROMPT_TEMPLATE).
Proof. vm_compute. reflexivity. Qed.

(** X26.  What [get_user_prompt] returns.  It never raises: the prompt is a fixed
    text, then the job text, then a fixed text.  A job text of at most 15000
    characters is there as it is, braces included; of a longer one the first
    15000 characters are there, followed by the note that the content was
    truncated.  So a prompt has at most 15703 characters. *)
Theorem get_user_prompt_frame :
  exists head tail : string,
    (exists intro, head = intro ++ "JOB POSTING:" ++ LF ++ "---" ++ LF)
    /\ tail = LF ++ "---" ++ LF ++ LF
              ++ "Remember: Return ONLY the JSON object, no other text."
    /\ length head + length tail = 668
    /\ (forall job_text : string,
          (Z.of_nat (length job_text) <= 15000)%Z ->
          get_user_prompt job_text = Ok (head ++ job_text ++ tail))
    /\ (forall job_text : string,
          (15000 < Z.of_nat (length job_text))%Z ->
          get_user_prompt job_text
          = Ok (head ++ (take (Z.to_nat 15000) job_text
                         ++ LF ++ LF ++ "[Content truncated for length...]")
                ++ tail))
    /\ (forall job_text : string,
          exists prompt, get_user_prompt job_text = Ok prompt
                         /\ (Z.of_nat (length prompt) <= 15703)%Z).
Proof.
  exists (match format (take 613 USER_PROMPT_TEMPLATE) [] with
          | Ok head => head
          | Raise _ => ""
          end), (drop 623 USER_PROMPT_TEMPLATE).
  set (head := match format (take 613 USER_PROMPT_TEMPLATE) [] with
               | Ok head => head
               | Raise _ => ""
               end).
  set (tail := drop 623 USER_PROMPT_TEMPLATE).
  assert (Hlen : length head + length tail = 668) by (vm_compute; reflexivity).
  assert (Hshort : forall job_text : string,
             (Z.of_nat (length job_text) <= 15000)%Z ->
             get_user_prompt job_text = Ok (head ++ job_text ++ tail)).
  { intros job_text H. unfold get_user_prompt, max_chars.
    destruct (Z.ltb_spec 15000 (Z.of_nat (length job_text))); [lia|].
    apply format_template. }
  assert (Hlong : forall job_text : string,
             (15000 < Z.of_nat (length job_text))%Z ->
             get_user_prompt job_text
             = Ok (head ++ (take (Z.to_nat 15000) job_text
                            ++ LF ++ LF ++ "[Content truncated for length...]")
                   ++ tail)).
  { intros job_text H. unfold get_user_prompt, max_chars.
    destruct (Z.ltb_spec 15000 (Z.of_nat (length job_text))); [|lia].
    apply format_template. }
  split; [|split; [|split; [|split; [|split]]]]; try assumption.
  - exists (take (length head - 17) head). subst head. vm_compute. reflexivity.
  - subst tail. vm_compute. reflexivity.
  - intros job_text.
    destruct (Z.leb_spec (Z.of_nat (length job_text)) 15000) as [H | H].
    + eexists. split; [apply (Hshort _ H)|]. rewrite !length_append. lia.
    + eexists. split; [apply (Hlong _ H)|]. rewrite !length_append.
      pose proof (length_take_le (Z.to_nat 15000) job_text).
      change (length LF) with 1.
      change (length "[Content truncated for length...]") with 33. lia.
Qed.

End PromptsFacts.


(* ------------------------------------------------------------------ *)
(** ** The response of the LLM *)

Module AnalyzerFacts.
Import Notions MoreNotions PyStr PyStrMore PyVal Urllib Analyzer.
Import PyStrFacts UrllibFacts UrlparseFacts RebuildFacts PyStrMoreFacts LeverApiFacts.

(** The match of [\{[\s\S]*\}] in a text with a first [{] and a last [}]
    after it. *)
Lemma search_braces_found pre mid post :
  has_char "{" pre = false -> has_char "}" post = false ->
  search_braces (pre ++ "{" ++ mid ++ "}" ++ post) = Some ("{" ++ mid ++ "}").
Proof.
  intros Hpre Hpost. unfold search_braces.
  change (pre ++ "{" ++ mid ++ "}" ++ post)
    with (pre ++ String "{" (mid ++ String "}" post)).
  rewrite (partition_app _ _ _ Hpre), (rpartition_app _ _ _ Hpost). reflexivity.
Qed.

Section WithImpl.
Context {impl : HtmlImpl}.

(** X27.  Text around the JSON object of a response does not count: when
    [json.loads] rejects the content with [JSONDecodeError], what
    [_parse_llm_response] does for it is what it does for the text from the
    first [{] to the last [}], whether that text is JSON or not and whatever
    [json.loads] raises on it. *)
Theorem parse_llm_response_ignores_prose :
  forall pre mid post : string,
    has_char "{" pre = false ->
    has_char "}" post = false ->
    json_loads (pre ++ "{" ++ mid ++ "}" ++ post) = Raise JSONDecodeError ->
    _parse_llm_response (pre ++ "{" ++ mid ++ "}" ++ post)
    = _parse_llm_response ("{" ++ mid ++ "}").
Proof.
  intros pre mid post Hpre Hpost Hfail. unfold _parse_llm_response.
  rewrite Hfail. unfold _extract_json_from_text.
  rewrite (search_braces_found _ _ _ Hpre Hpost).
  pose proof (search_braces_found "" mid "" eq_refl eq_refl) as Hb.
  change (search_braces ("{" ++ mid ++ "}") = Some ("{" ++ mid ++ "}")) in Hb.
  destruct (json_loads ("{" ++ mid ++ "}")) as [data|e'] eqn:E'; [reflexivity|].
  destruct e'; try reflexivity.
  cbn [bind]. rewrite Hb, E'. reflexivity.
Qed.

(** What [result_of] does with a value. *)
Lemma result_of_cases data :
  (forall e, result_of data = Raise e <->
             e = AttributeError
             /\ exists d, data = JDict d
                          /\ is_dict (get_default "required_skills" (JDict []) d) = false)
  /\ (forall r, result_of data = Ok r ->
        (success r = true /\ error_message r = None
         /\ exists d, data = JDict d
                      /\ job_title r = get "job_title" d
                      /\ is_dict (get_default "required_skills" (JDict []) d) = true)
        \/ (r = error "Response is not a JSON object" /\ is_dict data = false)).
Proof.
  unfold result_of.
  destruct data as [| b | n | f | s | l | d];
    try (split; [intros e; split; [discriminate | intros [_ [d' [[=] _]]]]
                | intros r [= <-]; right; split; reflexivity]).
  unfold from_dict.
  destruct (get_default "required_skills" (JDict []) d) as [| b | n | f | s | l | rs] eqn:G;
    try (split; [intros e; split;
                   [intros [= <-]; split; [reflexivity|]; exists d; rewrite G; now split
                   | intros [-> _]; reflexivity]
                | intros r; discriminate]).
  split.
  - intros e. split; [discriminate|]. intros [_ [d' [[= <-] H]]].
    rewrite G in H. discriminate.
  - intros r [= <-]. left. cbn [success error_message job_title].
    repeat split. exists d. rewrite G. now repeat split.
Qed.

(** In terms of the value worked on. *)
Lemma parse_llm_response_data content :
  _parse_llm_response content
  = match response_data content with
    | Ok (Some data) => result_of data
    | Ok None => Ok (error "Could not parse response as JSON")
    | Raise e => Raise e
    end.
Proof.
  unfold _parse_llm_response, response_data, _extract_json_from_text.
  destruct (json_loads content) as [data|e]; [reflexivity|].
  destruct e; reflexivity.
Qed.

(** X28.  The outcomes of [_parse_llm_response].  It raises what
    [json.loads] raises, other than [JSONDecodeError], on the content or, the
    content rejected with [JSONDecodeError], on the text from the first [{]
    to the last [}]; and it raises [AttributeError] when the response is a
    JSON object whose [required_skills] is there and is no object ([null], a
    list, a text).  It raises nothing else.  A result with [success] has no
    error message; a result without has one of the two messages and none of
    the fields. *)
Theorem parse_llm_response_outcomes :
  forall content : string,
    (forall e, _parse_llm_response content = Raise e <->
               response_data content = Raise e
               \/ (e = AttributeError
                   /\ exists d, response_data content = Ok (Some (JDict d))
                                /\ is_dict (get_default "required_skills" (JDict []) d)
                                   = false))
    /\ (forall e, response_data content = Raise e <->
                  e <> JSONDecodeError
                  /\ (json_loads content = Raise e
                      \/ (json_loads content = Raise JSONDecodeError
                          /\ exists group, search_braces content = Some group
                                           /\ json_loads group = Raise e)))
    /\ (forall r, _parse_llm_response content = Ok r ->
          (success r = true /\ error_message r = None
           /\ exists d, response_data content = Ok (Some (JDict d))
                        /\ job_title r = get "job_title" d
                        /\ is_dict (get_default "required_skills" (JDict []) d) = true)
          \/ (r = error "Could not parse response as JSON"
              /\ response_data content = Ok None)
          \/ (r = error "Response is not a JSON object"
              /\ exists data, response_data content = Ok (Some data)
                              /\ is_dict data = false)).
Proof.
  intros content. rewrite parse_llm_response_data. split; [|split].
  - intros e. destruct (response_data content) as [[data|]|e0].
    + destruct (result_of_cases data) as [H1 _]. rewrite H1. split.
      * intros (-> & d & -> & Hd). right. split; [reflexivity|]. now exists d.
      * intros [H | (-> & d & [= ->] & Hd)]; [discriminate|].
        split; [reflexivity|]. now exists d.
    + split; [discriminate|]. intros [H | (_ & d & H & _)]; discriminate.
    + split; [intros [= ->]; now left|].
      intros [[= ->] | (_ & d & H & _)]; [reflexivity | discriminate].
  - intros e. unfold response_data.
    destruct (json_loads content) as [data|e0].
    { split; [discriminate|]. intros (_ & [H | (H & _)]); discriminate. }
    destruct e0;
      try (split; [intros [= <-]; split; [discriminate | now left]
                  | intros (Hne & [[= <-] | ([=] & _)]); reflexivity]).
    destruct (search_braces content) as [group|].
    + destruct (json_loads group) as [data|e1] eqn:E1.
      { split; [discriminate|].
        intros (Hne & [[= <-] | (_ & g & [= <-] & H)]); [now elim Hne|].
        rewrite E1 in H. discriminate. }
      destruct e1;
        try (split;
             [intros [= <-]; split;
              [discriminate
              | right; split; [reflexivity | exists group; split; [reflexivity | exact E1]]]
             | intros (Hne & [[= <-] | (_ & g & [= <-] & H)]);
               [now elim Hne | rewrite E1 in H; injection H as <-; reflexivity]]).
      split; [discriminate|].
      intros (Hne & [[= <-] | (_ & g & [= <-] & H)]); [now elim Hne|].
      rewrite E1 in H. injection H as <-. now elim Hne.
    + split; [discriminate|].
      intros (Hne & [[= <-] | (_ & g & [=] & _)]). now elim Hne.
  - intros r. destruct (response_data content) as [[data|]|e0].
    + intros Hr. destruct (result_of_cases data) as [_ H2].
      destruct (H2 r Hr) as [(Hs & Hm & d & -> & Hd) | (-> & Hd)].
      * left. repeat split; try assumption. now exists d.
      * right. right. split; [reflexivity|]. now exists data.
    + intros [= <-]. right. left. now split.
    + discriminate.
Qed.

End WithImpl.

(** A response with a sentence before its JSON object and one after it. *)
Lemma parse_llm_response_ignores_prose_example :
  @_parse_llm_response
    (page [] [("{" ++ dq ++ "job_title" ++ dq ++ ": " ++ dq ++ "Engineer" ++ dq ++ "}",
               JDict [("job_title", JStr "Engineer")])])
    ("Here is the JSON: " ++ "{"
     ++ (dq ++ "job_title" ++ dq ++ ": " ++ dq ++ "Engineer" ++ dq)
     ++ "}" ++ " I hope it helps.")
  = @_parse_llm_response
      (page [] [("{" ++ dq ++ "job_title" ++ dq ++ ": " ++ dq ++ "Engineer" ++ dq ++ "}",
                 JDict [("job_title", JStr "Engineer")])])
      ("{" ++ (dq ++ "job_title" ++ dq ++ ": " ++ dq ++ "Engineer" ++ dq) ++ "}").
Proof.
  apply (@parse_llm_response_ignores_prose
           (page [] [("{" ++ dq ++ "job_title" ++ dq ++ ": " ++ dq ++ "Engineer" ++ dq ++ "}",
                      JDict [("job_title", JStr "Engineer")])])).
  - reflexivity.
  - reflexivity.
  - vm_compute. reflexivity.
Defined.

End AnalyzerFacts.


(* ------------------------------------------------------------------ *)
(** ** The fallback extraction *)

Module FallbackFacts.
Import PyStr FallbackExtractor.

Section WithImpl.
Context {impl : ExtractImpl}.

(** X29.  What [get_best_extraction] chooses.  The result is the text of
    trafilatura or that of newspaper3k, and is never shorter than the text of
    trafilatura, which is returned when it has more than 200 characters or
    when there is no URL.  With a URL and a text of trafilatura of at most 200
    characters, the result is the longer of the two texts, and the text of
    trafilatura when they have the same length. *)
Theorem get_best_extraction_choice :
  forall (html : string) (url : option string),
    length (extract_with_fallback html url) <= length (get_best_extraction html url)
    /\ (200 < length (extract_with_fallback html url) ->
        get_best_extraction html url = extract_with_fallback html url)
    /\ (url = None \/ url = Some "" ->
        get_best_extraction html url = extract_with_fallback html url)
    /\ (forall u, url = Some u -> u <> "" ->
          length (extract_with_fallback html url) <= 200 ->
          length (get_best_extraction html url)
          = Nat.max (length (extract_with_fallback html url))
                    (length (extract_with_newspaper html u))
          /\ (get_best_extraction html url
              = if Nat.ltb (length (extract_with_fallback html url))
                           (length (extract_with_newspaper html u))
                then extract_with_newspaper html u
                else extract_with_fallback html url)).
Proof.
  intros html url. unfold get_best_extraction.
  set (content := extract_with_fallback html url).
  destruct (Nat.ltb_spec 200 (length content)) as [Hbig | Hsmall].
  - assert (E : negb (String.eqb content "") = true).
    { destruct content; [cbn in Hbig; lia | reflexivity]. }
    rewrite E. cbn [andb]. repeat split; intros; lia.
  - rewrite andb_false_r. split; [|split; [|split]].
    + destruct url as [u|]; [|lia]. destruct (String.eqb u ""); cbn [negb]; [lia|].
      destruct (negb (String.eqb (extract_with_newspaper html u) "")); cbn [andb]; [|lia].
      destruct (Nat.ltb_spec (length content) (length (extract_with_newspaper html u))); lia.
    + intros H. lia.
    + intros [-> | ->]; reflexivity.
    + intros u -> Hu _. destruct (String.eqb_spec u ""); [contradiction|]. cbn [negb].
      set (news := extract_with_newspaper html u).
      destruct (Nat.ltb_spec (length content) (length news)) as [Hlt | Hge].
      * assert (E : negb (String.eqb news "") = true).
        { destruct news; [cbn in Hlt; lia | reflexivity]. }
        rewrite E. cbn [andb]. split; [lia | reflexivity].
      * rewrite andb_false_r. split; [lia | reflexivity].
Qed.

End WithImpl.

End FallbackFacts.
